(** * sigtrack: electronic-signature tracking over a DFdiscover audit trail

    A shallow embedding of the C sources of the sigtrack tool
    (rangelist.c, stringlist.c, esig.c, exclusions.c, grammar.y, db.c and
    main.c) and the properties of its specification established on it.

    Conventions of the embedding.
    - C integers are [Z]; every place where the C code converts between
      integer types or can wrap is written out with [sint64], [uint64],
      [sint32] and [uint32].
    - A [char *] is a [string]; a pointer that may be NULL is an [option].
      A NUL character ends a C string: the functions that walk over a
      string stop at it.
    - The intrusive red-black trees of tree.h are kept as lists in key
      order: RB_INSERT refuses duplicates and returns the element already
      present, RB_FOREACH walks in ascending order.
    - A structure that the C code mutates through a pointer into a tree is
      taken out, transformed and stored back under the same key.
    - A file is the string of its bytes, NUL bytes included; fgets hands
      them out in chunks of at most 1023 bytes that end behind a newline.
    - db.c is embedded up to its calls into SQLite: the database is the
      list of the calls that got that far, not the content of its
      tables. *)

From Stdlib Require Import ZArith List String Ascii Bool Lia Sorted Permutation.
Import ListNotations.
Local Open Scope string_scope.
Local Open Scope Z_scope.

(* ====================================================================== *)
(** ** Machine integers *)

Module CInt.

(** Value of a [long long] after two's complement wrap-around. *)
Definition sint64 (z : Z) : Z := (z + 2 ^ 63) mod 2 ^ 64 - 2 ^ 63.

(** Value of an [unsigned long long]. *)
Definition uint64 (z : Z) : Z := z mod 2 ^ 64.

(** Value of an [int]. *)
Definition sint32 (z : Z) : Z := (z + 2 ^ 31) mod 2 ^ 32 - 2 ^ 31.

(** Value of an [unsigned int]. *)
Definition uint32 (z : Z) : Z := z mod 2 ^ 32.

Definition LLONG_MAX : Z := 2 ^ 63 - 1.
Definition LLONG_MIN : Z := - 2 ^ 63.

(** Saturation as done by strtol and strtoll (long is 64 bits wide). *)
Definition clamp64 (z : Z) : Z := Z.max LLONG_MIN (Z.min LLONG_MAX z).

End CInt.
Import CInt.

(* ====================================================================== *)
(** ** The parts of the C library the program uses *)

Module CLib.

Definition code (c : ascii) : Z := Z.of_nat (nat_of_ascii c).

Definition is_nul (c : ascii) : bool := code c =? 0.

(** isspace in the C locale: space, \t, \n, \v, \f, \r. *)
Definition isspace (c : ascii) : bool :=
  (code c =? 32) || ((9 <=? code c) && (code c <=? 13)).

Definition isdigit (c : ascii) : bool := (48 <=? code c) && (code c <=? 57).

(** [*s - '0'] *)
Definition digit_val (c : ascii) : Z := code c - 48.

Definition digit_char (d : Z) : ascii := ascii_of_nat (Z.to_nat (48 + d)).

(** The characters of a C string: those before the first NUL. *)
Fixpoint cstr (s : string) : string :=
  match s with
  | EmptyString => EmptyString
  | String c s' => if is_nul c then EmptyString else String c (cstr s')
  end.

(** [strcmp(a, b) == 0] *)
Definition streq (a b : string) : bool := String.eqb (cstr a) (cstr b).

(** Decimal digits of a non-negative number, most significant first, in
    front of [acc].  [fuel] bounds the number of further digits; the
    binary logarithm of [n] is always enough. *)
Fixpoint udec_aux (fuel : nat) (n : Z) (acc : string) : string :=
  let acc' := String (digit_char (n mod 10)) acc in
  match fuel with
  | O => acc'
  | S k => if n / 10 =? 0 then acc' else udec_aux k (n / 10) acc'
  end.

Definition udec (n : Z) : string := udec_aux (Z.to_nat (Z.log2 n)) n "".

(** printf "%lld" of a value of type long long. *)
Definition fmt_lld (z : Z) : string :=
  if z <? 0 then String "-" (udec (- z)) else udec z.

(** printf "%d" of a value of type int. *)
Definition fmt_d (z : Z) : string := fmt_lld z.

(** snprintf into a buffer of [size] bytes keeps [size - 1] characters. *)
Definition snprintf (size : nat) (formatted : string) : string :=
  substring 0 (size - 1) formatted.

(** The digit run read by strtol: value accumulated so far and input. *)
Fixpoint strtol_digits (v : Z) (s : string) : Z :=
  match s with
  | String c s' => if isdigit c then strtol_digits (v * 10 + digit_val c) s' else v
  | EmptyString => v
  end.

Definition strtol_signed (s : string) : Z :=
  match s with
  | String "-" s' => - strtol_digits 0 s'
  | String "+" s' => strtol_digits 0 s'
  | _ => strtol_digits 0 s
  end.

Fixpoint skip_space (s : string) : string :=
  match s with
  | String c s' => if isspace c then skip_space s' else s
  | EmptyString => s
  end.

(** strtoll(s, NULL, 10): leading white space, an optional sign, digits;
    the result saturates. *)
Definition strtoll (s : string) : Z := clamp64 (strtol_signed (skip_space s)).

(** atoll, as the C library implements it. *)
Definition atoll (s : string) : Z := strtoll s.

(** atoi, as the C library implements it: [(int) strtol(s, NULL, 10)]. *)
Definition atoi (s : string) : Z := sint32 (strtoll s).

End CLib.
Import CLib.

(* ====================================================================== *)
(** ** rangelist.c *)

Module RangeLists.

(** One element of the linked list [struct rangelist]; the list itself,
    head first, is a [list]. *)
Record range : Type := mkRange { rmin : Z; rmax : Z }.

Definition RangeList : Type := list range.

(** [min ^= max; max ^= min; min ^= max;] *)
Definition xor_swap (a b : Z) : Z * Z :=
  let a1 := Z.lxor a b in
  let b1 := Z.lxor b a1 in
  let a2 := Z.lxor a1 b1 in
  (a2, b1).

Definition rl_addtofront (l : RangeList) (min max : Z) : RangeList :=
  let '(min, max) := if min >? max then xor_swap min max else (min, max) in
  mkRange min max :: l.

Definition rl_dup (l : RangeList) : RangeList :=
  map (fun e => mkRange (rmin e) (rmax e)) l.

Fixpoint rl_min_from (v : Z) (first : bool) (l : RangeList) : Z :=
  match l with
  | [] => v
  | e :: l' =>
      if first || (v >? rmin e) then rl_min_from (rmin e) false l'
      else rl_min_from v first l'
  end.

Definition rl_min (l : RangeList) : Z := rl_min_from 0 true l.

Fixpoint rl_max_from (v : Z) (first : bool) (l : RangeList) : Z :=
  match l with
  | [] => v
  | e :: l' =>
      if first || (v <? rmax e) then rl_max_from (rmax e) false l'
      else rl_max_from v first l'
  end.

Definition rl_max (l : RangeList) : Z := rl_max_from 0 true l.

(** [v = v + (l->max - l->min) + 1] in long long arithmetic. *)
Fixpoint rl_width_from (v : Z) (l : RangeList) : Z :=
  match l with
  | [] => v
  | e :: l' =>
      rl_width_from (sint64 (sint64 (v + sint64 (rmax e - rmin e)) + 1)) l'
  end.

Definition rl_width (l : RangeList) : Z := rl_width_from 0 l.

Fixpoint rl_contains (l : RangeList) (v : Z) : bool :=
  match l with
  | [] => false
  | e :: l' => if (v >=? rmin e) && (v <=? rmax e) then true else rl_contains l' v
  end.

(** The text written for one element by the second loop of rl_tostring. *)
Definition elem_tostring (e : range) : string :=
  fmt_lld (rmin e) ++
  (if negb (rmin e =? rmax e) then "-" ++ fmt_lld (rmax e) else "").

Fixpoint rl_tostring (l : RangeList) : string :=
  match l with
  | [] => ""
  | e :: l' =>
      elem_tostring e ++
      (match l' with [] => "" | _ => "," end) ++ rl_tostring l'
  end.

Inductive Token : Type := NUMBER | COMMA | DASH | ERROR | EOL.

Definition is_number (t : Token) : bool :=
  match t with NUMBER => true | _ => false end.

Definition is_dash (t : Token) : bool :=
  match t with DASH => true | _ => false end.

(** The variables of the loop of rl_fromstring.  [out] holds the elements
    linked so far through [*rl = l; rl = &l->next]; when the pointer [l]
    is not NULL it points to the last of them, which is all [cur] has to
    record. *)
Record pstate : Type := mkPState { out : RangeList; cur : bool; last : Token }.

(** [l->max = v] followed by the swap, on the element [l] points to. *)
Fixpoint set_last_max (o : RangeList) (v : Z) : RangeList :=
  match o with
  | [] => []
  | [e] =>
      let '(mn, mx) := if rmin e >? v then xor_swap (rmin e) v else (rmin e, v) in
      [mkRange mn mx]
  | e :: o' => e :: set_last_max o' v
  end.

(** [case NUMBER] of the switch; [None] is [return -1]. *)
Definition on_number (v : Z) (st : pstate) : option pstate :=
  if is_dash (last st) then
    if cur st then Some (mkPState (set_last_max (out st) v) false NUMBER)
    else None
  else Some (mkPState (out st ++ [mkRange v v])%list true NUMBER).

(** What the caller finds in [*rl]: its old content [rl0] as long as no
    element was linked. *)
Definition rl_result (rl0 : RangeList) (st : pstate) : RangeList :=
  match out st with [] => rl0 | o => o end.

(** The exit of the loop: [if (last != NUMBER) return -1; return 0;] *)
Definition rl_finish (rl0 : RangeList) (st : pstate) : Z * RangeList :=
  ((if is_number (last st) then 0 else -1), rl_result rl0 st).

(** The inner loop [for (; isdigit( *s); s++) v = (v*10) + ( *s-'0')]:
    the value read and the rest of the input. *)
Fixpoint scan_digits (v : Z) (s : string) : Z * string :=
  match s with
  | String d s' =>
      if isdigit d then scan_digits (sint64 (v * 10 + digit_val d)) s' else (v, s)
  | EmptyString => (v, s)
  end.

(** The main loop.  The digit run is read by the local loop [digits],
    which hands the first character after the run back to the outer
    loop, as [s--] does. *)
Fixpoint rl_scan (rl0 : RangeList) (s : string) (st : pstate) {struct s}
  : Z * RangeList :=
  match s with
  | EmptyString => rl_finish rl0 st
  | String c s' =>
      if is_nul c then rl_finish rl0 st
      else if isspace c then rl_scan rl0 s' st
      else if isdigit c then
        (fix digits (v : Z) (t : string) {struct t} : Z * RangeList :=
           match t with
           | String d t' =>
               if isdigit d then digits (sint64 (v * 10 + digit_val d)) t'
               else match on_number v st with
                    | None => (-1, rl_result rl0 st)
                    | Some st' => rl_scan rl0 t st'
                    end
           | EmptyString =>
               match on_number v st with
               | None => (-1, rl_result rl0 st)
               | Some st' => rl_scan rl0 t st'
               end
           end) (sint64 (0 * 10 + digit_val c)) s'
      else if Ascii.eqb c "," then
        rl_scan rl0 s' (mkPState (out st) false COMMA)
      else if Ascii.eqb c "-" then
        rl_scan rl0 s' (mkPState (out st) (cur st) DASH)
      else (-1, rl_result rl0 st)
  end.

(** [rl_fromstring(&rl, s)]: the return code and the final [*rl], given
    the content [rl0] of [*rl] at the call.  A NULL [s] takes the branch
    of the empty string. *)
Definition rl_fromstring (rl0 : RangeList) (s : string) : Z * RangeList :=
  if String.eqb (cstr s) "" then (0, [])
  else if streq s "*" then (0, [mkRange 0 2147483647])
  else rl_scan rl0 s (mkPState [] false NUMBER).

End RangeLists.
Import RangeLists.

(* ====================================================================== *)
(** ** stringlist.c *)

Module StringLists.

(** The vector [sl->v[0 .. sl->n - 1]]; an entry is [None] where the C
    code stored a NULL pointer (an empty column). *)
Record StringList : Type := mkStringList { sl_v : list (option string) }.

Definition sl_n (sl : StringList) : Z := Z.of_nat (List.length (sl_v sl)).

Definition sl_value (sl : StringList) (n : Z) : string :=
  if (n <? 0) || (n >=? sl_n sl) then ""
  else match nth_error (sl_v sl) (Z.to_nat n) with
       | Some (Some s) => s
       | _ => ""
       end.

Definition sl_append (v : list (option string)) (p : option string)
  : list (option string) := (v ++ [p])%list.

(** [*(p+(p_len++)) = c] on the column being collected. *)
Definition push_char (p : option string) (c : ascii) : option string :=
  Some (match p with None => "" | Some s => s end ++ String c "").

Definition newline : ascii := "010"%char.

(** [sizeof(buffer)]: fgets hands the loop at most [BUFFER_SIZE - 1]
    characters at a time. *)
Definition BUFFER_SIZE : Z := 1024.

(** The loop of sl_read over the unread input [fp]: [None] is the return
    value -1 at end of input, otherwise the record read and the input
    left.  fgets reads a chunk of the input, up to and including a
    newline and at most [BUFFER_SIZE - 1] characters long; [room] is the
    number of characters that the chunk in the buffer can still take, 0
    when the buffer is used up and [if (! *b)] calls fgets for the next
    chunk.  The same test calls fgets when [b] meets a NUL byte that was
    read from the input: the characters of the chunk behind it are never
    looked at, which is what [skip] records.  A character is therefore
    handled as follows: it starts a new chunk if the buffer is used up; it
    is passed over if a NUL came before it in its chunk; otherwise it is a
    NUL, a newline, the delimiter or a character of the column. *)
Fixpoint sl_read_from (v : list (option string)) (p : option string)
  (room : Z) (skip : bool) (fp : string) (delimiter : ascii)
  : option (StringList * string) :=
  match fp with
  | EmptyString => None
  | String c fp' =>
      let skip := if room <=? 0 then false else skip in
      let room := if room <=? 0 then BUFFER_SIZE - 1 else room in
      let room' := if Ascii.eqb c newline then 0 else room - 1 in
      if skip then sl_read_from v p room' true fp' delimiter
      else if is_nul c then sl_read_from v p room' true fp' delimiter
      else if Ascii.eqb c newline then Some (mkStringList (sl_append v p), fp')
      else if Ascii.eqb c delimiter then
        sl_read_from (sl_append v p) None room' false fp' delimiter
      else sl_read_from v (push_char p c) room' false fp' delimiter
  end.

(** sl_read starts with an empty buffer: [b = buffer; buffer[0] = 0]. *)
Definition sl_read (fp : string) (delimiter : ascii)
  : option (StringList * string) := sl_read_from [] None 0 false fp delimiter.

(** The records that successive calls of sl_read return until one
    fails, as in [while (!sl_read(sl, stdin, '|'))]: the loop of sl_read
    once more, which after a record goes on as a new call does. *)
Fixpoint sl_read_all_from (v : list (option string)) (p : option string)
  (room : Z) (skip : bool) (fp : string) (delimiter : ascii)
  : list StringList :=
  match fp with
  | EmptyString => []
  | String c fp' =>
      let skip := if room <=? 0 then false else skip in
      let room := if room <=? 0 then BUFFER_SIZE - 1 else room in
      let room' := if Ascii.eqb c newline then 0 else room - 1 in
      if skip then sl_read_all_from v p room' true fp' delimiter
      else if is_nul c then sl_read_all_from v p room' true fp' delimiter
      else if Ascii.eqb c newline then
        mkStringList (sl_append v p)
        :: sl_read_all_from [] None 0 false fp' delimiter
      else if Ascii.eqb c delimiter then
        sl_read_all_from (sl_append v p) None room' false fp' delimiter
      else sl_read_all_from v (push_char p c) room' false fp' delimiter
  end.

Definition sl_read_all (fp : string) (delimiter : ascii) : list StringList :=
  sl_read_all_from [] None 0 false fp delimiter.

End StringLists.
Import StringLists.

(* ====================================================================== *)
(** ** tree.h, as ordered lists *)

Section RBTree.

Context {A : Type} (cmp : A -> A -> comparison).

(** RB_INSERT: [Some y] when an element [y] equal to [x] under [cmp] is
    already present (the tree is left alone), [None] when [x] went in. *)
Fixpoint RB_INSERT (t : list A) (x : A) : option A * list A :=
  match t with
  | [] => (None, [x])
  | y :: t' =>
      match cmp x y with
      | Lt => (None, x :: t)
      | Eq => (Some y, t)
      | Gt => let '(r, t'') := RB_INSERT t' x in (r, y :: t'')
      end
  end.

(** The effect on the tree of the writes the C code makes through a
    pointer to the element that compares equal to [x]. *)
Fixpoint rb_store (t : list A) (x : A) : list A :=
  match t with
  | [] => []
  | y :: t' =>
      match cmp x y with
      | Lt => t
      | Eq => x :: t'
      | Gt => y :: rb_store t' x
      end
  end.

End RBTree.

(** The three-way result of the compare functions: -1, 0, 1. *)
Definition compare_then (c : comparison) (k : comparison) : comparison :=
  match c with Eq => k | _ => c end.

(* ====================================================================== *)
(** ** esig.h *)

Module ESigH.

Definition AUDITREC_RECTYPE : Z := 0.
Definition AUDITREC_DATE : Z := 1.
Definition AUDITREC_TIME : Z := 2.
Definition AUDITREC_USER : Z := 3.
Definition AUDITREC_PID : Z := 4.
Definition AUDITREC_VISIT : Z := 5.
Definition AUDITREC_PLATE : Z := 6.
Definition AUDITREC_FIELDREF : Z := 7.
Definition AUDITREC_UNIQUEID : Z := 8.
Definition AUDITREC_STATUS : Z := 9.
Definition AUDITREC_LEVEL : Z := 10.
Definition AUDITREC_MAXLEVEL : Z := 11.
Definition AUDITREC_OLDVALUE : Z := 14.
Definition AUDITREC_NEWVALUE : Z := 15.
Definition AUDITREC_FIELDPOS : Z := 16.
Definition AUDITREC_FIELDDESC : Z := 17.
Definition AUDITREC_OLDDECODE : Z := 18.
Definition AUDITREC_NEWDECODE : Z := 19.

Inductive signatureStatus : Type := SIG_NONE | SIG_COMPLETE | SIG_INVALIDATED.
Inductive recStatus : Type :=
  RECORD_NORMAL | RECORD_ERROR | RECORD_LOST | RECORD_DELETED.
Inductive changeStatus : Type :=
  CHANGE_NONE | CHANGE_ACCEPTED | CHANGE_DECLINED | CHANGE_DECLINED_ATFINAL.

Definition sig_eqb (a b : signatureStatus) : bool :=
  match a, b with
  | SIG_NONE, SIG_NONE | SIG_COMPLETE, SIG_COMPLETE
  | SIG_INVALIDATED, SIG_INVALIDATED => true
  | _, _ => false
  end.

Definition rec_eqb (a b : recStatus) : bool :=
  match a, b with
  | RECORD_NORMAL, RECORD_NORMAL | RECORD_ERROR, RECORD_ERROR
  | RECORD_LOST, RECORD_LOST | RECORD_DELETED, RECORD_DELETED => true
  | _, _ => false
  end.

Definition change_eqb (a b : changeStatus) : bool :=
  match a, b with
  | CHANGE_NONE, CHANGE_NONE | CHANGE_ACCEPTED, CHANGE_ACCEPTED
  | CHANGE_DECLINED, CHANGE_DECLINED
  | CHANGE_DECLINED_ATFINAL, CHANGE_DECLINED_ATFINAL => true
  | _, _ => false
  end.

Record Status : Type := mkStatus {
  s_signatureStatus : signatureStatus;
  s_recStatus : recStatus;
  s_changeStatus : changeStatus }.

Definition set_sig (s : Status) (x : signatureStatus) : Status :=
  mkStatus x (s_recStatus s) (s_changeStatus s).
Definition set_rec (s : Status) (x : recStatus) : Status :=
  mkStatus (s_signatureStatus s) x (s_changeStatus s).
Definition set_change (s : Status) (x : changeStatus) : Status :=
  mkStatus (s_signatureStatus s) (s_recStatus s) x.

(** [struct esigconf]; the [next] link is the list the records sit in. *)
Record eSigConfig : Type := mkConfig {
  esc_plate : Z;
  esc_ignore_fields : RangeList;
  esc_visits : RangeList;
  esc_sig_plate : Z;
  esc_n_sig_fields : Z;
  esc_sig_fields : RangeList;
  esc_name : option string;
  esc_serial : Z }.

(** esc_alloc, with its static counter [serial] passed in and out. *)
Definition esc_alloc (serial : Z) : eSigConfig * Z :=
  let serial := sint32 (serial + 1) in
  (mkConfig 0 [] [] 0 0 [] None serial, serial).

Record FieldChange : Type := mkFieldChange {
  fc_field : Z;
  fc_status : Status;
  fc_desc : option string;
  fc_old_value : option string;
  fc_new_value : option string;
  fc_who : option string;
  fc_date : option string;
  fc_time : option string;
  fc_comment : option string }.

Record CoveredPlate : Type := mkCoveredPlate {
  cp_plate : Z;
  cp_status : Status;
  cp_is_final : Z;
  cp_field_change_count : Z;
  cp_changes : list FieldChange }.

Record eSigField : Type := mkSigField {
  sf_field : Z;
  sf_completed : bool;
  sf_desc : option string;
  sf_value : option string }.

Definition NODE_FLAG_RECSEEN : Z := 1.

Record eSigNode : Type := mkNode {
  esn_id : Z;
  esn_visit : Z;
  esn_config : eSigConfig;
  esn_status : Status;
  esn_signer : option string;
  esn_date : option string;
  esn_time : option string;
  esn_plates : list CoveredPlate;
  esn_sig_fields : list eSigField;
  esn_flags : Z;
  esn_txn_id : Z }.

End ESigH.
Import ESigH.

(* ====================================================================== *)
(** ** exclusions.h and exclusions.c *)

Module Exclusions.

Record exclusion : Type := mkExclusion {
  ex_plate : Z;
  ex_field : Z;
  ex_user : string;
  ex_date : string }.

(** is_excluded, with the file-level list [exclusions] as an argument. *)
Definition is_excluded (exclusions : list exclusion) (sl : StringList) : bool :=
  let user := sl_value sl AUDITREC_USER in
  let date := sl_value sl AUDITREC_DATE in
  let orig_value := sl_value sl AUDITREC_OLDVALUE in
  let plate := uint32 (atoi (sl_value sl AUDITREC_PLATE)) in
  let field := atoi (sl_value sl AUDITREC_FIELDPOS) in
  existsb (fun e =>
             (ex_plate e =? plate) && (ex_field e =? field) &&
             streq (ex_user e) user && streq (ex_date e) date &&
             streq orig_value "") exclusions.

End Exclusions.
Import Exclusions.

(* ====================================================================== *)
(** ** esig.c *)

Module ESig.

Definition fc_compare (a b : FieldChange) : comparison :=
  fc_field a ?= fc_field b.

Definition cp_compare (a b : CoveredPlate) : comparison :=
  cp_plate a ?= cp_plate b.

Definition esn_compare (a b : eSigNode) : comparison :=
  compare_then (esn_id a ?= esn_id b)
 (compare_then (esn_visit a ?= esn_visit b)
 (compare_then (esc_sig_plate (esn_config a) ?= esc_sig_plate (esn_config b))
    (sint32 (rl_min (esc_sig_fields (esn_config a)))
       ?= sint32 (rl_min (esc_sig_fields (esn_config b)))))).

Definition fc_alloc (field : Z) : FieldChange :=
  mkFieldChange field (mkStatus SIG_NONE RECORD_NORMAL CHANGE_ACCEPTED)
    None None None None None None None.

Definition cp_alloc (plate : Z) : CoveredPlate :=
  mkCoveredPlate plate (mkStatus SIG_NONE RECORD_NORMAL CHANGE_NONE) 0 0 [].

Definition cp_free_changes (n : CoveredPlate) : CoveredPlate :=
  mkCoveredPlate (cp_plate n) (cp_status n) (cp_is_final n)
    (cp_field_change_count n) [].

Definition cp_set_status (n : CoveredPlate) (s : Status) : CoveredPlate :=
  mkCoveredPlate (cp_plate n) s (cp_is_final n) (cp_field_change_count n)
    (cp_changes n).

Definition cp_set_is_final (n : CoveredPlate) (f : Z) : CoveredPlate :=
  mkCoveredPlate (cp_plate n) (cp_status n) f (cp_field_change_count n)
    (cp_changes n).

Definition cp_set_changes (n : CoveredPlate) (c : list FieldChange)
  : CoveredPlate :=
  mkCoveredPlate (cp_plate n) (cp_status n) (cp_is_final n)
    (cp_field_change_count n) c.

Definition esn_alloc (id visit : Z) (config : eSigConfig) : eSigNode :=
  mkNode id visit config (mkStatus SIG_NONE RECORD_NORMAL CHANGE_NONE)
    None None None [] [] 0 0.

Definition esn_set_status (n : eSigNode) (s : Status) : eSigNode :=
  mkNode (esn_id n) (esn_visit n) (esn_config n) s (esn_signer n)
    (esn_date n) (esn_time n) (esn_plates n) (esn_sig_fields n)
    (esn_flags n) (esn_txn_id n).

Definition esn_set_plates (n : eSigNode) (p : list CoveredPlate) : eSigNode :=
  mkNode (esn_id n) (esn_visit n) (esn_config n) (esn_status n)
    (esn_signer n) (esn_date n) (esn_time n) p (esn_sig_fields n)
    (esn_flags n) (esn_txn_id n).

Definition esn_set_sig_fields (n : eSigNode) (a : list eSigField) : eSigNode :=
  mkNode (esn_id n) (esn_visit n) (esn_config n) (esn_status n)
    (esn_signer n) (esn_date n) (esn_time n) (esn_plates n) a
    (esn_flags n) (esn_txn_id n).

Definition esn_set_txn_id (n : eSigNode) (t : Z) : eSigNode :=
  mkNode (esn_id n) (esn_visit n) (esn_config n) (esn_status n)
    (esn_signer n) (esn_date n) (esn_time n) (esn_plates n)
    (esn_sig_fields n) (esn_flags n) t.

Definition esn_set_who (n : eSigNode) (signer date time : option string)
  : eSigNode :=
  mkNode (esn_id n) (esn_visit n) (esn_config n) (esn_status n)
    signer date time (esn_plates n) (esn_sig_fields n) (esn_flags n)
    (esn_txn_id n).

Definition esn_sig_rec_seen (n : eSigNode) : eSigNode :=
  mkNode (esn_id n) (esn_visit n) (esn_config n) (esn_status n)
    (esn_signer n) (esn_date n) (esn_time n) (esn_plates n)
    (esn_sig_fields n) (Z.lor (esn_flags n) NODE_FLAG_RECSEEN) (esn_txn_id n).

Definition esn_was_sig_rec_seen (n : eSigNode) : Z :=
  Z.land (esn_flags n) NODE_FLAG_RECSEEN.

(** The values [v = rl->min; v <= rl->max; v++] of one element. *)
Definition range_values (e : range) : list Z :=
  map (fun k => rmin e + Z.of_nat k) (seq 0 (Z.to_nat (rmax e - rmin e + 1))).

Definition rl_values (l : RangeList) : list Z := flat_map range_values l.

(** The array handed out by [calloc(n_sig_fields, sizeof(eSigField))]. *)
Definition calloc_sig_fields (n : Z) : list eSigField :=
  repeat (mkSigField 0 false None None) (Z.to_nat n).

(** The writes [n->sig_fields[i] = ...; i++] for the enumerated values;
    the array bounds the writes that the embedding keeps. *)
Fixpoint fill_sig_fields (a : list eSigField) (vals : list Z)
  : list eSigField :=
  match a, vals with
  | _ :: a', v :: vals' => mkSigField v false None None :: fill_sig_fields a' vals'
  | _, _ => a
  end.

Definition esn_alloc_sigfields (n : eSigNode) : eSigNode :=
  match esn_sig_fields n with
  | _ :: _ => n
  | [] =>
      esn_set_sig_fields n
        (fill_sig_fields (calloc_sig_fields (esc_n_sig_fields (esn_config n)))
           (rl_values (esc_sig_fields (esn_config n))))
  end.

Definition decode_value (sl : StringList) (valuepos decodepos : Z) : string :=
  let value := sl_value sl valuepos in
  let decode := sl_value sl decodepos in
  if negb (String.eqb (cstr decode) "") then value ++ "=" ++ decode
  else value.

Definition free_signed_plate (cp : CoveredPlate) : CoveredPlate :=
  let cp := cp_free_changes cp in
  let cp := cp_set_status cp (set_rec (cp_status cp) RECORD_NORMAL) in
  cp_set_status cp (set_change (cp_status cp) CHANGE_NONE).

Definition esn_free_signed_values (n : eSigNode) (txn_id : Z) : eSigNode :=
  if negb (esn_txn_id n =? txn_id) then n
  else esn_set_plates n (map free_signed_plate (esn_plates n)).

(** The loop of esn_sign over [i < n_sig_fields] ([cnt] iterations left):
    the array afterwards and the number of completed entries seen. *)
Fixpoint sign_loop (cnt : nat) (a : list eSigField) (field : Z)
  (desc value : string) : list eSigField * Z :=
  match cnt, a with
  | S k, sf :: a' =>
      let sf' := if sf_field sf =? field
                 then mkSigField (sf_field sf) true (Some desc) (Some value)
                 else sf in
      let '(a'', completed) := sign_loop k a' field desc value in
      (sf' :: a'', (if sf_completed sf' then 1 else 0) + completed)
  | _, _ => (a, 0)
  end.

Definition esn_sign (n : eSigNode) (sl : StringList) (field txn_id : Z)
  : eSigNode :=
  let '(a, completed) :=
    sign_loop (Z.to_nat (esc_n_sig_fields (esn_config n))) (esn_sig_fields n)
      field (sl_value sl AUDITREC_FIELDDESC) (sl_value sl AUDITREC_NEWVALUE) in
  let n := esn_set_sig_fields n a in
  if negb (completed =? esc_n_sig_fields (esn_config n)) then n
  else
    let n := esn_set_status n (set_sig (esn_status n) SIG_COMPLETE) in
    let n := esn_set_txn_id n txn_id in
    esn_set_who n (Some (sl_value sl AUDITREC_USER))
      (Some (sl_value sl AUDITREC_DATE)) (Some (sl_value sl AUDITREC_TIME)).

(** The loop of esn_unsign over [i < n_sig_fields]. *)
Fixpoint unsign_loop (cnt : nat) (a : list eSigField) (field : Z)
  : list eSigField :=
  match cnt, a with
  | S k, sf :: a' =>
      (if sf_field sf =? field
       then mkSigField (sf_field sf) false (sf_desc sf) (Some "")
       else sf) :: unsign_loop k a' field
  | _, _ => a
  end.

Definition esn_unsign (n : eSigNode) (field : Z) : eSigNode :=
  let n := esn_set_sig_fields n
             (unsign_loop (Z.to_nat (esc_n_sig_fields (esn_config n)))
                (esn_sig_fields n) field) in
  let n := if sig_eqb (s_signatureStatus (esn_status n)) SIG_COMPLETE
           then esn_set_status n (set_sig (esn_status n) SIG_INVALIDATED)
           else n in
  esn_set_txn_id n 0.

Definition fc_set_status (f : FieldChange) (s : Status) : FieldChange :=
  mkFieldChange (fc_field f) s (fc_desc f) (fc_old_value f) (fc_new_value f)
    (fc_who f) (fc_date f) (fc_time f) (fc_comment f).

Definition fc_set_old_value (f : FieldChange) (v : option string)
  : FieldChange :=
  mkFieldChange (fc_field f) (fc_status f) (fc_desc f) v (fc_new_value f)
    (fc_who f) (fc_date f) (fc_time f) (fc_comment f).

Definition fc_set_comment (f : FieldChange) (c : option string)
  : FieldChange :=
  mkFieldChange (fc_field f) (fc_status f) (fc_desc f) (fc_old_value f)
    (fc_new_value f) (fc_who f) (fc_date f) (fc_time f) c.

(** The five update_string calls "Update field values". *)
Definition fc_update_values (f : FieldChange) (who date time desc new_value
  : string) : FieldChange :=
  mkFieldChange (fc_field f) (fc_status f) (Some desc) (fc_old_value f)
    (Some new_value) (Some who) (Some date) (Some time) (fc_comment f).

(** The record-level part of esn_datachange: everything done to the
    covered plate [cp] up to the test on the transaction id. *)
Definition datachange_record (n : eSigNode) (cp : CoveredPlate)
  (rec_status rec_level : Z) : CoveredPlate :=
  let signed := negb (sig_eqb (s_signatureStatus (esn_status n)) SIG_NONE) in
  let decline (cp : CoveredPlate) :=
    if signed then cp_set_status cp (set_change (cp_status cp) CHANGE_DECLINED)
    else cp in
  let cp := cp_set_status cp (set_rec (cp_status cp) RECORD_NORMAL) in
  let cp := if (rec_status =? 0) || (rec_status =? 1)
            then cp_set_is_final cp 1 else cp_set_is_final cp 0 in
  let cp := if (rec_status =? 3) && (rec_level =? 7) then
              let cp := decline cp in
              cp_set_status cp (set_rec (cp_status cp) RECORD_ERROR)
            else cp in
  let cp := if rec_status =? 7 then
              let cp := decline cp in
              let cp := cp_set_status cp (set_rec (cp_status cp) RECORD_DELETED) in
              cp_free_changes cp
            else cp in
  if rec_status =? 0 then
    let cp := decline cp in
    let cp := cp_set_status cp (set_rec (cp_status cp) RECORD_LOST) in
    cp_free_changes cp
  else cp.

(** The field-level part of esn_datachange, on the covered plate. *)
Definition datachange_field (exclusions : list exclusion) (cp : CoveredPlate)
  (sl : StringList) (field : Z) : CoveredPlate :=
  let fc := fc_alloc field in
  let '(fc0, changes) := RB_INSERT fc_compare (cp_changes cp) fc in
  let fc := match fc0 with
            | Some f => f
            | None =>
                fc_set_old_value fc
                  (Some (decode_value sl AUDITREC_OLDVALUE AUDITREC_OLDDECODE))
            end in
  let fc := fc_update_values fc (sl_value sl AUDITREC_USER)
              (sl_value sl AUDITREC_DATE) (sl_value sl AUDITREC_TIME)
              (sl_value sl AUDITREC_FIELDDESC)
              (decode_value sl AUDITREC_NEWVALUE AUDITREC_NEWDECODE) in
  let is_new := match fc0 with None => true | Some _ => false end in
  let fc := if is_new && is_excluded exclusions sl then
              fc_set_status (fc_set_comment fc (Some "Administratively exempted"))
                (set_change (fc_status fc) CHANGE_ACCEPTED)
            else
              fc_set_status (fc_set_comment fc None)
                (set_change (fc_status fc) CHANGE_DECLINED) in
  cp_set_changes cp (rb_store fc_compare changes fc).

Definition esn_datachange (exclusions : list exclusion) (n : eSigNode)
  (sl : StringList) (plate field txn_id : Z) : eSigNode :=
  let cp := cp_alloc plate in
  let '(cp0, plates) := RB_INSERT cp_compare (esn_plates n) cp in
  let cp := match cp0 with Some c => c | None => cp end in
  let rec_status := atoi (sl_value sl AUDITREC_STATUS) in
  let rec_level := atoi (sl_value sl AUDITREC_LEVEL) in
  let cp := datachange_record n cp rec_status rec_level in
  let cp := if txn_id =? esn_txn_id n then cp
            else if field <? 7 then cp
            else datachange_field exclusions cp sl field in
  esn_set_plates n (rb_store cp_compare plates cp).

End ESig.
Import ESig.

(* ====================================================================== *)
(** ** grammar.y: the semantic actions *)

Module Grammar.

(** [visit_range : '*'] *)
Definition visit_range_star : RangeList := rl_addtofront [] 0 65535.

(** [range_element : number '-' number] and [range_element : number] *)
Definition range_element_pair (n1 n3 : Z) : RangeList := rl_addtofront [] n1 n3.
Definition range_element_single (n1 : Z) : RangeList := rl_addtofront [] n1 n1.

(** [range : range ',' range_element]: [$3->next = $1; $$ = $3]. *)
Definition range_cons (r1 r3 : RangeList) : RangeList :=
  match r3 with
  | e :: _ => e :: r1
  | [] => r1
  end.

(** [sig_config]: the header record and the new value of the counter of
    esc_alloc. *)
Definition sig_config (serial : Z) (name : string) (number : Z)
  (visit_range range : RangeList) : eSigConfig * Z :=
  let '(e, serial) := esc_alloc serial in
  (mkConfig (esc_plate e) (esc_ignore_fields e) visit_range (uint32 number)
     (sint32 (rl_width range)) range (Some name) (esc_serial e), serial).

(** [plate_defn : TOK_PLATE number ignore_fields ';'] *)
Definition plate_defn (serial : Z) (number : Z) (ignore_fields : RangeList)
  : eSigConfig * Z :=
  let '(e, serial) := esc_alloc serial in
  (mkConfig (uint32 number) ignore_fields (esc_visits e) (esc_sig_plate e)
     (esc_n_sig_fields e) (esc_sig_fields e) (esc_name e) (esc_serial e),
   serial).

(** [plate_config : plate_config plate_defn]: the new record goes in
    front, [$2->next = $$; $$ = $2]. *)
Fixpoint plate_config (serial : Z) (defns : list (Z * RangeList))
  (acc : list eSigConfig) : list eSigConfig * Z :=
  match defns with
  | [] => (acc, serial)
  | (number, ignore_fields) :: defns' =>
      let '(e, serial) := plate_defn serial number ignore_fields in
      plate_config serial defns' (e :: acc)
  end.

(** [signature : sig_config '{' plate_config '}']: the header is copied
    into each plate record. *)
Definition signature_copy (h e : eSigConfig) : eSigConfig :=
  mkConfig (esc_plate e) (esc_ignore_fields e) (rl_dup (esc_visits h))
    (esc_sig_plate h) (esc_n_sig_fields h) (rl_dup (esc_sig_fields h))
    (esc_name h) (esc_serial e).

(** One whole [signature] block, its reductions in the order the parser
    makes them. *)
Definition signature (serial : Z) (name : string) (number : Z)
  (visit_range range : RangeList) (defns : list (Z * RangeList))
  : list eSigConfig * Z :=
  let '(h, serial) := sig_config serial name number visit_range range in
  let '(es, serial) := plate_config serial defns [] in
  (map (signature_copy h) es, serial).

(** [config : config signature]: the block is linked behind the list. *)
Definition config (c : list eSigConfig) (s : list eSigConfig)
  : list eSigConfig := (c ++ s)%list.

End Grammar.
Import Grammar.

(* ====================================================================== *)
(** ** db.c: the calls that reach SQLite *)

Module DB.

(** db.c is embedded up to its calls into SQLite.  What happens there
    (prepare, bind and step, each of which can fail and end the
    function, and the rows that [insert or replace] leaves in the tables)
    is not modelled; kept is that the function got as far as SQLite, with
    the arguments it was called with. *)
Inductive db_attempt : Type :=
| SigningAttempt (n : eSigNode) (txn_id : Z)
| DataValueAttempt (n : eSigNode) (plate field : Z) (fdesc fvalue : string).

(** The handle [sqlite3 *db]: [None] is the NULL handle, otherwise the
    attempts made on the open database so far. *)
Definition sqlite3 : Type := option (list db_attempt).

(** db_write_signature up to [sqlite3_prepare_v2]: "If no DB, return" and
    "Is this our signing transaction?". *)
Definition db_write_signature (db : sqlite3) (n : eSigNode) (txn_id : Z)
  : sqlite3 :=
  match db with
  | None => None
  | Some attempts =>
      if negb (esn_txn_id n =? txn_id) then db
      else Some (attempts ++ [SigningAttempt n txn_id])%list
  end.

(** db_update_signature_value up to [sqlite3_prepare_v2]. *)
Definition db_update_signature_value (db : sqlite3) (n : eSigNode)
  (plate field : Z) (sl : StringList) : sqlite3 :=
  match db with
  | None => None
  | Some attempts =>
      let s := decode_value sl AUDITREC_NEWVALUE AUDITREC_NEWDECODE in
      Some (attempts
            ++ [DataValueAttempt n plate field
                  (sl_value sl AUDITREC_FIELDDESC) s])%list
  end.

End DB.
Import DB.

(* ====================================================================== *)
(** ** main.c *)

Module Main.

(** The variables process_input keeps across audit records, with the
    tree and the database it is given. *)
Record input_state : Type := mkInput {
  in_tree : list eSigNode;
  in_db : sqlite3;
  in_txn_id : Z;
  in_last_txn : string }.

(** [if (atoi(sl_value(sl, AUDITREC_FIELDREF))) continue;] and
    [if ((field > 2) && (field <= 7)) continue;] *)
Definition skipped (sl : StringList) : bool :=
  negb (atoi (sl_value sl AUDITREC_FIELDREF) =? 0) ||
  (let field := atoi (sl_value sl AUDITREC_FIELDPOS) in
   (field >? 2) && (field <=? 7)).

Definition rec_id (sl : StringList) : Z := uint64 (atoll (sl_value sl AUDITREC_PID)).
Definition rec_visit (sl : StringList) : Z := uint32 (atoi (sl_value sl AUDITREC_VISIT)).
Definition rec_plate (sl : StringList) : Z := uint32 (atoi (sl_value sl AUDITREC_PLATE)).

(** The buffer [txn] after
    [snprintf(txn, sizeof(txn), "%s|%s|%s|%lld|%d|%d", ...)]. *)
Definition txn_key (sl : StringList) : string :=
  snprintf 128
    (sl_value sl AUDITREC_DATE ++ "|" ++ sl_value sl AUDITREC_TIME ++ "|" ++
     sl_value sl AUDITREC_USER ++ "|" ++ fmt_lld (sint64 (rec_id sl)) ++ "|" ++
     fmt_d (sint32 (rec_visit sl)) ++ "|" ++ fmt_d (sint32 (rec_plate sl))).

(** [if (strcmp(txn, last_txn) != 0) { txn_id++; strncpy(...); }] *)
Definition group_txn (txn_id : Z) (last_txn : string) (txn : string)
  : Z * string :=
  if negb (streq txn last_txn) then (uint64 (txn_id + 1), txn)
  else (txn_id, last_txn).

(** "If this config doesn't apply, continue to next" *)
Definition config_applies (esc : eSigConfig) (plate visit field : Z) : bool :=
  negb (negb (esc_plate esc =? plate) ||
        negb (rl_contains (esc_visits esc) visit) ||
        rl_contains (esc_ignore_fields esc) field).

(** The body of the loop over the configuration records, for one that
    applies. *)
Definition dispatch (exclusions : list exclusion) (esc : eSigConfig)
  (sl : StringList) (id visit plate field rec_status txn_id : Z)
  (tree : list eSigNode) (db : sqlite3) : list eSigNode * sqlite3 :=
  let esn := esn_alloc id visit esc in
  let '(esn0, tree) := RB_INSERT esn_compare tree esn in
  let esn := match esn0 with
             | Some e => e
             | None => esn_alloc_sigfields esn
             end in
  let esn := if (plate =? esc_sig_plate esc) && negb (rec_status =? 0)
             then esn_sig_rec_seen esn else esn in
  if (plate =? esc_sig_plate esc) && rl_contains (esc_sig_fields esc) field
  then
    let nvalue := sl_value sl AUDITREC_NEWVALUE in
    if negb (String.eqb (cstr nvalue) "") then
      let esn := esn_sign esn sl field txn_id in
      let db := db_write_signature db esn txn_id in
      let esn := esn_free_signed_values esn txn_id in
      (rb_store esn_compare tree esn, db)
    else (rb_store esn_compare tree (esn_unsign esn field), db)
  else
    let esn := esn_datachange exclusions esn sl plate field txn_id in
    let db := if esn_txn_id esn =? txn_id
              then db_update_signature_value db esn plate field sl else db in
    (rb_store esn_compare tree esn, db).

Fixpoint config_loop (exclusions : list exclusion) (escs : list eSigConfig)
  (sl : StringList) (id visit plate field rec_status txn_id : Z)
  (tree : list eSigNode) (db : sqlite3) : list eSigNode * sqlite3 :=
  match escs with
  | [] => (tree, db)
  | esc :: escs' =>
      let '(tree, db) :=
        if config_applies esc plate visit field
        then dispatch exclusions esc sl id visit plate field rec_status txn_id
               tree db
        else (tree, db) in
      config_loop exclusions escs' sl id visit plate field rec_status txn_id
        tree db
  end.

(** One turn of the [while] loop of process_input, on the record [sl]
    that sl_read returned. *)
Definition process_record (esc_config_head : list eSigConfig)
  (exclusions : list exclusion) (st : input_state) (sl : StringList)
  : input_state :=
  if skipped sl then st
  else
    let field := atoi (sl_value sl AUDITREC_FIELDPOS) in
    let rec_status := atoi (sl_value sl AUDITREC_STATUS) in
    let id := rec_id sl in
    let visit := rec_visit sl in
    let plate := rec_plate sl in
    let txn := txn_key sl in
    let '(txn_id, last_txn) := group_txn (in_txn_id st) (in_last_txn st) txn in
    let '(tree, db) :=
      config_loop exclusions esc_config_head sl id visit plate field
        rec_status txn_id (in_tree st) (in_db st) in
    mkInput tree db txn_id last_txn.

Definition process_records (esc_config_head : list eSigConfig)
  (exclusions : list exclusion) (st : input_state) (sls : list StringList)
  : input_state :=
  fold_left (process_record esc_config_head exclusions) sls st.

(** process_input on the tree and database handle it is given and the
    text [stdin] still to be read. *)
Definition process_input (esc_config_head : list eSigConfig)
  (exclusions : list exclusion) (tree : list eSigNode) (db : sqlite3)
  (stdin : string) : input_state :=
  process_records esc_config_head exclusions (mkInput tree db 0 "")
    (sl_read_all stdin "|").

(** The test of write_drf on one node. *)
Definition drf_selected (esn : eSigNode) : bool :=
  sig_eqb (s_signatureStatus (esn_status esn)) SIG_INVALIDATED ||
  (sig_eqb (s_signatureStatus (esn_status esn)) SIG_COMPLETE &&
   rec_eqb (s_recStatus (esn_status esn)) RECORD_NORMAL &&
   change_eqb (s_changeStatus (esn_status esn)) CHANGE_DECLINED).

(** [fprintf(fp, "%lld|%d|%d\n", esn->id, esn->visit, config->sig_plate)] *)
Definition drf_line (esn : eSigNode) : string :=
  fmt_lld (sint64 (esn_id esn)) ++ "|" ++ fmt_d (sint32 (esn_visit esn)) ++ "|"
  ++ fmt_d (sint32 (esc_sig_plate (esn_config esn))) ++ String newline "".

(** What one turn of the RB_FOREACH of write_drf prints. *)
Definition drf_emit (esn : eSigNode) : list string :=
  if drf_selected esn then [drf_line esn] else [].

Definition drf_lines (tree : list eSigNode) : list string :=
  flat_map drf_emit tree.

(** write_drf: the return value and, when the file could be opened
    ([fopen_ok]), what was written to it. *)
Definition write_drf (fopen_ok : bool) (tree : list eSigNode)
  : Z * option string :=
  if negb fopen_ok then (-1, None)
  else (0, Some (String.concat "" (drf_lines tree))).


End Main.
Import Main.

(* ====================================================================== *)
(** ** stringlist.c: printing *)

Module StringListPrint.

(** sl_print: the bytes written to standard output, [%s%c] for each entry
    ([%s] stops at a NUL) and a newline at the end. *)
Fixpoint sl_print_from (sl : StringList) (i : Z) (cnt : nat) (delimiter : ascii)
  : string :=
  match cnt with
  | O => String newline ""
  | S k =>
      cstr (sl_value sl i)
      ++ String delimiter (sl_print_from sl (i + 1) k delimiter)
  end.

Definition sl_print (sl : StringList) (delimiter : ascii) : string :=
  sl_print_from sl 0 (List.length (sl_v sl)) delimiter.

End StringListPrint.
Import StringListPrint.

(* ====================================================================== *)
(** ** esig.c: evaluate_tree and esn_get_state *)

Module Propagate.

(** The numbers of the enumeration [changeStatus], which the comparisons
    of evaluate_tree are made on. *)
Definition change_rank (c : changeStatus) : Z :=
  match c with
  | CHANGE_NONE => 0
  | CHANGE_ACCEPTED => 1
  | CHANGE_DECLINED => 2
  | CHANGE_DECLINED_ATFINAL => 3
  end.

Definition cp_set_count (n : CoveredPlate) (c : Z) : CoveredPlate :=
  mkCoveredPlate (cp_plate n) (cp_status n) (cp_is_final n) c (cp_changes n).

(** What one turn of the innermost loop does to the field change. *)
Definition evaluate_field (allow_signer_changes resign_at_final : Z)
  (signer : option string) (cp : CoveredPlate) (fc : FieldChange)
  : FieldChange :=
  let fc := if negb (resign_at_final =? 0) && (cp_is_final cp =? 0) &&
               change_eqb (s_changeStatus (fc_status fc)) CHANGE_DECLINED
            then fc_set_status fc (set_change (fc_status fc) CHANGE_DECLINED_ATFINAL)
            else fc in
  let fc := fc_set_status fc (set_rec (fc_status fc) (s_recStatus (cp_status cp))) in
  let fc := fc_set_status fc
              (set_sig (fc_status fc) (s_signatureStatus (cp_status cp))) in
  match fc_who fc, signer with
  | Some who, Some s =>
      if negb (allow_signer_changes =? 0) && streq who s then
        fc_set_status (fc_set_comment fc (Some "Changed by Signer"))
          (set_change (fc_status fc) CHANGE_ACCEPTED)
      else fc
  | _, _ => fc
  end.

(** The innermost loop, over the field changes of a covered plate: the
    plate and the field changes afterwards. *)
Fixpoint evaluate_fields (allow_signer_changes resign_at_final : Z)
  (signer : option string) (cp : CoveredPlate) (fcs : list FieldChange)
  : CoveredPlate * list FieldChange :=
  match fcs with
  | [] => (cp, [])
  | fc :: fcs' =>
      let cp := cp_set_count cp (sint32 (cp_field_change_count cp + 1)) in
      let fc := evaluate_field allow_signer_changes resign_at_final signer cp fc in
      let cp := if change_rank (s_changeStatus (fc_status fc))
                   >? change_rank (s_changeStatus (cp_status cp))
                then cp_set_status cp
                       (set_change (cp_status cp) (s_changeStatus (fc_status fc)))
                else cp in
      let '(cp, fcs'') :=
        evaluate_fields allow_signer_changes resign_at_final signer cp fcs' in
      (cp, fc :: fcs'')
  end.

(** One turn of the loop over the covered plates, up to the propagation
    to the node. *)
Definition evaluate_plate (allow_signer_changes resign_at_final : Z)
  (sig : signatureStatus) (signer : option string) (cp : CoveredPlate)
  : CoveredPlate :=
  let cp := cp_set_status cp (set_sig (cp_status cp) sig) in
  let cp := cp_set_count cp 0 in
  let '(cp, fcs) :=
    evaluate_fields allow_signer_changes resign_at_final signer cp
      (cp_changes cp) in
  cp_set_changes cp fcs.

(** The loop over the covered plates: the status of the node and the
    plates afterwards. *)
Fixpoint evaluate_plates (allow_signer_changes resign_at_final : Z)
  (sig_plate : Z) (signer : option string) (status : Status)
  (cps : list CoveredPlate) : Status * list CoveredPlate :=
  match cps with
  | [] => (status, [])
  | cp :: cps' =>
      let cp := evaluate_plate allow_signer_changes resign_at_final
                  (s_signatureStatus status) signer cp in
      let status := if sig_plate =? cp_plate cp
                    then set_rec status (s_recStatus (cp_status cp))
                    else status in
      let status := if change_rank (s_changeStatus (cp_status cp))
                       >? change_rank (s_changeStatus status)
                    then set_change status (s_changeStatus (cp_status cp))
                    else status in
      let '(status, cps'') :=
        evaluate_plates allow_signer_changes resign_at_final sig_plate signer
          status cps' in
      (status, cp :: cps'')
  end.

(** One turn of the outer loop, on one node. *)
Definition evaluate_node (allow_signer_changes resign_at_final : Z)
  (esn : eSigNode) : eSigNode :=
  let status := set_change (esn_status esn) CHANGE_NONE in
  let '(status, cps) :=
    evaluate_plates allow_signer_changes resign_at_final
      (esc_sig_plate (esn_config esn)) (esn_signer esn) status (esn_plates esn) in
  esn_set_plates (esn_set_status esn status) cps.

Definition evaluate_tree (tree : list eSigNode)
  (allow_signer_changes resign_at_final : Z) : list eSigNode :=
  map (evaluate_node allow_signer_changes resign_at_final) tree.

(** esn_get_state on the status of a node. *)
Definition esn_get_state (n : eSigNode) (sdv_mode : Z) : string :=
  let st := esn_status n in
  if negb (sdv_mode =? 0) then
    match s_signatureStatus st with
    | SIG_NONE =>
        match s_recStatus st with
        | RECORD_NORMAL => "NEVER VERIFIED"
        | RECORD_ERROR => "NEVER VERIFIED (ERROR REC)"
        | RECORD_LOST => "NEVER VERIFIED (LOST REC)"
        | RECORD_DELETED => "NEVER VERIFIED (DELETED REC)"
        end
    | SIG_INVALIDATED =>
        match s_recStatus st with
        | RECORD_NORMAL => "RE-VERIFICATION REQD"
        | RECORD_ERROR => "RE-VERIFICATION REQD (ERROR REC)"
        | RECORD_LOST => "RE-VERIFICATION REQD (LOST REC)"
        | RECORD_DELETED => "RE-VERIFICATION REQD (DELETED REC)"
        end
    | SIG_COMPLETE =>
        match s_recStatus st with
        | RECORD_NORMAL =>
            match s_changeStatus st with
            | CHANGE_NONE => "SDV OK"
            | CHANGE_ACCEPTED => "ADMIN EXEMPTED RE-VERIFICATION"
            | CHANGE_DECLINED_ATFINAL => "RE-VERIFICATION REQD WHEN FINAL"
            | CHANGE_DECLINED => "RE-VERIFICATION REQD"
            end
        | RECORD_ERROR => "SDV OK (ERROR REC)"
        | RECORD_LOST => "SDV OK (LOST REC)"
        | RECORD_DELETED => "SDV OK (DELETED REC)"
        end
    end
  else
    match s_signatureStatus st with
    | SIG_NONE =>
        match s_recStatus st with
        | RECORD_NORMAL => "NEVER SIGNED"
        | RECORD_ERROR => "UNSIGNED ERROR RECORD"
        | RECORD_LOST => "UNSIGNED LOST RECORD"
        | RECORD_DELETED => "UNSIGNED DELETED RECORD"
        end
    | SIG_INVALIDATED =>
        match s_recStatus st with
        | RECORD_NORMAL => "SIGNATURE REMOVED"
        | RECORD_ERROR => "SIG. REMOVED, ERROR RECORD"
        | RECORD_LOST => "SIG. REMOVED, LOST RECORD"
        | RECORD_DELETED => "SIG. REMOVED, DELETED RECORD"
        end
    | SIG_COMPLETE =>
        match s_recStatus st with
        | RECORD_NORMAL =>
            match s_changeStatus st with
            | CHANGE_NONE => "SIGNATURE OK"
            | CHANGE_ACCEPTED => "ADMIN EXEMPTED RE-SIGN"
            | CHANGE_DECLINED_ATFINAL => "RE-SIGN REQD WHEN FINAL"
            | CHANGE_DECLINED => "RE-SIGN REQD"
            end
        | RECORD_ERROR => "SIGNED IN ERROR"
        | RECORD_LOST => "SIGNED, MARKED LOST"
        | RECORD_DELETED => "DELETED SIGNED RECORDS"
        end
    end.

End Propagate.
Import Propagate.

(* ====================================================================== *)
(** ** exclusions.c: load_exclusions *)

Module ExclusionsLoad.

(** The copy loop that removes slashes and carriage returns from the
    date column, on the characters in front of the NUL. *)
Fixpoint strip_date (date : string) : string :=
  match date with
  | EmptyString => EmptyString
  | String c rest =>
      if Ascii.eqb c "/" || Ascii.eqb c "013" then strip_date rest
      else String c (strip_date rest)
  end.

(** [strncmp(date, "20", 2) == 0] *)
Definition starts_20 (date : string) : bool :=
  match date with
  | String "2" (String "0" _) => true
  | _ => false
  end.

(** One turn of the loop of load_exclusions: the entry linked to the
    list, or [None] where the loop goes on with [continue]. *)
Definition load_exclusion_row (sl : StringList) : option exclusion :=
  if sl_n sl <? 4 then None
  else
    let plate := uint32 (atoi (sl_value sl 0)) in
    let field := atoi (sl_value sl 1) in
    let user := sl_value sl 2 in
    let date := sl_value sl 3 in
    if negb (negb (plate =? 0) && negb (field =? 0) &&
             negb (String.eqb (cstr user) "") && negb (String.eqb (cstr date) ""))
    then None
    else
      let date := strip_date (cstr date) in
      if negb (Z.of_nat (String.length date) =? 8) || negb (starts_20 date)
      then None
      else Some (mkExclusion plate field (cstr user) date).

(** load_exclusions on the list [exclusions] kept so far and the content
    of the file, [None] when there is no path or the file cannot be
    opened: the return value and the list afterwards. *)
Definition load_exclusions (exclusions : list exclusion) (file : option string)
  : Z * list exclusion :=
  match file with
  | None => (-1, exclusions)
  | Some fp =>
      (0, (exclusions
           ++ flat_map (fun sl => match load_exclusion_row sl with
                                  | Some e => [e]
                                  | None => []
                                  end)
                (sl_read_all fp "|"))%list)
  end.

End ExclusionsLoad.
Import ExclusionsLoad.

(* ====================================================================== *)
(** ** centers.h and centers.c: the lookups *)

Module Centers.

Record center : Type := mkCenter {
  c_number : Z;
  c_is_error_monitor : Z;
  c_contact : option string;
  c_affiliation : option string;
  c_address : option string;
  c_primary_fax : option string;
  c_secondary_fax : option string;
  c_phone : option string;
  c_investigator : option string;
  c_investigator_phone : option string;
  c_reply_address : option string;
  c_pids : RangeList }.

Record country : Type := mkCountry {
  co_name : string;
  co_region : string;
  co_centers : RangeList }.

(** The loop of find_center with its variable [errmon]; [id] is the
    patient number as the long long that rl_contains receives. *)
Fixpoint find_center_from (errmon : option center) (centers : list center)
  (id : Z) : Z :=
  match centers with
  | [] => match errmon with Some e => c_number e | None => 0 end
  | cntr :: rest =>
      if rl_contains (c_pids cntr) id then c_number cntr
      else find_center_from
             (if negb (c_is_error_monitor cntr =? 0) then Some cntr else errmon)
             rest id
  end.

Definition find_center (centers : list center) (id : Z) : Z :=
  find_center_from None centers (sint64 id).

Fixpoint find_country (countries : list country) (centerid : Z) : string :=
  match countries with
  | [] => "Unknown"
  | cntry :: rest =>
      if rl_contains (co_centers cntry) centerid then co_name cntry
      else find_country rest centerid
  end.

Fixpoint find_region (countries : list country) (centerid : Z) : string :=
  match countries with
  | [] => "Unknown"
  | cntry :: rest =>
      if rl_contains (co_centers cntry) centerid then co_region cntry
      else find_region rest centerid
  end.

(** One turn of the loop of load_countries: the entry is linked whether
    or not rl_fromstring reports an error. *)
Definition load_country_row (sl : StringList) : country :=
  mkCountry (cstr (sl_value sl 0)) (cstr (sl_value sl 1))
    (snd (rl_fromstring [] (sl_value sl 2))).

Definition load_countries (file : option string) : Z * list country :=
  match file with
  | None => (-1, [])
  | Some fp => (0, map load_country_row (sl_read_all fp "|"))
  end.

End Centers.
Import Centers.

(* ====================================================================== *)
(** ** xls.c: colours and the rows of a node *)

Module Xls.

Definition CELL_COLOR_WHITE : Z := 0.
Definition CELL_COLOR_LTRED : Z := 1.
Definition CELL_COLOR_LTGREEN : Z := 2.
Definition CELL_COLOR_LTPURPLE : Z := 3.
Definition CELL_COLOR_LTYELLOW : Z := 4.
Definition CELL_COLOR_RED : Z := 5.
Definition CELL_COLOR_LTORANGE : Z := 6.

Definition get_color (status : Status) : Z :=
  match s_signatureStatus status with
  | SIG_NONE =>
      match s_recStatus status with
      | RECORD_NORMAL => CELL_COLOR_LTYELLOW
      | RECORD_ERROR => CELL_COLOR_LTPURPLE
      | RECORD_LOST => CELL_COLOR_WHITE
      | RECORD_DELETED => CELL_COLOR_RED
      end
  | SIG_INVALIDATED =>
      match s_recStatus status with
      | RECORD_NORMAL => CELL_COLOR_LTRED
      | RECORD_ERROR => CELL_COLOR_LTPURPLE
      | RECORD_LOST => CELL_COLOR_WHITE
      | RECORD_DELETED => CELL_COLOR_RED
      end
  | SIG_COMPLETE =>
      match s_recStatus status with
      | RECORD_NORMAL =>
          match s_changeStatus status with
          | CHANGE_NONE => CELL_COLOR_LTGREEN
          | CHANGE_ACCEPTED => CELL_COLOR_LTGREEN
          | CHANGE_DECLINED_ATFINAL => CELL_COLOR_LTORANGE
          | CHANGE_DECLINED => CELL_COLOR_LTRED
          end
      | RECORD_ERROR => CELL_COLOR_LTPURPLE
      | RECORD_LOST => CELL_COLOR_WHITE
      | RECORD_DELETED => CELL_COLOR_RED
      end
  end.

(** "If this plate was marked pending or deleted we'll have another
    output line": the test made on a covered plate, twice. *)
Definition status_line (cp : CoveredPlate) : bool :=
  match cp_changes cp with
  | [] =>
      negb (rec_eqb (s_recStatus (cp_status cp)) RECORD_NORMAL) &&
      change_eqb (s_changeStatus (cp_status cp)) CHANGE_DECLINED
  | _ :: _ => false
  end.

(** The height [plate_rows] of the merged plate cell. *)
Definition plate_rows (esn : eSigNode) (cp : CoveredPlate) : Z :=
  let rows := if negb (sig_eqb (s_signatureStatus (esn_status esn)) SIG_NONE)
              then cp_field_change_count cp else 0 in
  if status_line cp then sint32 (rows + 1) else rows.

(** The three assignments that replace the comment of a row by the
    record status of the plate. *)
Definition record_comment (cp : CoveredPlate) (comment : option string)
  : option string :=
  match s_recStatus (cp_status cp) with
  | RECORD_DELETED => Some "Record Deleted"
  | RECORD_ERROR => Some "Record marked in Error"
  | RECORD_LOST => Some "Record marked Lost"
  | RECORD_NORMAL => comment
  end.

(** A detail row of the sheet: the status line of a plate, or the line of
    one field change, each with the text of its comment cell. *)
Inductive detail_row : Type :=
| StatusRow (plate : Z) (comment : string)
| FieldRow (plate : Z) (fc : FieldChange) (comment : string).

Definition comment_text (c : option string) : string :=
  match c with Some t => t | None => "" end.

(** The detail rows written for one covered plate, each advancing
    [addn_row] by one. *)
Definition plate_detail (esn : eSigNode) (cp : CoveredPlate) : list detail_row :=
  ((if status_line cp
    then [StatusRow (cp_plate cp) (comment_text (record_comment cp None))]
    else [])
   ++
   (if negb (sig_eqb (s_signatureStatus (esn_status esn)) SIG_NONE)
    then map (fun fc =>
                FieldRow (cp_plate cp) fc
                  (comment_text (record_comment cp (fc_comment fc))))
           (cp_changes cp)
    else []))%list.

Definition node_detail (esn : eSigNode) : list detail_row :=
  flat_map (plate_detail esn) (esn_plates esn).

(** The nodes that get rows: all of them, or with [arrived_only] those
    whose signature plate was seen. *)
Definition reported (tree : list eSigNode) (arrived_only : Z) : list eSigNode :=
  filter (fun esn =>
            negb (negb (arrived_only =? 0) && (esn_was_sig_rec_seen esn =? 0)))
    tree.

End Xls.
Import Xls.

(* ====================================================================== *)
(** * Sample configurations and audit records *)

Module Samples.

Definition nl : string := String newline "".

(** [signature "A" plate 10 visit * fields 8 { plate 10; plate 11; }] *)
Definition config_A : list eSigConfig :=
  fst (signature 0 "A" 10 visit_range_star (range_element_single 8)
         [(10, []); (11, [])]).

(** [signature "B" plate 10 visit * fields 8-9 { plate 10; plate 11; }] *)
Definition config_B : list eSigConfig :=
  fst (signature 0 "B" 10 visit_range_star (range_element_pair 8 9)
         [(10, []); (11, [])]).

(** The configuration file
    [signature "A" plate 10 visit * fields 8 { plate 10; }
     signature "C" plate 10 visit * fields 8-9 { plate 10; }] *)
Definition config_AC : list eSigConfig :=
  let '(a, serial) :=
    signature 0 "A" 10 visit_range_star (range_element_single 8) [(10, [])] in
  let '(c, _) :=
    signature serial "C" 10 visit_range_star (range_element_pair 8 9)
      [(10, [])] in
  config (config [] a) c.

(** Audit lines.  Columns: type, date, time, user, patient, visit, plate,
    fieldref, unique id, status, level, max level, two unused columns,
    old value, new value, field position, description, old and new
    decode. *)
Definition weight_u1 : string :=
  "d|20250101|120000|u1|1001|1|11|0|9|1|1|1|||a|b|12|Weight||" ++ nl.
Definition sign_u1 : string :=
  "d|20250101|120500|u1|1001|1|10|0|9|1|1|1||||u1|8|Signature||" ++ nl.
Definition weight_u2 : string :=
  "d|20250102|090000|u2|1001|1|11|0|9|1|1|1|||b|c|12|Weight||" ++ nl.
Definition clear_field9 : string :=
  "d|20250103|090000|u2|1001|1|10|0|9|1|1|1|||x||9|Countersign||" ++ nl.


(** The record sl_read makes of a single line. *)
Definition record_of (line : string) : StringList :=
  hd (mkStringList []) (sl_read_all line "|").

(** A node of [config_A] for patient 1001, visit 1, as process_input
    creates it. *)
Definition node_A : eSigNode :=
  esn_alloc_sigfields (esn_alloc 1001 1 (hd (fst (esc_alloc 0)) config_A)).

Definition node_B : eSigNode :=
  esn_alloc_sigfields (esn_alloc 1001 1 (hd (fst (esc_alloc 0)) config_B)).

End Samples.
Import Samples.

(* ====================================================================== *)
(** * Predicates of the statements *)

Module Preds.

(** Every element holds at least one value. *)
Definition canonical (r : RangeList) : Prop :=
  Forall (fun e => rmin e <= rmax e) r.


(** The condition under which the specification asks for a DRF line. *)
Definition resign_required (esn : eSigNode) : Prop :=
  s_signatureStatus (esn_status esn) = SIG_INVALIDATED \/
  (s_signatureStatus (esn_status esn) = SIG_COMPLETE /\
   s_recStatus (esn_status esn) = RECORD_NORMAL /\
   s_changeStatus (esn_status esn) = CHANGE_DECLINED).

(** The covered plate holds no field change and is back to normal. *)
Definition plate_cleared (cp : CoveredPlate) : Prop :=
  cp_changes cp = [] /\
  s_recStatus (cp_status cp) = RECORD_NORMAL /\
  s_changeStatus (cp_status cp) = CHANGE_NONE.

(** The text that may follow a number in the output of rl_tostring. *)
Definition ends_number (rest : string) : Prop :=
  match rest with
  | EmptyString => True
  | String c _ => isdigit c = false
  end.

(** A value that rl_fromstring can read back: a non-negative number. *)
Definition readable (e : range) : Prop := 0 <= rmin e <= rmax e /\ rmax e <= LLONG_MAX.

(** The string holds no NUL character: it is a C string as it stands. *)
Fixpoint no_nul (s : string) : bool :=
  match s with
  | EmptyString => true
  | String c s' => negb (is_nul c) && no_nul s'
  end.

(** A character that rl_fromstring has no token for. *)
Definition stray (c : ascii) : bool :=
  negb (is_nul c) && negb (isspace c) && negb (isdigit c) &&
  negb (Ascii.eqb c ",") && negb (Ascii.eqb c "-").

(** The signature is COMPLETE exactly when every signature field is. *)
Definition sig_invariant (n : eSigNode) : Prop :=
  s_signatureStatus (esn_status n) = SIG_COMPLETE <->
  Forall (fun sf => sf_completed sf = true) (esn_sig_fields n).

(** The calls process_input makes on a node: a sign (esn_sign, then
    esn_free_signed_values with the same transaction id), an unsign, or
    a data change. *)
Inductive engine_call : Type :=
| CallSign (sl : StringList) (field txn_id : Z)
| CallUnsign (field : Z)
| CallDataChange (exclusions : list exclusion) (sl : StringList)
    (plate field txn_id : Z).

Definition engine_step (n : eSigNode) (c : engine_call) : eSigNode :=
  match c with
  | CallSign sl field txn_id =>
      esn_free_signed_values (esn_sign n sl field txn_id) txn_id
  | CallUnsign field => esn_unsign n field
  | CallDataChange exclusions sl plate field txn_id =>
      esn_datachange exclusions n sl plate field txn_id
  end.

Definition engine_run (n : eSigNode) (cs : list engine_call) : eSigNode :=
  fold_left engine_step cs n.

(** What the grammar guarantees of a record: [n_sig_fields] is the
    number of values its signature field list enumerates, and there is
    at least one. *)
Definition counted_config (c : eSigConfig) : Prop :=
  0 < esc_n_sig_fields c /\
  esc_n_sig_fields c = Z.of_nat (List.length (rl_values (esc_sig_fields c))).


(** What every call preserves on a node of configuration [c]. *)
Definition node_ok (c : eSigConfig) (n : eSigNode) : Prop :=
  esn_config n = c /\
  map sf_field (esn_sig_fields n) = rl_values (esc_sig_fields c) /\
  sig_invariant n.

(** Records that would share a node, having the same signature plate and
    the same first signature field, list the same signature fields. *)
Definition coherent (escs : list eSigConfig) : Prop :=
  forall a b, In a escs -> In b escs ->
    esc_sig_plate a = esc_sig_plate b ->
    sint32 (rl_min (esc_sig_fields a)) = sint32 (rl_min (esc_sig_fields b)) ->
    esc_sig_fields a = esc_sig_fields b.

(** A node of the tree: made from a record of the configuration and in
    step with it. *)
Definition node_good (escs : list eSigConfig) (n : eSigNode) : Prop :=
  In (esn_config n) escs /\ node_ok (esn_config n) n.

(** The fields of a node that esn_compare reads. *)
Definition same_key (a b : eSigNode) : Prop :=
  esn_id a = esn_id b /\ esn_visit a = esn_visit b /\
  esn_config a = esn_config b.

(** What process_input does to the node it looked up or made. *)
Definition engine_turn (exclusions : list exclusion) (esc : eSigConfig)
  (sl : StringList) (plate field rec_status txn_id : Z) (esn : eSigNode)
  : eSigNode :=
  let esn := if (plate =? esc_sig_plate esc) && negb (rec_status =? 0)
             then esn_sig_rec_seen esn else esn in
  if (plate =? esc_sig_plate esc) && rl_contains (esc_sig_fields esc) field
  then
    if negb (String.eqb (cstr (sl_value sl AUDITREC_NEWVALUE)) "")
    then esn_free_signed_values (esn_sign esn sl field txn_id) txn_id
    else esn_unsign esn field
  else esn_datachange exclusions esn sl plate field txn_id.

(** Every field change kept under the node is on a field from 7 up. *)
Definition changes_tracked (n : eSigNode) : Prop :=
  Forall (fun cp => Forall (fun fc => 7 <= fc_field fc) (cp_changes cp))
    (esn_plates n).

End Preds.
Import Preds.

(* ====================================================================== *)
(** * Predicates of the further statements *)

Module MorePreds.

(** How often the character occurs in the text. *)
Fixpoint count_char (c : ascii) (s : string) : nat :=
  match s with
  | EmptyString => O
  | String x s' => ((if Ascii.eqb x c then 1 else 0) + count_char c s')%nat
  end.

(** A column text: no NUL, no newline and no delimiter in it. *)
Fixpoint plain_text (delimiter : ascii) (s : string) : bool :=
  match s with
  | EmptyString => true
  | String x s' =>
      negb (is_nul x) && negb (Ascii.eqb x newline) &&
      negb (Ascii.eqb x delimiter) && plain_text delimiter s'
  end.

(** The text of an entry of a StringList, as sl_value gives it. *)
Definition entry_text (o : option string) : string :=
  match o with Some t => t | None => "" end.

(** An entry as sl_read stores it: a column without characters is the
    NULL pointer. *)
Definition entry_read (o : option string) : option string :=
  match o with
  | Some EmptyString => None
  | other => other
  end.

(** The text sl_print writes for the entries from [suf] on. *)
Fixpoint print_entries (suf : list (option string)) (delimiter : ascii) : string :=
  match suf with
  | [] => String newline ""
  | o :: suf' => entry_text o ++ String delimiter (print_entries suf' delimiter)
  end.

(** What the column being collected becomes when the text [t] is read. *)
Definition push_text (p : option string) (t : string) : option string :=
  match t with
  | EmptyString => p
  | _ => Some (entry_text p ++ t)
  end.

(** The greater of two change statuses, as the tests
    [if (new > current) current = new] leave it. *)
Definition change_max (current new : changeStatus) : changeStatus :=
  if change_rank new >? change_rank current then new else current.

Definition max_change (l : list changeStatus) (current : changeStatus)
  : changeStatus := fold_left change_max l current.

Definition fc_change (fc : FieldChange) : changeStatus :=
  s_changeStatus (fc_status fc).

Definition cp_change (cp : CoveredPlate) : changeStatus :=
  s_changeStatus (cp_status cp).

(** The record status the node takes from its covered plates: that of the
    last plate that is the signature plate. *)
Definition rec_last (sig_plate : Z) (cps : list CoveredPlate) (current : recStatus)
  : recStatus :=
  fold_left (fun acc cp => if sig_plate =? cp_plate cp
                           then s_recStatus (cp_status cp) else acc)
    cps current.

(** The parts of a covered plate that evaluate_field reads. *)
Definition same_plate_view (a b : CoveredPlate) : Prop :=
  cp_is_final a = cp_is_final b /\
  s_recStatus (cp_status a) = s_recStatus (cp_status b) /\
  s_signatureStatus (cp_status a) = s_signatureStatus (cp_status b).

(** The covered plate with the signature status of the node written in. *)
Definition with_sig (sig : signatureStatus) (cp : CoveredPlate) : CoveredPlate :=
  cp_set_status cp (set_sig (cp_status cp) sig).

(** evaluate_plate in one step. *)
Definition plate_after (allow_signer_changes resign_at_final : Z)
  (sig : signatureStatus) (signer : option string) (cp : CoveredPlate)
  : CoveredPlate :=
  let fcs := map (evaluate_field allow_signer_changes resign_at_final signer
                    (with_sig sig cp)) (cp_changes cp) in
  mkCoveredPlate (cp_plate cp)
    (mkStatus sig (s_recStatus (cp_status cp))
       (max_change (map fc_change fcs) (cp_change cp)))
    (cp_is_final cp) (sint32 (Z.of_nat (List.length (cp_changes cp)))) fcs.

(** An exclusion as load_exclusions accepts it. *)
Definition valid_exclusion (e : exclusion) : Prop :=
  ex_plate e <> 0 /\ ex_field e <> 0 /\ cstr (ex_user e) <> ""%string /\
  String.length (ex_date e) = 8%nat /\ starts_20 (ex_date e) = true /\
  count_char "/" (ex_date e) = O /\ count_char "013" (ex_date e) = O.

(** The exclusion answers for the audit record. *)
Definition exclusion_matches (e : exclusion) (sl : StringList) : Prop :=
  ex_plate e = uint32 (atoi (sl_value sl AUDITREC_PLATE)) /\
  ex_field e = atoi (sl_value sl AUDITREC_FIELDPOS) /\
  cstr (ex_user e) = cstr (sl_value sl AUDITREC_USER) /\
  cstr (ex_date e) = cstr (sl_value sl AUDITREC_DATE).

(** The tests of the two loops of find_center. *)
Definition holds_patient (id : Z) (c : center) : bool := rl_contains (c_pids c) id.
Definition is_monitor (c : center) : bool := negb (c_is_error_monitor c =? 0).
Definition holds_center (centerid : Z) (c : country) : bool :=
  rl_contains (co_centers c) centerid.

(** The orders of the three trees, by their compare functions. *)
Definition key_lt (a b : eSigNode) : Prop := esn_compare a b = Lt.
Definition plate_lt (a b : CoveredPlate) : Prop := cp_compare a b = Lt.
Definition field_lt (a b : FieldChange) : Prop := fc_compare a b = Lt.

(** The covered plates of the node ascend by plate number and the field
    changes of each ascend by field number. *)
Definition node_sorted (n : eSigNode) : Prop :=
  StronglySorted plate_lt (esn_plates n) /\
  Forall (fun cp => StronglySorted field_lt (cp_changes cp)) (esn_plates n).

(** The field change kept for the field on the covered plate. *)
Definition change_of (field : Z) (cp : CoveredPlate) : option FieldChange :=
  find (fun fc => fc_field fc =? field) (cp_changes cp).

(** The covered plate holds no field change, or those that a plate of
    the same number held in the node [n]. *)
Definition untouched (n : eSigNode) (cp : CoveredPlate) : Prop :=
  cp_changes cp = [] \/
  exists cp0, In cp0 (esn_plates n) /\ cp_plate cp0 = cp_plate cp /\
              cp_changes cp0 = cp_changes cp.

(** A transaction id is kept only by a node whose signature is COMPLETE. *)
Definition txn_of_complete (n : eSigNode) : Prop :=
  esn_txn_id n <> 0 -> s_signatureStatus (esn_status n) = SIG_COMPLETE.

(** The test "Check if the signer changed the value" of evaluate_tree. *)
Definition by_signer (allow_signer_changes : Z) (signer : option string)
  (fc : FieldChange) : bool :=
  match fc_who fc, signer with
  | Some who, Some s => negb (allow_signer_changes =? 0) && streq who s
  | _, _ => false
  end.

(** evaluate_field in one step. *)
Definition field_after (allow_signer_changes resign_at_final : Z)
  (signer : option string) (cp : CoveredPlate) (fc : FieldChange)
  : FieldChange :=
  mkFieldChange (fc_field fc)
    (mkStatus (s_signatureStatus (cp_status cp)) (s_recStatus (cp_status cp))
       (if by_signer allow_signer_changes signer fc then CHANGE_ACCEPTED
        else if negb (resign_at_final =? 0) && (cp_is_final cp =? 0) &&
                change_eqb (fc_change fc) CHANGE_DECLINED
             then CHANGE_DECLINED_ATFINAL
             else fc_change fc))
    (fc_desc fc) (fc_old_value fc) (fc_new_value fc) (fc_who fc) (fc_date fc)
    (fc_time fc)
    (if by_signer allow_signer_changes signer fc
     then Some "Changed by Signer"%string else fc_comment fc).

(** One turn of the outer loop of evaluate_tree in one step. *)
Definition node_after (allow_signer_changes resign_at_final : Z)
  (n : eSigNode) : eSigNode :=
  mkNode (esn_id n) (esn_visit n) (esn_config n)
    (mkStatus (s_signatureStatus (esn_status n))
       (rec_last (esc_sig_plate (esn_config n)) (esn_plates n)
          (s_recStatus (esn_status n)))
       (max_change
          (map cp_change
             (map (plate_after allow_signer_changes resign_at_final
                     (s_signatureStatus (esn_status n)) (esn_signer n))
                (esn_plates n)))
          CHANGE_NONE))
    (esn_signer n) (esn_date n) (esn_time n)
    (map (plate_after allow_signer_changes resign_at_final
            (s_signatureStatus (esn_status n)) (esn_signer n))
       (esn_plates n))
    (esn_sig_fields n) (esn_flags n) (esn_txn_id n).

End MorePreds.
Import MorePreds.

(* ====================================================================== *)
(** * Properties *)

Example S7_fromstring :
  rl_fromstring [] "1-3,5,7-10" = (0, [mkRange 1 3; mkRange 5 5; mkRange 7 10]).
Proof. vm_compute. reflexivity. Qed.

Example S7_tostring :
  rl_tostring [mkRange 1 3; mkRange 5 5; mkRange 7 10] = "1-3,5,7-10".
Proof. vm_compute. reflexivity. Qed.

(** ** The reader *)

Lemma sl_read_all_from_unfold (v : list (option string)) (p : option string)
  (room : Z) (skip : bool) (fp : string) (delimiter : ascii) :
  sl_read_all_from v p room skip fp delimiter =
  match sl_read_from v p room skip fp delimiter with
  | None => []
  | Some (sl, rest) => sl :: sl_read_all rest delimiter
  end.
Proof.
  revert v p room skip.
  induction fp as [|c fp IH]; intros v p room skip; [reflexivity |].
  cbn [sl_read_all_from sl_read_from].
  destruct (if room <=? 0 then false else skip); [apply IH |].
  destruct (is_nul c); [apply IH |].
  destruct (Ascii.eqb c newline); [reflexivity |].
  destruct (Ascii.eqb c delimiter); apply IH.
Qed.

(** [sl_read_all] is the sequence of records that sl_read returns, call
    after call, until it returns -1. *)
Lemma sl_read_all_unfold (fp : string) (delimiter : ascii) :
  sl_read_all fp delimiter =
  match sl_read fp delimiter with
  | None => []
  | Some (sl, rest) => sl :: sl_read_all rest delimiter
  end.
Proof. apply sl_read_all_from_unfold. Qed.

(** ** Machine integers *)

Lemma sint64_id (z : Z) : - 2 ^ 63 <= z < 2 ^ 63 -> sint64 z = z.
Proof.
  intros H. unfold sint64. rewrite Z.mod_small; lia.
Qed.

Lemma uint32_range (z : Z) : 0 <= uint32 z < 2 ^ 32.
Proof. unfold uint32. apply Z.mod_pos_bound. lia. Qed.

Lemma uint64_range (z : Z) : 0 <= uint64 z < 2 ^ 64.
Proof. unfold uint64. apply Z.mod_pos_bound. lia. Qed.

Lemma xor_swap_swaps (a b : Z) : xor_swap a b = (b, a).
Proof.
  unfold xor_swap. cbv zeta.
  assert (E : Z.lxor b (Z.lxor a b) = a).
  { rewrite (Z.lxor_comm a b), <- Z.lxor_assoc, Z.lxor_nilpotent.
    apply Z.lxor_0_l. }
  rewrite E. f_equal.
  rewrite (Z.lxor_comm a b), Z.lxor_assoc, Z.lxor_nilpotent.
  apply Z.lxor_0_r.
Qed.

(** ** RangeList: membership and width *)

Lemma rl_contains_spec (r : RangeList) (v : Z) :
  rl_contains r v = true <-> exists e, In e r /\ rmin e <= v <= rmax e.
Proof.
  induction r as [|e r IH]; simpl.
  - split; [discriminate | intros (e & [] & _)].
  - destruct ((v >=? rmin e) && (v <=? rmax e)) eqn:E.
    + split; [intros _ | reflexivity].
      exists e. split; [now left | lia].
    + rewrite IH. split.
      * intros (e' & Hin & Hv). exists e'. split; [now right | exact Hv].
      * intros (e' & [-> | Hin] & Hv); [lia | now exists e'].
Qed.

Lemma range_values_In (e : range) (v : Z) :
  In v (range_values e) <-> rmin e <= v <= rmax e.
Proof.
  unfold range_values. rewrite in_map_iff. split.
  - intros (k & <- & Hk). apply in_seq in Hk. lia.
  - intros H. exists (Z.to_nat (v - rmin e)). split; [lia |].
    apply in_seq. lia.
Qed.


Lemma range_values_length (e : range) :
  Z.of_nat (List.length (range_values e)) = Z.max 0 (rmax e - rmin e + 1).
Proof.
  unfold range_values. rewrite length_map, length_seq. lia.
Qed.

Lemma rl_values_In (r : RangeList) (v : Z) :
  In v (rl_values r) <-> rl_contains r v = true.
Proof.
  unfold rl_values. rewrite in_flat_map, rl_contains_spec.
  split; intros (e & Hin & H); exists e; split; trivial;
    now apply range_values_In.
Qed.


Lemma rl_width_from_exact (r : RangeList) (v : Z) :
  canonical r -> 0 <= v ->
  v + Z.of_nat (List.length (rl_values r)) <= LLONG_MAX ->
  rl_width_from v r = v + Z.of_nat (List.length (rl_values r)).
Proof.
  unfold LLONG_MAX. intros Hc. revert v.
  induction Hc as [|e r He Hc IH]; intros v Hv Hb; simpl in *; [lia |].
  rewrite length_app, Nat2Z.inj_add, range_values_length in *.
  rewrite (sint64_id (rmax e - rmin e)) by lia.
  rewrite (sint64_id (v + _)) by lia.
  rewrite sint64_id by lia.
  rewrite IH; lia.
Qed.




(** ** freeSignedValues *)

(** C3 (amended).  After [esn_free_signed_values n txn_id] with
    [n->txn_id == txn_id], every covered plate of the node has no field
    change, record status NORMAL and change status NONE, and the node has
    the same covered plates as before; called with any other transaction
    id the function leaves the node as it is. *)
Theorem free_signed_values_clears (n : eSigNode) (txn_id : Z)
  (Htxn : esn_txn_id n = txn_id) :
  (forall cp, In cp (esn_plates (esn_free_signed_values n txn_id)) ->
     plate_cleared cp) /\
  map cp_plate (esn_plates (esn_free_signed_values n txn_id))
    = map cp_plate (esn_plates n) /\
  (forall t, esn_txn_id n <> t -> esn_free_signed_values n t = n).
Proof.
  unfold esn_free_signed_values. split; [| split].
  - rewrite (proj2 (Z.eqb_eq _ _) Htxn). simpl.
    intros cp Hin. apply in_map_iff in Hin. destruct Hin as (cp0 & <- & _).
    repeat split.
  - rewrite (proj2 (Z.eqb_eq _ _) Htxn). simpl.
    rewrite map_map. reflexivity.
  - intros t Ht. rewrite (proj2 (Z.eqb_neq _ _) Ht). reflexivity.
Qed.

(** A change on plate 11 followed by the completing sign of transaction 2:
    the call clears the plate. *)
Lemma free_signed_values_clears_witness :
  Forall plate_cleared
    (esn_plates
       (esn_free_signed_values
          (esn_sign (esn_datachange [] node_A (record_of weight_u1) 11 12 1)
             (record_of sign_u1) 8 2) 2)).
Proof.
  apply Forall_forall.
  apply (free_signed_values_clears
           (esn_sign (esn_datachange [] node_A (record_of weight_u1) 11 12 1)
              (record_of sign_u1) 8 2) 2).
  vm_compute. reflexivity.
Defined.

(** C3, as stated, fails: a call whose transaction id is not the one
    recorded in the node returns at once.  Here the node, which needs two
    signature fields, holds a change on plate 11 and has had only field 8
    signed in transaction 2; the call that follows that sign in
    process_input leaves the change in place. *)
Lemma free_signed_values_counterexample :
  let n := esn_sign (esn_datachange [] node_B (record_of weight_u1) 11 12 1)
             (record_of sign_u1) 8 2 in
  esn_txn_id n = 0 /\
  exists cp, In cp (esn_plates (esn_free_signed_values n 2)) /\
             cp_changes cp <> [].
Proof.
  cbv zeta. split; [vm_compute; reflexivity |].
  eexists. split; [vm_compute; left; reflexivity |].
  discriminate.
Qed.

(** ** unsign *)

Lemma unsign_loop_length (cnt : nat) (a : list eSigField) (field : Z) :
  List.length (unsign_loop cnt a field) = List.length a.
Proof.
  revert a. induction cnt as [|k IH]; intros [|sf a]; simpl; trivial.
  now rewrite IH.
Qed.

Lemma unsign_loop_nth (cnt : nat) (a : list eSigField) (field : Z) (i : nat) :
  nth_error (unsign_loop cnt a field) i =
  option_map (fun sf =>
                if (i <? cnt)%nat && (sf_field sf =? field)
                then mkSigField (sf_field sf) false (sf_desc sf) (Some "")
                else sf)
             (nth_error a i).
Proof.
  revert a i. induction cnt as [|k IH]; intros [|sf a] [|i]; simpl; trivial;
    try (now destruct (nth_error a i)); try (now rewrite IH).
Qed.

(** C9.  [esn_unsign n field] clears [completed] and empties [value] in
    the entries of the signature field array whose field number is
    [field], leaves the other entries and every description as they are,
    turns the signature status into INVALIDATED exactly when it was
    COMPLETE, sets the transaction id to 0, and changes nothing else:
    signer, date, time, covered plates with their field changes, record and
    change status, flags, keys and configuration are those of [n]. *)
Theorem esn_unsign_effect (n : eSigNode) (field : Z) :
  let n' := esn_unsign n field in
  List.length (esn_sig_fields n') = List.length (esn_sig_fields n) /\
  (forall i sf,
     nth_error (esn_sig_fields n) i = Some sf ->
     nth_error (esn_sig_fields n') i =
       Some (if (Z.of_nat i <? esc_n_sig_fields (esn_config n))
                && (sf_field sf =? field)
             then mkSigField (sf_field sf) false (sf_desc sf) (Some "")
             else sf)) /\
  s_signatureStatus (esn_status n') =
    (match s_signatureStatus (esn_status n) with
     | SIG_COMPLETE => SIG_INVALIDATED
     | other => other
     end) /\
  (s_signatureStatus (esn_status n') <> s_signatureStatus (esn_status n)
   <-> s_signatureStatus (esn_status n) = SIG_COMPLETE) /\
  s_recStatus (esn_status n') = s_recStatus (esn_status n) /\
  s_changeStatus (esn_status n') = s_changeStatus (esn_status n) /\
  esn_txn_id n' = 0 /\
  esn_signer n' = esn_signer n /\
  esn_date n' = esn_date n /\
  esn_time n' = esn_time n /\
  esn_plates n' = esn_plates n /\
  esn_flags n' = esn_flags n /\
  esn_id n' = esn_id n /\ esn_visit n' = esn_visit n /\
  esn_config n' = esn_config n.
Proof.
  cbv zeta. unfold esn_unsign.
  destruct n as [id visit config [sg rc ch] signer date time plates a flags txn].
  assert (L : forall i : nat,
             (i <? Z.to_nat (esc_n_sig_fields config))%nat
             = (Z.of_nat i <? esc_n_sig_fields config)).
  { intros i.
    destruct (Z.ltb_spec (Z.of_nat i) (esc_n_sig_fields config)),
      (Nat.ltb_spec i (Z.to_nat (esc_n_sig_fields config))); trivial; lia. }
  destruct sg; simpl; (split; [apply unsign_loop_length | split]);
    try (intros i sf Hi; rewrite unsign_loop_nth, Hi; simpl; rewrite L;
         reflexivity);
    repeat split; try congruence; try discriminate;
    intros H; try discriminate; now elim H.
Qed.

(** ** The wildcard of the configuration parser *)

(** C10.  The action for [visit '*'] builds the single element
    [0, 65535]; a record of a signature declared with it passes the visit
    test of process_input exactly for visit numbers up to 65535.
    rl_fromstring gives "*" the element [0, 2^31 - 1] instead, and the two
    disagree from visit 65536 on. *)
Theorem visit_wildcard_is_0_65535 :
  visit_range_star = [mkRange 0 65535] /\
  (forall visit,
     rl_contains visit_range_star (uint32 visit) = true <-> uint32 visit <= 65535) /\
  (forall serial name number range defns,
     Forall (fun esc =>
               esc_visits esc = [mkRange 0 65535] /\
               forall plate visit field,
                 config_applies esc plate (uint32 visit) field = true <->
                 esc_plate esc = plate /\ uint32 visit <= 65535 /\
                 rl_contains (esc_ignore_fields esc) field = false)
            (fst (signature serial name number visit_range_star range defns))) /\
  (forall rl0, rl_fromstring rl0 "*" = (0, [mkRange 0 (2 ^ 31 - 1)])) /\
  rl_contains visit_range_star 65536 = false /\
  rl_contains (snd (rl_fromstring [] "*")) 65536 = true.
Proof.
  assert (V : forall visit,
             rl_contains [mkRange 0 65535] (uint32 visit) = true
             <-> uint32 visit <= 65535).
  { intros visit. pose proof (uint32_range visit) as R.
    rewrite rl_contains_spec. split.
    - intros (e & [<- | []] & H). simpl in H. lia.
    - intros H. exists (mkRange 0 65535). simpl. split; [now left | lia]. }
  split; [reflexivity | split; [exact V | split; [| repeat split]]].
  intros serial name number range defns.
  unfold signature, sig_config. simpl.
  destruct (plate_config _ defns []) as [es serial'].
  simpl. apply Forall_forall. intros esc Hin.
  apply in_map_iff in Hin. destruct Hin as (e & <- & _).
  split; [reflexivity |].
  intros plate visit field. unfold config_applies. simpl esc_visits.
  change (rl_dup visit_range_star) with [mkRange 0 65535].
  rewrite <- V. simpl esc_plate. simpl esc_ignore_fields.
  destruct (Z.eqb_spec (esc_plate e) plate) as [E | E],
    (rl_contains [mkRange 0 65535] (uint32 visit)),
    (rl_contains (esc_ignore_fields e) field); simpl;
    intuition (try discriminate; try congruence).
Qed.

(** ** Decimal text *)

Lemma sapp_assoc (a b c : string) : ((a ++ b) ++ c = a ++ (b ++ c))%string.
Proof. induction a as [|x a IH]; simpl; [reflexivity | now rewrite IH]. Qed.

Lemma sapp_nil_r (a : string) : (a ++ "")%string = a.
Proof. induction a as [|x a IH]; simpl; [reflexivity | now rewrite IH]. Qed.

Lemma digit_char_spec (d : Z) :
  0 <= d < 10 ->
  isdigit (digit_char d) = true /\ digit_val (digit_char d) = d /\
  is_nul (digit_char d) = false /\ isspace (digit_char d) = false.
Proof.
  intros H.
  assert (C : d = 0 \/ d = 1 \/ d = 2 \/ d = 3 \/ d = 4 \/ d = 5 \/ d = 6 \/
              d = 7 \/ d = 8 \/ d = 9) by lia.
  repeat (destruct C as [-> | C]; [repeat split |]); subst; repeat split.
Qed.

Lemma isdigit_not_special (c : ascii) :
  isdigit c = true -> is_nul c = false /\ isspace c = false.
Proof.
  unfold isdigit, is_nul, isspace. intros H.
  apply andb_prop in H. destruct H as [A B].
  apply Z.leb_le in A. apply Z.leb_le in B.
  split.
  - apply Z.eqb_neq. lia.
  - apply orb_false_intro; [apply Z.eqb_neq; lia |].
    apply andb_false_intro2. apply Z.leb_gt. lia.
Qed.

Lemma udec_aux_app (fuel : nat) (n : Z) (acc rest : string) :
  (udec_aux fuel n acc ++ rest)%string = udec_aux fuel n (acc ++ rest).
Proof.
  revert n acc. induction fuel as [|k IH]; intros n acc; simpl; trivial.
  destruct (n / 10 =? 0); [reflexivity | apply IH].
Qed.

(** The text of a number starts with a digit. *)
Lemma udec_aux_head (fuel : nat) (n : Z) (acc : string) :
  0 <= n ->
  exists c s, udec_aux fuel n acc = String c s /\ isdigit c = true.
Proof.
  revert n acc. induction fuel as [|k IH]; intros n acc Hn; simpl.
  - eexists _, _. split; [reflexivity |].
    apply digit_char_spec. apply Z.mod_pos_bound. lia.
  - destruct (n / 10 =? 0).
    + eexists _, _. split; [reflexivity |].
      apply digit_char_spec. apply Z.mod_pos_bound. lia.
    + apply IH. apply Z.div_pos; lia.
Qed.

(** Reading back the digits that udec_aux wrote. *)
Lemma scan_udec_aux (fuel : nat) (n : Z) (acc : string) :
  0 <= n <= LLONG_MAX -> n < 2 ^ (Z.of_nat fuel + 1) ->
  scan_digits 0 (udec_aux fuel n acc) = scan_digits n acc.
Proof.
  unfold LLONG_MAX.
  assert (One : forall m acc', 0 <= m < 2 ^ 63 -> m / 10 < 2 ^ 63 ->
            scan_digits (m / 10) (String (digit_char (m mod 10)) acc')
            = scan_digits m acc').
  { intros m acc' Hm _. simpl.
    destruct (digit_char_spec (m mod 10)) as (D & V & _);
      [apply Z.mod_pos_bound; lia |].
    rewrite D, V. f_equal. rewrite sint64_id.
    - pose proof (Z.div_mod m 10). lia.
    - pose proof (Z.div_mod m 10). pose proof (Z.mod_pos_bound m 10). lia. }
  revert n acc. induction fuel as [|k IH]; intros n acc Hn Hf.
  - simpl in *. rewrite <- (One n acc) by (try apply Z.div_lt_upper_bound; lia).
    replace (n / 10) with 0; [reflexivity |].
    symmetry. apply Z.div_small. lia.
  - simpl udec_aux. destruct (Z.eqb_spec (n / 10) 0) as [E | E].
    + rewrite <- (One n acc) by (try apply Z.div_lt_upper_bound; lia).
      now rewrite E.
    + rewrite IH.
      * apply One; [lia |]. apply Z.div_lt_upper_bound; lia.
      * split; [apply Z.div_pos; lia |].
        assert (n / 10 <= n) by (apply Z.div_le_upper_bound; lia). lia.
      * apply Z.div_lt_upper_bound; [lia |].
        replace (Z.of_nat (S k) + 1) with (Z.succ (Z.of_nat k + 1)) in Hf by lia.
        rewrite Z.pow_succ_r in Hf by lia. lia.
Qed.

Lemma udec_head (n : Z) :
  0 <= n -> exists c s, udec n = String c s /\ isdigit c = true.
Proof. intros H. now apply udec_aux_head. Qed.

Lemma scan_udec (n : Z) (rest : string) :
  0 <= n <= LLONG_MAX ->
  scan_digits 0 (udec n ++ rest) = scan_digits n rest.
Proof.
  intros H. unfold udec. rewrite udec_aux_app. simpl.
  apply scan_udec_aux; trivial.
  destruct (Z.eq_dec n 0) as [-> | N]; [reflexivity |].
  rewrite Z2Nat.id by apply Z.log2_nonneg.
  replace (Z.log2 n + 1) with (Z.succ (Z.log2 n)) by lia.
  apply Z.log2_spec. lia.
Qed.

(** ** The DRF writer *)

Lemma drf_selected_spec (esn : eSigNode) :
  drf_selected esn = true <-> resign_required esn.
Proof.
  unfold drf_selected, resign_required.
  destruct (s_signatureStatus (esn_status esn)),
    (s_recStatus (esn_status esn)), (s_changeStatus (esn_status esn));
    simpl; split; intros H; try reflexivity; try discriminate;
    try (right; repeat split; reflexivity); try (left; reflexivity);
    destruct H as [H | (H1 & H2 & H3)]; discriminate.
Qed.

Lemma count_char_app (c : ascii) (a b : string) :
  count_char c (a ++ b) = (count_char c a + count_char c b)%nat.
Proof.
  induction a as [|x a IH]; simpl; [reflexivity |]. rewrite IH. lia.
Qed.

Lemma strtol_udec_aux (fuel : nat) (n : Z) (acc : string) :
  0 <= n -> n < 2 ^ (Z.of_nat fuel + 1) ->
  strtol_digits 0 (udec_aux fuel n acc) = strtol_digits n acc.
Proof.
  assert (One : forall m acc', 0 <= m ->
            strtol_digits (m / 10) (String (digit_char (m mod 10)) acc')
            = strtol_digits m acc').
  { intros m acc' Hm. cbn [strtol_digits].
    destruct (digit_char_spec (m mod 10)) as (D & V & _);
      [apply Z.mod_pos_bound; lia |].
    rewrite D, V. f_equal. pose proof (Z.div_mod m 10). lia. }
  revert n acc. induction fuel as [|k IH]; intros n acc Hn Hf.
  - cbn [udec_aux]. rewrite <- (One n acc) by lia.
    replace (n / 10) with 0; [reflexivity |].
    symmetry. apply Z.div_small. simpl in Hf. lia.
  - cbn [udec_aux]. destruct (Z.eqb_spec (n / 10) 0) as [E | E].
    + rewrite <- (One n acc) by lia. now rewrite E.
    + rewrite IH.
      * now apply One.
      * apply Z.div_pos; lia.
      * apply Z.div_lt_upper_bound; [lia |].
        replace (Z.of_nat (S k) + 1) with (Z.succ (Z.of_nat k + 1)) in Hf by lia.
        rewrite Z.pow_succ_r in Hf by lia. lia.
Qed.

Lemma strtol_udec (n : Z) : 0 <= n -> strtol_digits 0 (udec n) = n.
Proof.
  intros H. unfold udec.
  rewrite strtol_udec_aux; [reflexivity | exact H |].
  destruct (Z.eq_dec n 0) as [-> | N]; [reflexivity |].
  rewrite Z2Nat.id by apply Z.log2_nonneg.
  replace (Z.log2 n + 1) with (Z.succ (Z.log2 n)) by lia.
  apply Z.log2_spec. lia.
Qed.

(** The characters of a number written by udec_aux are digits. *)
Lemma udec_aux_digits (c : ascii) (fuel : nat) (n : Z) (acc : string) :
  0 <= n -> isdigit c = false ->
  count_char c (udec_aux fuel n acc) = count_char c acc.
Proof.
  intros Hn Hc.
  assert (One : forall m acc', 0 <= m ->
            count_char c (String (digit_char (m mod 10)) acc')
            = count_char c acc').
  { intros m acc' Hm. cbn [count_char].
    destruct (digit_char_spec (m mod 10)) as (D & _);
      [apply Z.mod_pos_bound; lia |].
    destruct (Ascii.eqb_spec (digit_char (m mod 10)) c) as [E | E];
      [rewrite E in D; congruence | reflexivity]. }
  revert n acc Hn. induction fuel as [|k IH]; intros n acc Hn.
  - cbn [udec_aux]. now apply One.
  - cbn [udec_aux]. destruct (n / 10 =? 0); [now apply One |].
    rewrite IH by (apply Z.div_pos; lia). now apply One.
Qed.

Lemma fmt_lld_chars (c : ascii) (z : Z) :
  isdigit c = false -> c <> "-"%char -> count_char c (fmt_lld z) = O.
Proof.
  intros Hc Hm. unfold fmt_lld, udec.
  destruct (Z.ltb_spec z 0).
  - cbn [count_char]. destruct (Ascii.eqb_spec "-"%char c) as [E | E];
      [now elim Hm |]. now rewrite udec_aux_digits by (trivial; lia).
  - now rewrite udec_aux_digits.
Qed.

(** atoll reads back what "%lld" printed. *)
Lemma atoll_fmt_lld (z : Z) :
  - 2 ^ 63 <= z < 2 ^ 63 -> atoll (fmt_lld z) = z.
Proof.
  intros H. unfold atoll, strtoll, fmt_lld.
  destruct (Z.ltb_spec z 0).
  - cbn [skip_space]. change (isspace "-") with false. cbv iota.
    cbn [strtol_signed]. rewrite strtol_udec by lia.
    unfold clamp64, LLONG_MIN, LLONG_MAX. lia.
  - destruct (udec_head z) as (c & t & E & D); [lia |].
    assert (S : strtol_signed (skip_space (udec z)) = strtol_digits 0 (udec z)).
    { rewrite E. cbn [skip_space].
      destruct (isdigit_not_special c D) as (_ & Sp). rewrite Sp.
      unfold isdigit in D. apply andb_prop in D. destruct D as [D1 D2].
      apply Z.leb_le in D1.
      destruct c as [[] [] [] [] [] [] [] []]; try reflexivity;
        vm_compute in D1; now elim D1. }
    rewrite S, strtol_udec by lia.
    unfold clamp64, LLONG_MIN, LLONG_MAX. lia.
Qed.

Lemma sint64_range (z : Z) : - 2 ^ 63 <= sint64 z < 2 ^ 63.
Proof. unfold sint64. pose proof (Z.mod_pos_bound (z + 2 ^ 63) (2 ^ 64)). lia. Qed.

Lemma sint32_range (z : Z) : - 2 ^ 31 <= sint32 z < 2 ^ 31.
Proof. unfold sint32. pose proof (Z.mod_pos_bound (z + 2 ^ 31) (2 ^ 32)). lia. Qed.

Lemma atoi_fmt_d (z : Z) : atoi (fmt_d (sint32 z)) = sint32 z.
Proof.
  pose proof (sint32_range z) as R. unfold atoi, fmt_d.
  change (strtoll (fmt_lld (sint32 z))) with (atoll (fmt_lld (sint32 z))).
  rewrite atoll_fmt_lld by lia.
  set (w := sint32 z) in *. unfold sint32. rewrite Z.mod_small; lia.
Qed.

(** C1.  write_drf walks the tree in order and prints, for each node, the
    line [patient|visit|sigPlate] when the node is INVALIDATED, or COMPLETE
    with record status NORMAL and change status DECLINED, and nothing for
    any other node.  The line is three numbers, each followed by a bar or,
    the last, by the newline, with no other bar or newline in it; read
    with atoll and atoi they are the patient, the visit and the signature
    plate of the node, as the values of type long long and int that
    ["%lld|%d|%d"] is given. *)
Theorem write_drf_emits_iff_resign_required (tree : list eSigNode) :
  write_drf true tree = (0, Some (String.concat "" (flat_map drf_emit tree))) /\
  flat_map drf_emit tree = map drf_line (filter drf_selected tree) /\
  (forall esn,
     (drf_emit esn = [drf_line esn] <-> resign_required esn) /\
     (drf_emit esn = [] <-> ~ resign_required esn)) /\
  (forall esn,
     exists a b c,
       drf_line esn
       = (a ++ "|" ++ b ++ "|" ++ c ++ String newline "")%string /\
       atoll a = sint64 (esn_id esn) /\
       atoi b = sint32 (esn_visit esn) /\
       atoi c = sint32 (esc_sig_plate (esn_config esn)) /\
       count_char "|" (a ++ b ++ c) = O /\
       count_char newline (a ++ b ++ c) = O /\
       (0 <= esn_id esn < 2 ^ 63 -> atoll a = esn_id esn) /\
       (0 <= esn_visit esn < 2 ^ 31 -> atoi b = esn_visit esn) /\
       (0 <= esc_sig_plate (esn_config esn) < 2 ^ 31 ->
        atoi c = esc_sig_plate (esn_config esn))).
Proof.
  split; [reflexivity | split; [| split]].
  - induction tree as [|esn tree IH]; simpl; [reflexivity |].
    unfold drf_emit at 1. destruct (drf_selected esn); simpl; now rewrite IH.
  - intros esn. unfold drf_emit. rewrite <- drf_selected_spec.
    destruct (drf_selected esn); split; split; intros H;
      try reflexivity; try discriminate; congruence.
  - intros esn.
    exists (fmt_lld (sint64 (esn_id esn))), (fmt_d (sint32 (esn_visit esn))),
      (fmt_d (sint32 (esc_sig_plate (esn_config esn)))).
    assert (A : atoll (fmt_lld (sint64 (esn_id esn))) = sint64 (esn_id esn))
      by (apply atoll_fmt_lld, sint64_range).
    assert (N : forall x, (x = "|" \/ x = newline)%char ->
              count_char x
                (fmt_lld (sint64 (esn_id esn)) ++ fmt_d (sint32 (esn_visit esn))
                 ++ fmt_d (sint32 (esc_sig_plate (esn_config esn)))) = O).
    { intros x Hx. rewrite !count_char_app. unfold fmt_d.
      rewrite !fmt_lld_chars; trivial;
        destruct Hx as [-> | ->]; try reflexivity; discriminate. }
    split; [reflexivity |]. split; [exact A |].
    split; [apply atoi_fmt_d |]. split; [apply atoi_fmt_d |].
    split; [apply N; now left |]. split; [apply N; now right |].
    split; [| split].
    + intros H. rewrite A. apply sint64_id. lia.
    + intros H. rewrite atoi_fmt_d. unfold sint32. rewrite Z.mod_small; lia.
    + intros H. rewrite atoi_fmt_d. unfold sint32. rewrite Z.mod_small; lia.
Qed.

(** ** rl_fromstring *)

(** One turn of the main loop on a digit: the run is read by the inner
    loop and the outer loop goes on with the character after it. *)
Lemma rl_scan_digit (rl0 : RangeList) (c : ascii) (s : string) (st : pstate) :
  isdigit c = true ->
  rl_scan rl0 (String c s) st =
  match on_number (fst (scan_digits 0 (String c s))) st with
  | None => (-1, rl_result rl0 st)
  | Some st' => rl_scan rl0 (snd (scan_digits 0 (String c s))) st'
  end.
Proof.
  intros D. destruct (isdigit_not_special c D) as [N S].
  cbn [rl_scan scan_digits]. rewrite N, S, D.
  generalize (sint64 (0 * 10 + digit_val c)) as v.
  induction s as [|d t IH]; intros v.
  - reflexivity.
  - cbn [scan_digits]. destruct (isdigit d) eqn:Dd.
    + apply IH.
    + reflexivity.
Qed.

Lemma rl_scan_space (rl0 : RangeList) (c : ascii) (s : string) (st : pstate) :
  is_nul c = false -> isspace c = true ->
  rl_scan rl0 (String c s) st = rl_scan rl0 s st.
Proof. intros N S. cbn [rl_scan]. now rewrite N, S. Qed.

Lemma rl_scan_comma (rl0 : RangeList) (s : string) (st : pstate) :
  rl_scan rl0 (String "," s) st = rl_scan rl0 s (mkPState (out st) false COMMA).
Proof. reflexivity. Qed.

Lemma rl_scan_dash (rl0 : RangeList) (s : string) (st : pstate) :
  rl_scan rl0 (String "-" s) st = rl_scan rl0 s (mkPState (out st) (cur st) DASH).
Proof. reflexivity. Qed.

Lemma scan_digits_stop (v : Z) (rest : string) :
  ends_number rest -> scan_digits v rest = (v, rest).
Proof. destruct rest as [|c s]; simpl; [reflexivity | now intros ->]. Qed.

(** Reading a non-negative number written by fmt_lld. *)
Lemma rl_scan_number (rl0 : RangeList) (n : Z) (rest : string) (st : pstate) :
  0 <= n <= LLONG_MAX -> ends_number rest ->
  rl_scan rl0 (fmt_lld n ++ rest) st =
  match on_number n st with
  | None => (-1, rl_result rl0 st)
  | Some st' => rl_scan rl0 rest st'
  end.
Proof.
  intros Hn Hr. unfold fmt_lld.
  destruct (Z.ltb_spec n 0) as [L | _]; [lia |].
  destruct (udec_head n) as (c & s & E & D); [lia |].
  pose proof (scan_udec n rest Hn) as R.
  rewrite E in *. simpl append in *.
  rewrite rl_scan_digit, R, scan_digits_stop by assumption.
  reflexivity.
Qed.

Lemma set_last_max_snoc (o : RangeList) (e : range) (v : Z) :
  rmin e <= v ->
  set_last_max (o ++ [e])%list v = (o ++ [mkRange (rmin e) v])%list.
Proof.
  intros H. induction o as [|x o IH]; simpl.
  - destruct (Z.gtb_spec (rmin e) v); [lia | reflexivity].
  - rewrite IH. destruct (o ++ [e])%list eqn:E; [| reflexivity].
    now destruct o.
Qed.

(** Reading one element written by rl_tostring. *)
Lemma rl_scan_elem (rl0 : RangeList) (e : range) (rest : string) (st : pstate) :
  readable e -> rest = "" \/ (exists s, rest = String "," s) ->
  is_dash (last st) = false ->
  exists b,
    rl_scan rl0 (elem_tostring e ++ rest) st =
    rl_scan rl0 rest (mkPState (out st ++ [e])%list b NUMBER).
Proof.
  intros (Hmin & Hmax) Hrest Hl. unfold elem_tostring.
  assert (Er : ends_number rest).
  { destruct Hrest as [-> | (s & ->)]; simpl; trivial. }
  destruct e as [mn mx]. simpl in *.
  destruct (Z.eqb_spec mn mx) as [<- | Hne]; simpl negb; cbv iota.
  - rewrite sapp_assoc. simpl append.
    rewrite rl_scan_number by (trivial; lia).
    unfold on_number. rewrite Hl. now exists true.
  - rewrite sapp_assoc. simpl append.
    rewrite rl_scan_number by (simpl; trivial; lia).
    unfold on_number at 1. rewrite Hl.
    rewrite rl_scan_dash. cbn [out cur last].
    rewrite rl_scan_number by (trivial; lia).
    unfold on_number. cbn [out cur last is_dash].
    rewrite set_last_max_snoc by (simpl; lia).
    now exists false.
Qed.

Lemma rl_scan_tostring (rl0 : RangeList) (r : RangeList) (st : pstate) :
  Forall readable r -> r <> [] -> is_dash (last st) = false ->
  rl_scan rl0 (rl_tostring r) st = (0, (out st ++ r)%list).
Proof.
  intros Hr. revert st. induction Hr as [|e r He Hr IH]; intros st Hne Hl.
  - now elim Hne.
  - cbn [rl_tostring]. destruct r as [|e' r'].
    + simpl.
      destruct (rl_scan_elem rl0 e "" st He (or_introl eq_refl) Hl) as (b & E).
      rewrite E. unfold rl_scan, rl_finish, rl_result. simpl.
      now destruct (out st ++ [e])%list eqn:X; [destruct (out st) |].
    + destruct (rl_scan_elem rl0 e ("," ++ rl_tostring (e' :: r')) st He) as (b & E);
        [right; now eexists | exact Hl |].
      rewrite E. simpl append. rewrite rl_scan_comma.
      rewrite IH by (try discriminate; reflexivity).
      simpl. now rewrite <- app_assoc.
Qed.

Lemma rl_tostring_head (r : RangeList) :
  Forall readable r -> r <> [] ->
  exists c s, rl_tostring r = String c s /\ isdigit c = true.
Proof.
  intros Hr Hne. destruct Hr as [|e r He Hr]; [now elim Hne |].
  cbn [rl_tostring]. unfold elem_tostring, fmt_lld.
  destruct He as (Hmin & _).
  destruct (Z.ltb_spec (rmin e) 0) as [L | _]; [lia |].
  destruct (udec_head (rmin e)) as (c & s & E & D); [lia |].
  rewrite E. simpl. now eexists _, _.
Qed.

(** C6 (amended).  For every RangeList whose elements satisfy
    [0 <= min <= max], rl_fromstring applied to the text of rl_tostring
    returns 0 and leaves in [*rl] a list with the same elements in the same
    order, whatever [*rl] held before. *)
Theorem rl_fromstring_tostring (r rl0 : RangeList)
  (Hr : Forall readable r) :
  rl_fromstring rl0 (rl_tostring r) = (0, r).
Proof.
  destruct r as [|e r']; [reflexivity |].
  destruct (rl_tostring_head (e :: r') Hr) as (c & s & E & D); [discriminate |].
  destruct (isdigit_not_special c D) as [N _].
  assert (C : cstr (rl_tostring (e :: r')) = String c (cstr s)).
  { rewrite E. simpl. now rewrite N. }
  unfold rl_fromstring, streq. rewrite C.
  change ((String c (cstr s) =? "")%string) with false. cbv iota.
  destruct ((String c (cstr s) =? cstr "*")%string) eqn:Star.
  - apply String.eqb_eq in Star. simpl in Star. injection Star as -> _.
    discriminate D.
  - rewrite rl_scan_tostring by (trivial; discriminate). reflexivity.
Qed.

Lemma scan_digits_suffix (v : Z) (pre tail : string) :
  ends_number tail -> no_nul pre = true ->
  exists p, snd (scan_digits v (pre ++ tail)) = (p ++ tail)%string /\
            no_nul p = true /\ (String.length p <= String.length pre)%nat.
Proof.
  intros Ht. revert v. induction pre as [|c pre IH]; intros v Hn.
  - exists ""%string. simpl. rewrite scan_digits_stop by assumption. now repeat split.
  - simpl in Hn. apply andb_prop in Hn. destruct Hn as [Hc Hn].
    simpl. destruct (isdigit c).
    + destruct (IH (sint64 (v * 10 + digit_val c)) Hn) as (p & E & N & L).
      exists p. repeat split; trivial. lia.
    + exists (String c pre). simpl. rewrite Hc, Hn. now repeat split.
Qed.

(** Once the rest of the input is bound to fail, so is the whole input. *)
Lemma rl_scan_fails_before (rl0 : RangeList) (tail : string) :
  ends_number tail ->
  (forall st, fst (rl_scan rl0 tail st) = -1) ->
  forall pre st, no_nul pre = true -> fst (rl_scan rl0 (pre ++ tail) st) = -1.
Proof.
  intros Ht Hfail pre.
  remember (String.length pre) as n eqn:Hlen.
  assert (Hle : (String.length pre <= n)%nat) by lia. clear Hlen.
  revert pre Hle. induction n as [|n IH]; intros pre Hle st Hn.
  - destruct pre; [apply Hfail | simpl in Hle; lia].
  - destruct pre as [|c pre]; [apply Hfail |].
    simpl in Hle. pose proof Hn as Hn'. simpl in Hn.
    apply andb_prop in Hn. destruct Hn as [Hc Hp].
    apply negb_true_iff in Hc.
    destruct (isdigit c) eqn:D.
    + change (String c pre ++ tail)%string with (String c (pre ++ tail)).
      rewrite rl_scan_digit by assumption.
      destruct (on_number _ st) as [st' |]; [| reflexivity].
      assert (X : exists p,
                 snd (scan_digits 0 (String c (pre ++ tail))) = (p ++ tail)%string /\
                 no_nul p = true /\ (String.length p <= String.length pre)%nat).
      { cbn [scan_digits]. rewrite D. now apply scan_digits_suffix. }
      destruct X as (p & E & N & L).
      rewrite E. apply IH; trivial. lia.
    + simpl append. cbn [rl_scan]. rewrite Hc, D.
      destruct (isspace c); [apply IH; trivial; lia |].
      destruct (Ascii.eqb c ","); [apply IH; trivial; lia |].
      destruct (Ascii.eqb c "-"); [apply IH; trivial; lia |].
      reflexivity.
Qed.

Lemma cstr_no_nul_app (pre tail : string) :
  no_nul pre = true -> cstr (pre ++ tail) = (pre ++ cstr tail)%string.
Proof.
  induction pre as [|c pre IH]; simpl; [reflexivity |].
  intros H. apply andb_prop in H. destruct H as [Hc Hp].
  apply negb_true_iff in Hc. rewrite Hc. now rewrite IH.
Qed.

(** C8.  rl_fromstring reads white space, digit runs, commas and dashes;
    the text "*" alone gives the single element [0, 2^31 - 1]; the empty
    text gives the empty list with return code 0; a text that ends in a
    dash, and a text other than "*" in which a character occurs that is
    neither white space, a digit, a comma nor a dash, are refused with
    return code -1. *)
Theorem rl_fromstring_accepts_and_rejects (rl0 : RangeList) :
  rl_fromstring rl0 " 1-3,5 ,7 -10" = (0, [mkRange 1 3; mkRange 5 5; mkRange 7 10]) /\
  rl_fromstring rl0 "*" = (0, [mkRange 0 (2 ^ 31 - 1)]) /\
  rl_fromstring rl0 "" = (0, []) /\
  (forall pre, no_nul pre = true -> fst (rl_fromstring rl0 (pre ++ "-")) = -1) /\
  (forall pre c post,
     no_nul pre = true -> stray c = true ->
     cstr (pre ++ String c post) <> "*"%string ->
     fst (rl_fromstring rl0 (pre ++ String c post)) = -1).
Proof.
  split; [reflexivity | split; [reflexivity | split; [reflexivity | split]]].
  - intros pre Hn. unfold rl_fromstring, streq.
    rewrite cstr_no_nul_app by assumption. simpl cstr.
    replace (String.eqb (pre ++ "-") "") with false by (now destruct pre).
    replace (String.eqb (pre ++ "-") "*") with false.
    + now apply (rl_scan_fails_before rl0 "-" eq_refl (fun _ => eq_refl)).
    + destruct pre as [|a [|b pre]]; simpl; try reflexivity;
        destruct (Ascii.eqb a "*"); reflexivity.
  - intros pre c post Hn Hs Hstar. unfold rl_fromstring, streq.
    unfold stray in Hs.
    apply andb_prop in Hs. destruct Hs as [Hs Hdash].
    apply andb_prop in Hs. destruct Hs as [Hs Hcomma].
    apply andb_prop in Hs. destruct Hs as [Hs Hdig].
    apply andb_prop in Hs. destruct Hs as [Hnul Hsp].
    apply negb_true_iff in Hnul, Hsp, Hdig, Hcomma, Hdash.
    assert (Hfail : forall st, fst (rl_scan rl0 (String c post) st) = -1).
    { intros st. cbn [rl_scan]. now rewrite Hnul, Hsp, Hdig, Hcomma, Hdash. }
    apply String.eqb_neq in Hstar. simpl (cstr "*"). rewrite Hstar.
    replace (String.eqb (cstr (pre ++ String c post)) "") with false.
    + apply rl_scan_fails_before; trivial.
    + rewrite cstr_no_nul_app by assumption. simpl. rewrite Hnul.
      now destruct pre.
Qed.

(** A trailing dash and a letter are refused. *)
Lemma rl_fromstring_accepts_and_rejects_witness :
  fst (rl_fromstring [] "1-") = -1 /\ fst (rl_fromstring [] "1x,2") = -1.
Proof.
  split.
  - apply (proj1 (proj2 (proj2 (proj2 (rl_fromstring_accepts_and_rejects []))))
             "1"%string).
    reflexivity.
  - apply (proj2 (proj2 (proj2 (proj2 (rl_fromstring_accepts_and_rejects []))))
             "1"%string "x"%char ",2"%string).
    + reflexivity.
    + reflexivity.
    + discriminate.
Defined.

(** The round trip of scenario S7. *)
Lemma rl_fromstring_tostring_witness :
  rl_fromstring [] (rl_tostring [mkRange 1 3; mkRange 5 5; mkRange 7 10])
  = (0, [mkRange 1 3; mkRange 5 5; mkRange 7 10]).
Proof.
  apply (rl_fromstring_tostring [mkRange 1 3; mkRange 5 5; mkRange 7 10] []).
  repeat (apply Forall_cons; [unfold readable, LLONG_MAX; simpl; lia |]).
  apply Forall_nil.
Defined.

(** C6, as stated, fails: an element below zero has [min <= max], its text
    starts with the minus sign of the number, and rl_fromstring takes that
    for a dash without a number before it. *)
Lemma rl_roundtrip_negative_counterexample :
  let r := rl_addtofront [] (-5) (-5) in
  canonical r /\ rl_tostring r = "-5"%string /\
  rl_fromstring [] (rl_tostring r) = (-1, []).
Proof.
  cbv zeta. split; [| split]; [| reflexivity | reflexivity].
  repeat constructor. simpl. lia.
Qed.

(** ** The completeness invariant of a node *)

Lemma fill_sig_fields_full (a : list eSigField) (vals : list Z) :
  List.length a = List.length vals ->
  fill_sig_fields a vals = map (fun v => mkSigField v false None None) vals.
Proof.
  revert vals. induction a as [|x a IH]; intros [|v vals] H; simpl in *;
    try discriminate; trivial.
  f_equal. apply IH. lia.
Qed.

Lemma sign_loop_spec (a : list eSigField) (field : Z) (desc value : string) :
  let r := sign_loop (List.length a) a field desc value in
  map sf_field (fst r) = map sf_field a /\
  0 <= snd r <= Z.of_nat (List.length a) /\
  (snd r = Z.of_nat (List.length a)
   <-> Forall (fun sf => sf_completed sf = true) (fst r)) /\
  (Forall (fun sf => sf_completed sf = true) a ->
   Forall (fun sf => sf_completed sf = true) (fst r)).
Proof.
  induction a as [|sf a IH]; cbn [sign_loop List.length].
  - simpl. repeat split; auto; lia.
  - cbv zeta in IH.
    destruct (sign_loop (List.length a) a field desc value) as [a' k].
    cbn [fst snd] in *. destruct IH as (F & B & C & P).
    set (sf' := if sf_field sf =? field then _ else sf).
    assert (Ef : sf_field sf' = sf_field sf)
      by (subst sf'; now destruct (sf_field sf =? field)).
    assert (Ec : sf_completed sf = true -> sf_completed sf' = true)
      by (subst sf'; now destruct (sf_field sf =? field)).
    split; [simpl; now rewrite Ef, F |].
    rewrite Nat2Z.inj_succ.
    split; [destruct (sf_completed sf'); lia | split].
    + split.
      * intros H. destruct (sf_completed sf') eqn:E; [| lia].
        constructor; trivial. apply C. lia.
      * intros H. inversion H as [|? ? H1 H2]; subst.
        rewrite H1. apply C in H2. lia.
    + intros H. inversion H as [|? ? H1 H2]; subst. constructor; auto.
Qed.

Lemma unsign_loop_spec (a : list eSigField) (field : Z) :
  map sf_field (unsign_loop (List.length a) a field) = map sf_field a /\
  (In field (map sf_field a) ->
   ~ Forall (fun sf => sf_completed sf = true)
       (unsign_loop (List.length a) a field)).
Proof.
  induction a as [|sf a (F & N)]; cbn [unsign_loop List.length].
  - split; [reflexivity | intros []].
  - split.
    + simpl. rewrite F. now destruct (sf_field sf =? field).
    + intros Hin H. inversion H as [|? ? H1 H2]; subst.
      destruct (Z.eqb_spec (sf_field sf) field) as [E | E].
      * discriminate H1.
      * destruct Hin as [Hin | Hin]; [contradiction | now apply N].
Qed.

Lemma node_ok_alloc (c : eSigConfig) (id visit : Z) :
  counted_config c -> node_ok c (esn_alloc_sigfields (esn_alloc id visit c)).
Proof.
  intros (Hpos & Hn). unfold esn_alloc_sigfields, esn_alloc, calloc_sig_fields.
  cbn [esn_sig_fields esn_config esn_set_sig_fields].
  rewrite fill_sig_fields_full by (rewrite repeat_length; lia).
  repeat split; cbn.
  - rewrite map_map. simpl. apply map_id.
  - discriminate.
  - intros H. exfalso.
    destruct (rl_values (esc_sig_fields c)); simpl in *; [lia |].
    inversion H as [|? ? H1 _]. discriminate H1.
Qed.

Lemma node_ok_length (c : eSigConfig) (n : eSigNode) :
  counted_config c -> node_ok c n ->
  Z.to_nat (esc_n_sig_fields (esn_config n)) = List.length (esn_sig_fields n).
Proof.
  intros (_ & Hn) (-> & F & _). rewrite Hn, <- F, length_map. lia.
Qed.

Lemma node_ok_sign (c : eSigConfig) (n : eSigNode) (sl : StringList)
  (field txn_id : Z) :
  counted_config c -> node_ok c n -> node_ok c (esn_sign n sl field txn_id).
Proof.
  intros Hc Hok. pose proof (node_ok_length c n Hc Hok) as L.
  destruct Hok as (Ec & F & I). unfold esn_sign. rewrite L.
  pose proof (sign_loop_spec (esn_sig_fields n) field
                (sl_value sl AUDITREC_FIELDDESC) (sl_value sl AUDITREC_NEWVALUE))
    as S.
  cbv zeta in S.
  destruct (sign_loop _ _ _ _ _) as [a k]. cbn [fst snd] in S.
  destruct S as (Sf & Sb & Sc & Sp).
  assert (Ln : esc_n_sig_fields (esn_config n)
               = Z.of_nat (List.length (esn_sig_fields n))).
  { destruct Hc as (Hpos & _). rewrite <- Ec in Hpos. lia. }
  cbn [esn_config esn_set_sig_fields].
  destruct (Z.eqb_spec k (esc_n_sig_fields (esn_config n))) as [E | E]; cbn [negb].
  - repeat split; cbn; trivial; try congruence.
    intros _. apply Sc. lia.
  - repeat split; cbn; trivial; try congruence.
    + intros H. apply I in H. apply Sp in H. apply Sc in H. lia.
    + intros H. apply Sc in H. lia.
Qed.

Lemma node_ok_free (c : eSigConfig) (n : eSigNode) (txn_id : Z) :
  node_ok c n -> node_ok c (esn_free_signed_values n txn_id).
Proof.
  unfold esn_free_signed_values. now destruct (negb _).
Qed.

Lemma node_ok_datachange (c : eSigConfig) (n : eSigNode)
  (exclusions : list exclusion) (sl : StringList) (plate field txn_id : Z) :
  node_ok c n -> node_ok c (esn_datachange exclusions n sl plate field txn_id).
Proof.
  unfold esn_datachange. now destruct (RB_INSERT _ _ _).
Qed.

Lemma node_ok_unsign (c : eSigConfig) (n : eSigNode) (field : Z) :
  counted_config c -> node_ok c n ->
  rl_contains (esc_sig_fields c) field = true ->
  node_ok c (esn_unsign n field).
Proof.
  intros Hc Hok Hf. pose proof (node_ok_length c n Hc Hok) as L.
  destruct Hok as (Ec & F & I). unfold esn_unsign. rewrite L.
  destruct (unsign_loop_spec (esn_sig_fields n) field) as (U & N).
  apply rl_values_In in Hf. rewrite <- F in Hf. specialize (N Hf).
  cbn [esn_status esn_set_sig_fields].
  destruct (sig_eqb _ SIG_COMPLETE) eqn:E; repeat split; cbn; trivial;
    try congruence; try discriminate; try (intros H; now elim N).
  intros H. rewrite H in E. discriminate E.
Qed.

(** A node made by esn_alloc and esn_alloc_sigfields from a configuration
    record with at least one signature field keeps the invariant through
    any sequence of sign, unsign and data change calls in which each unsign
    names a field of the node's own signature field list. *)
Theorem sig_invariant_engine_run (c : eSigConfig) (id visit : Z)
  (cs : list engine_call)
  (Hc : counted_config c)
  (Hown : forall field, In (CallUnsign field) cs ->
                        rl_contains (esc_sig_fields c) field = true) :
  sig_invariant (engine_run (esn_alloc_sigfields (esn_alloc id visit c)) cs).
Proof.
  assert (G : forall n, node_ok c n ->
                        node_ok c (engine_run n cs)).
  { unfold engine_run. induction cs as [|call cs IH]; intros n Hn; [exact Hn |].
    simpl. apply IH.
    - intros f Hf. apply Hown. now right.
    - destruct call as [sl f t | f | ex sl p f t]; simpl.
      + now apply node_ok_free, node_ok_sign.
      + apply node_ok_unsign; trivial. apply Hown. now left.
      + now apply node_ok_datachange. }
  apply G. now apply node_ok_alloc.
Qed.

(** A node with fields 8 and 9: a data change, both signs, then field 9
    cleared. *)
Lemma sig_invariant_engine_run_witness :
  sig_invariant
    (engine_run (esn_alloc_sigfields (esn_alloc 1001 1 (hd (fst (esc_alloc 0)) config_B)))
       [CallDataChange [] (record_of weight_u1) 11 12 1;
        CallSign (record_of sign_u1) 8 2;
        CallSign (record_of sign_u1) 9 2;
        CallUnsign 9]).
Proof.
  apply (sig_invariant_engine_run (hd (fst (esc_alloc 0)) config_B) 1001 1).
  - split; [reflexivity | reflexivity].
  - intros field [H | [H | [H | [H | []]]]]; try discriminate H.
    injection H as <-. reflexivity.
Defined.

(** C2, as stated, fails.  Two signature blocks on plate 10 whose field
    lists, 8 and 8-9, begin with the same field share one node, which
    carries the record of the first block and so the single field 8.
    Signing field 8 completes it; clearing field 9 then reaches esn_unsign
    through the record of the second block, finds no entry to clear and
    still turns the status into INVALIDATED. *)
Lemma sig_invariant_counterexample :
  exists n,
    in_tree (process_input config_AC [] [] None (sign_u1 ++ clear_field9)) = [n] /\
    s_signatureStatus (esn_status n) = SIG_INVALIDATED /\
    Forall (fun sf => sf_completed sf = true) (esn_sig_fields n) /\
    ~ sig_invariant n.
Proof.
  eexists. split; [vm_compute; reflexivity |].
  split; [reflexivity | split].
  - repeat constructor.
  - intros [_ H]. discriminate H. repeat constructor.
Qed.

(** ** The transaction grouper *)







(** ** Audit lines of unexpected shape *)




(** A record is read through sl_value only: two records that sl_value
    cannot tell apart are processed alike. *)
Section SameColumns.

Variables a b : StringList.
Hypothesis same : forall n, sl_value a n = sl_value b n.










End SameColumns.





(** ** The completeness invariant over a whole run *)

Section TreeLemmas.

Context {A : Type} (cmp : A -> A -> comparison) (P : A -> Prop).

Lemma RB_INSERT_found (t t' : list A) (x y : A) :
  RB_INSERT cmp t x = (Some y, t') -> In y t /\ cmp x y = Eq /\ t' = t.
Proof.
  revert t'. induction t as [|z t IH]; intros t' H; simpl in H.
  - discriminate H.
  - destruct (cmp x z) eqn:C.
    + injection H as <- <-. repeat split; trivial. now left.
    + discriminate H.
    + destruct (RB_INSERT cmp t x) as [r t''] eqn:R.
      injection H as -> <-. destruct (IH _ eq_refl) as (I1 & I2 & ->).
      repeat split; trivial. now right.
Qed.

Lemma rb_store_Forall (t : list A) (x : A) :
  Forall P t -> P x -> Forall P (rb_store cmp t x).
Proof.
  intros Ht Hx. induction Ht as [|z t Hz Ht IH]; simpl; [constructor |].
  destruct (cmp x z); constructor; trivial.
Qed.

(** Storing through the pointer to an element that was just inserted
    overwrites that element. *)
Lemma rb_store_inserted (t t1 : list A) (x x' : A) :
  RB_INSERT cmp t x = (None, t1) ->
  (forall y, cmp x' y = cmp x y) -> cmp x' x = Eq ->
  Forall P t -> P x' -> Forall P (rb_store cmp t1 x').
Proof.
  intros H K E Ht Hx. revert t1 H.
  induction Ht as [|z t Hz Ht IH]; intros t1 H; simpl in H.
  - injection H as <-. simpl. rewrite E. now constructor.
  - destruct (cmp x z) eqn:C.
    + discriminate H.
    + injection H as <-. simpl. rewrite E. constructor; trivial.
      now constructor.
    + destruct (RB_INSERT cmp t x) as [r t''] eqn:R.
      injection H as -> <-. simpl. rewrite K, C.
      constructor; trivial. now apply IH.
Qed.

End TreeLemmas.

Lemma compare_then_eq (c k : comparison) :
  compare_then c k = Eq -> c = Eq /\ k = Eq.
Proof. destruct c; simpl; intros H; try discriminate H; now split. Qed.

Lemma esn_compare_same_key (a a' : eSigNode) :
  same_key a' a ->
  (forall y, esn_compare a' y = esn_compare a y) /\ esn_compare a' a = Eq.
Proof.
  intros (I & V & C). unfold esn_compare. rewrite I, V, C.
  split; [reflexivity |]. now rewrite !Z.compare_refl.
Qed.

Lemma same_key_sign (n : eSigNode) (sl : StringList) (field txn_id : Z) :
  same_key (esn_sign n sl field txn_id) n.
Proof.
  unfold esn_sign. destruct (sign_loop _ _ _ _ _) as [a k].
  cbn [esn_config esn_set_sig_fields]. now destruct (negb _).
Qed.

Lemma same_key_free (n : eSigNode) (txn_id : Z) :
  same_key (esn_free_signed_values n txn_id) n.
Proof. unfold esn_free_signed_values. now destruct (negb _). Qed.

Lemma same_key_unsign (n : eSigNode) (field : Z) : same_key (esn_unsign n field) n.
Proof.
  unfold esn_unsign. cbn [esn_status esn_set_sig_fields].
  now destruct (sig_eqb _ _).
Qed.

Lemma same_key_datachange (n : eSigNode) (exclusions : list exclusion)
  (sl : StringList) (plate field txn_id : Z) :
  same_key (esn_datachange exclusions n sl plate field txn_id) n.
Proof. unfold esn_datachange. now destruct (RB_INSERT _ _ _). Qed.

Lemma same_key_trans (a b c : eSigNode) :
  same_key a b -> same_key b c -> same_key a c.
Proof. unfold same_key. intuition congruence. Qed.

Lemma node_good_same_key (escs : list eSigConfig) (n n' : eSigNode) :
  same_key n' n -> In (esn_config n) escs -> node_ok (esn_config n) n' ->
  node_good escs n'.
Proof.
  intros (_ & _ & C) Hin Hok. unfold node_good. rewrite C. now split.
Qed.

Lemma dispatch_engine_turn (exclusions : list exclusion) (esc : eSigConfig)
  (sl : StringList) (id visit plate field rec_status txn_id : Z)
  (tree : list eSigNode) (db : sqlite3) :
  fst (dispatch exclusions esc sl id visit plate field rec_status txn_id tree db)
  = let '(esn0, tree1) := RB_INSERT esn_compare tree (esn_alloc id visit esc) in
    rb_store esn_compare tree1
      (engine_turn exclusions esc sl plate field rec_status txn_id
         (match esn0 with
          | Some e => e
          | None => esn_alloc_sigfields (esn_alloc id visit esc)
          end)).
Proof.
  unfold dispatch, engine_turn.
  destruct (RB_INSERT esn_compare tree (esn_alloc id visit esc)) as [esn0 tree1].
  destruct ((plate =? esc_sig_plate esc) && rl_contains (esc_sig_fields esc) field);
    [destruct (negb (String.eqb _ "")) |]; reflexivity.
Qed.

Lemma engine_turn_good (escs : list eSigConfig) (exclusions : list exclusion)
  (esc : eSigConfig) (sl : StringList) (plate field rec_status txn_id : Z)
  (esn : eSigNode) :
  Forall counted_config escs -> node_good escs esn ->
  esc_sig_fields esc = esc_sig_fields (esn_config esn) ->
  same_key (engine_turn exclusions esc sl plate field rec_status txn_id esn) esn /\
  node_good escs (engine_turn exclusions esc sl plate field rec_status txn_id esn).
Proof.
  intros Hc (Hin & Hok) Hf.
  assert (Cc : counted_config (esn_config esn))
    by (rewrite Forall_forall in Hc; now apply Hc).
  unfold engine_turn.
  set (e1 := if (plate =? esc_sig_plate esc) && negb (rec_status =? 0)
             then esn_sig_rec_seen esn else esn).
  assert (K1 : same_key e1 esn) by (subst e1; now destruct (_ && _)).
  assert (O1 : node_ok (esn_config esn) e1) by (subst e1; now destruct (_ && _)).
  assert (Ks : forall t, same_key
             (esn_free_signed_values (esn_sign e1 sl field t) t) esn).
  { intros t. eapply same_key_trans; [apply same_key_free |].
    eapply same_key_trans; [apply same_key_sign | exact K1]. }
  assert (Ku : same_key (esn_unsign e1 field) esn)
    by (eapply same_key_trans; [apply same_key_unsign | exact K1]).
  assert (Kd : same_key (esn_datachange exclusions e1 sl plate field txn_id) esn)
    by (eapply same_key_trans; [apply same_key_datachange | exact K1]).
  destruct ((plate =? esc_sig_plate esc) && rl_contains (esc_sig_fields esc) field)
    eqn:B.
  - destruct (negb (String.eqb _ "")).
    + split; [apply Ks |].
      apply (node_good_same_key escs esn); [apply Ks | exact Hin |].
      now apply node_ok_free, node_ok_sign.
    + split; [exact Ku |].
      apply (node_good_same_key escs esn); [exact Ku | exact Hin |].
      apply node_ok_unsign; trivial. rewrite <- Hf.
      apply andb_prop in B. apply B.
  - split; [exact Kd |].
    apply (node_good_same_key escs esn); [exact Kd | exact Hin |].
    now apply node_ok_datachange.
Qed.

Lemma dispatch_good (escs : list eSigConfig) (exclusions : list exclusion)
  (esc : eSigConfig) (sl : StringList)
  (id visit plate field rec_status txn_id : Z) (tree : list eSigNode)
  (db : sqlite3) :
  Forall counted_config escs -> coherent escs -> In esc escs ->
  Forall (node_good escs) tree ->
  Forall (node_good escs)
    (fst (dispatch exclusions esc sl id visit plate field rec_status txn_id
            tree db)).
Proof.
  intros Hc Hco Hin Ht. rewrite dispatch_engine_turn.
  destruct (RB_INSERT esn_compare tree (esn_alloc id visit esc)) as [[e |] tree1]
    eqn:R.
  - apply RB_INSERT_found in R. destruct R as (He & Hcmp & ->).
    rewrite Forall_forall in Ht. pose proof (Ht e He) as Hg.
    apply rb_store_Forall; [now apply Forall_forall |].
    apply engine_turn_good; trivial.
    unfold esn_compare in Hcmp. simpl in Hcmp.
    apply compare_then_eq in Hcmp. destruct Hcmp as (_ & Hcmp).
    apply compare_then_eq in Hcmp. destruct Hcmp as (_ & Hcmp).
    apply compare_then_eq in Hcmp. destruct Hcmp as (Hp & Hm).
    apply Z.compare_eq in Hp, Hm.
    apply Hco; trivial. apply Hg.
  - set (x := esn_alloc id visit esc) in *.
    assert (Gx : node_good escs (esn_alloc_sigfields x)).
    { split.
      - unfold esn_alloc_sigfields, x. simpl. exact Hin.
      - unfold esn_alloc_sigfields at 2, x. simpl esn_config.
        apply node_ok_alloc. rewrite Forall_forall in Hc. now apply Hc. }
    assert (Kx : same_key (esn_alloc_sigfields x) x) by (now unfold x).
    destruct (engine_turn_good escs exclusions esc sl plate field rec_status
                txn_id (esn_alloc_sigfields x) Hc Gx eq_refl) as (K & G).
    pose proof (esn_compare_same_key x _ (same_key_trans _ _ _ K Kx)) as (C1 & C2).
    eapply rb_store_inserted; eauto.
Qed.

Lemma config_loop_good (escs : list eSigConfig) (exclusions : list exclusion)
  (sl : StringList) (id visit plate field rec_status txn_id : Z)
  (some : list eSigConfig) (tree : list eSigNode) (db : sqlite3) :
  Forall counted_config escs -> coherent escs -> incl some escs ->
  Forall (node_good escs) tree ->
  Forall (node_good escs)
    (fst (config_loop exclusions some sl id visit plate field rec_status txn_id
            tree db)).
Proof.
  intros Hc Hco. revert tree db.
  induction some as [|esc some IH]; intros tree db Hi Ht; simpl; [exact Ht |].
  destruct (config_applies esc plate visit field).
  - destruct (dispatch _ _ _ _ _ _ _ _ _ _ _) as [tree' db'] eqn:D.
    apply IH; [intros y Hy; apply Hi; now right |].
    change tree' with (fst (tree', db')). rewrite <- D.
    apply dispatch_good; trivial. apply Hi. now left.
  - apply IH; trivial. intros y Hy. apply Hi. now right.
Qed.

Lemma process_record_good (escs : list eSigConfig) (exclusions : list exclusion)
  (st : input_state) (sl : StringList) :
  Forall counted_config escs -> coherent escs ->
  Forall (node_good escs) (in_tree st) ->
  Forall (node_good escs) (in_tree (process_record escs exclusions st sl)).
Proof.
  intros Hc Hco Ht. unfold process_record.
  destruct (skipped sl); [exact Ht |].
  destruct (group_txn _ _ _) as [t l].
  destruct (config_loop _ _ _ _ _ _ _ _ _ _ _) as [tree db] eqn:L.
  simpl. change tree with (fst (tree, db)). rewrite <- L.
  apply config_loop_good; trivial. apply incl_refl.
Qed.

Lemma process_records_good (escs : list eSigConfig) (exclusions : list exclusion)
  (sls : list StringList) (st : input_state) :
  Forall counted_config escs -> coherent escs ->
  Forall (node_good escs) (in_tree st) ->
  Forall (node_good escs) (in_tree (process_records escs exclusions st sls)).
Proof.
  intros Hc Hco. unfold process_records. revert st.
  induction sls as [|sl sls IH]; intros st Ht; simpl; [exact Ht |].
  apply IH. now apply process_record_good.
Qed.

(** C2 (amended).  Let the configuration be such that every record counts
    at least one signature field and records with the same signature plate
    and the same first signature field list the same signature fields.
    Then every node of the tree that process_input builds from the empty
    tree satisfies: the signature status is COMPLETE exactly when every
    entry of the signature field array is completed. *)
Theorem sig_complete_iff_all_completed (escs : list eSigConfig)
  (exclusions : list exclusion) (db : sqlite3) (stdin : string)
  (Hc : Forall counted_config escs) (Hco : coherent escs) :
  Forall sig_invariant (in_tree (process_input escs exclusions [] db stdin)).
Proof.
  unfold process_input.
  eapply Forall_impl;
    [| apply (process_records_good escs exclusions); trivial; constructor].
  intros n (_ & _ & _ & I). exact I.
Qed.

(** A run over one signature block: change, sign, change, and a cleared
    field that is no signature field. *)
Lemma sig_complete_iff_all_completed_witness :
  Forall sig_invariant
    (in_tree (process_input config_A [] [] None
                (weight_u1 ++ sign_u1 ++ weight_u2 ++ clear_field9))).
Proof.
  apply (sig_complete_iff_all_completed config_A [] None
           (weight_u1 ++ sign_u1 ++ weight_u2 ++ clear_field9)%string).
  - repeat constructor.
  - intros a b [<- | [<- | []]] [<- | [<- | []]] _ _; reflexivity.
Defined.

(** ** Configurations built by the grammar *)

Lemma rl_dup_id (r : RangeList) : rl_dup r = r.
Proof.
  unfold rl_dup. induction r as [|[mn mx] r IH]; simpl; [reflexivity |].
  now rewrite IH.
Qed.

(** The records of one signature block whose field list is not empty, has
    [min <= max] in every element and enumerates fewer than 2^31 values
    count their signature fields and agree on them. *)
Lemma signature_counted_coherent (serial : Z) (name : string) (number : Z)
  (visit_range range : RangeList) (defns : list (Z * RangeList)) :
  range <> [] -> canonical range ->
  Z.of_nat (List.length (rl_values range)) < 2 ^ 31 ->
  Forall counted_config
    (fst (signature serial name number visit_range range defns)) /\
  coherent (fst (signature serial name number visit_range range defns)).
Proof.
  intros Hne Hcan Hb.
  assert (W : rl_width range = Z.of_nat (List.length (rl_values range))).
  { unfold rl_width. rewrite rl_width_from_exact; trivial; unfold LLONG_MAX; lia. }
  assert (Pos : 0 < Z.of_nat (List.length (rl_values range))).
  { destruct Hcan as [|e r He _]; [now elim Hne |].
    simpl. rewrite length_app, Nat2Z.inj_add.
    pose proof (range_values_length e). lia. }
  unfold signature, sig_config. simpl.
  destruct (plate_config _ defns []) as [es serial'].
  simpl. split.
  - apply Forall_forall. intros c Hin. apply in_map_iff in Hin.
    destruct Hin as (e & <- & _). unfold counted_config. simpl.
    rewrite rl_dup_id, W. unfold sint32.
    rewrite Z.mod_small by lia. lia.
  - intros a b Ha Hb' _ _. apply in_map_iff in Ha, Hb'.
    destruct Ha as (ea & <- & _), Hb' as (eb & <- & _). reflexivity.
Qed.

(** ** rl_addtofront *)

(** The new head element is [min, max] with the two arguments in order,
    and the rest of the list is the list given. *)
Lemma rl_addtofront_head (l : RangeList) (a b : Z) :
  rl_addtofront l a b = mkRange (Z.min a b) (Z.max a b) :: l.
Proof.
  unfold rl_addtofront. destruct (Z.gtb_spec a b).
  - rewrite xor_swap_swaps. f_equal. f_equal; lia.
  - f_equal. f_equal; lia.
Qed.

(** ** Tracked field changes *)

Lemma RB_INSERT_Forall {A : Type} (cmp : A -> A -> comparison) (P : A -> Prop)
  (t : list A) (x : A) :
  Forall P t -> P x -> Forall P (snd (RB_INSERT cmp t x)).
Proof.
  intros Ht Hx. induction Ht as [|z t Hz Ht IH]; simpl.
  - now constructor.
  - destruct (cmp x z); simpl.
    + now constructor.
    + constructor; trivial. now constructor.
    + destruct (RB_INSERT cmp t x) as [r t'']. simpl in *. now constructor.
Qed.

Lemma RB_INSERT_fst_In {A : Type} (cmp : A -> A -> comparison) (t : list A)
  (x y : A) :
  fst (RB_INSERT cmp t x) = Some y -> In y t.
Proof.
  destruct (RB_INSERT cmp t x) as [r t'] eqn:R. simpl. intros ->.
  now apply RB_INSERT_found in R.
Qed.

Lemma datachange_record_changes (n : eSigNode) (cp : CoveredPlate)
  (rec_status rec_level : Z) :
  cp_changes (datachange_record n cp rec_status rec_level) = cp_changes cp \/
  cp_changes (datachange_record n cp rec_status rec_level) = [].
Proof.
  unfold datachange_record.
  destruct (negb (sig_eqb _ SIG_NONE)), ((rec_status =? 0) || (rec_status =? 1)),
    ((rec_status =? 3) && (rec_level =? 7)), (rec_status =? 7), (rec_status =? 0);
    simpl; auto.
Qed.

Lemma datachange_field_tracked (exclusions : list exclusion) (cp : CoveredPlate)
  (sl : StringList) (field : Z) :
  7 <= field ->
  Forall (fun fc => 7 <= fc_field fc) (cp_changes cp) ->
  Forall (fun fc => 7 <= fc_field fc)
    (cp_changes (datachange_field exclusions cp sl field)).
Proof.
  intros Hf Hc. unfold datachange_field.
  pose proof (RB_INSERT_Forall fc_compare _ (cp_changes cp) (fc_alloc field) Hc Hf)
    as H1.
  pose proof (RB_INSERT_fst_In fc_compare (cp_changes cp) (fc_alloc field)) as H2.
  destruct (RB_INSERT fc_compare (cp_changes cp) (fc_alloc field)) as [fc0 changes].
  simpl in H1, H2. cbn [cp_changes cp_set_changes].
  apply rb_store_Forall; trivial.
  assert (B : 7 <= fc_field match fc0 with
                             | Some f => f
                             | None =>
                                 fc_set_old_value (fc_alloc field)
                                   (Some (decode_value sl AUDITREC_OLDVALUE
                                            AUDITREC_OLDDECODE))
                             end).
  { destruct fc0 as [f |]; [| exact Hf].
    rewrite Forall_forall in Hc. apply Hc. now apply H2. }
  now destruct (_ && _).
Qed.

Lemma datachange_tracked (exclusions : list exclusion) (n : eSigNode)
  (sl : StringList) (plate field txn_id : Z) :
  changes_tracked n ->
  changes_tracked (esn_datachange exclusions n sl plate field txn_id).
Proof.
  unfold changes_tracked, esn_datachange. intros H.
  pose proof (RB_INSERT_Forall cp_compare _ (esn_plates n) (cp_alloc plate) H
                (Forall_nil _)) as H1.
  pose proof (RB_INSERT_fst_In cp_compare (esn_plates n) (cp_alloc plate)) as H2.
  destruct (RB_INSERT cp_compare (esn_plates n) (cp_alloc plate)) as [cp0 plates].
  simpl in H1, H2. cbn [esn_plates esn_set_plates].
  apply rb_store_Forall; trivial.
  set (cp := match cp0 with Some c => c | None => cp_alloc plate end).
  assert (B : Forall (fun fc => 7 <= fc_field fc) (cp_changes cp)).
  { subst cp. destruct cp0 as [c |]; [| constructor].
    rewrite Forall_forall in H. apply H. now apply H2. }
  assert (R : Forall (fun fc => 7 <= fc_field fc)
                (cp_changes (datachange_record n cp
                               (atoi (sl_value sl AUDITREC_STATUS))
                               (atoi (sl_value sl AUDITREC_LEVEL))))).
  { destruct (datachange_record_changes n cp
                (atoi (sl_value sl AUDITREC_STATUS))
                (atoi (sl_value sl AUDITREC_LEVEL))) as [-> | ->];
      [exact B | constructor]. }
  destruct (txn_id =? esn_txn_id n); [exact R |].
  destruct (Z.ltb_spec field 7); [exact R |].
  now apply datachange_field_tracked.
Qed.

(** No field below 7 is ever tracked as a change: whatever calls a new
    node receives, each field change under it is on a field from 7 up. *)
Lemma field_changes_from_7 (c : eSigConfig) (id visit : Z)
  (cs : list engine_call) :
  changes_tracked (engine_run (esn_alloc_sigfields (esn_alloc id visit c)) cs).
Proof.
  assert (G : forall n, changes_tracked n -> changes_tracked (engine_run n cs)).
  { unfold engine_run. induction cs as [|call cs IH]; intros n Hn; [exact Hn |].
    simpl. apply IH. destruct call as [sl f t | f | ex sl p f t]; simpl.
    - unfold esn_free_signed_values, changes_tracked.
      destruct (negb _).
      + unfold esn_sign. destruct (sign_loop _ _ _ _ _) as [a k].
        now destruct (negb _).
      + cbn [esn_plates esn_set_plates]. apply Forall_forall.
        intros cp Hin. apply in_map_iff in Hin. destruct Hin as (cp0 & <- & _).
        constructor.
    - unfold esn_unsign, changes_tracked. cbn [esn_status esn_set_sig_fields].
      now destruct (sig_eqb _ _).
    - now apply datachange_tracked. }
  apply G. unfold changes_tracked, esn_alloc_sigfields. simpl. constructor.
Qed.

(** A block with one signature field on two plates. *)
Lemma signature_counted_coherent_witness :
  Forall counted_config config_A /\ coherent config_A.
Proof.
  apply (signature_counted_coherent 0 "A" 10 visit_range_star
           (range_element_single 8) [(10, []); (11, [])]).
  - discriminate.
  - repeat constructor. simpl. lia.
  - vm_compute. reflexivity.
Defined.

(** ** rl_min and rl_max *)

Lemma rl_min_from_spec (l : RangeList) (v : Z) :
  let m := rl_min_from v false l in
  m <= v /\ Forall (fun e => m <= rmin e) l /\
  (m = v \/ exists e, In e l /\ m = rmin e).
Proof.
  revert v. induction l as [|e l IH]; intros v; simpl.
  - repeat split; [lia | constructor | now left].
  - destruct (Z.gtb_spec v (rmin e)) as [G | G].
    + destruct (IH (rmin e)) as (A & B & C). repeat split; [lia | |].
      * constructor; trivial.
      * right. destruct C as [C | (x & Hx & C)];
          [exists e; split; [now left | exact C]
          | exists x; split; [now right | exact C]].
    + destruct (IH v) as (A & B & C). repeat split; trivial.
      * constructor; [lia | trivial].
      * destruct C as [C | (x & Hx & C)]; [now left |].
        right. exists x. split; [now right | exact C].
Qed.

Lemma rl_max_from_spec (l : RangeList) (v : Z) :
  let m := rl_max_from v false l in
  v <= m /\ Forall (fun e => rmax e <= m) l /\
  (m = v \/ exists e, In e l /\ m = rmax e).
Proof.
  revert v. induction l as [|e l IH]; intros v; simpl.
  - repeat split; [lia | constructor | now left].
  - destruct (Z.ltb_spec v (rmax e)) as [G | G].
    + destruct (IH (rmax e)) as (A & B & C). repeat split; [lia | |].
      * constructor; trivial.
      * right. destruct C as [C | (x & Hx & C)];
          [exists e; split; [now left | exact C]
          | exists x; split; [now right | exact C]].
    + destruct (IH v) as (A & B & C). repeat split; trivial.
      * constructor; [lia | trivial].
      * destruct C as [C | (x & Hx & C)]; [now left |].
        right. exists x. split; [now right | exact C].
Qed.

(** rl_min and rl_max of the empty list are 0.  Of any other list they
    are the least [min] and the greatest [max] of its elements, each taken
    by some element, and every value the list contains lies between them. *)
Theorem rl_min_max_bounds (l : RangeList) :
  (l = [] -> rl_min l = 0 /\ rl_max l = 0) /\
  (l <> [] -> (exists e, In e l /\ rl_min l = rmin e) /\
              (exists e, In e l /\ rl_max l = rmax e)) /\
  Forall (fun e => rl_min l <= rmin e /\ rmax e <= rl_max l) l /\
  (forall v, rl_contains l v = true -> rl_min l <= v <= rl_max l).
Proof.
  assert (F : Forall (fun e => rl_min l <= rmin e /\ rmax e <= rl_max l) l).
  { destruct l as [|e l]; [constructor |].
    unfold rl_min, rl_max. simpl.
    destruct (rl_min_from_spec l (rmin e)) as (A & B & _).
    destruct (rl_max_from_spec l (rmax e)) as (A' & B' & _).
    constructor; [split; assumption |].
    rewrite Forall_forall in *. intros x Hx. split; auto. }
  split; [intros ->; now split | split; [| split; [exact F |]]].
  - intros Hne. destruct l as [|e l]; [now elim Hne |].
    unfold rl_min, rl_max. simpl.
    destruct (rl_min_from_spec l (rmin e)) as (_ & _ & C).
    destruct (rl_max_from_spec l (rmax e)) as (_ & _ & C').
    split.
    + destruct C as [C | (x & Hx & C)];
        [exists e; split; [now left | exact C]
        | exists x; split; [now right | exact C]].
    + destruct C' as [C' | (x & Hx & C')];
        [exists e; split; [now left | exact C']
        | exists x; split; [now right | exact C']].
  - intros v Hv. apply rl_contains_spec in Hv. destruct Hv as (e & He & Hv).
    rewrite Forall_forall in F. specialize (F e He). lia.
Qed.

(** ** rl_fromstring keeps [min <= max] *)

Lemma set_last_max_canonical (o : RangeList) (v : Z) :
  canonical o -> canonical (set_last_max o v).
Proof.
  induction 1 as [|e o He Ho IH]; [constructor |].
  cbn [set_last_max]. destruct o as [|e' o'].
  - destruct (Z.gtb_spec (rmin e) v); [rewrite xor_swap_swaps |];
      repeat constructor; simpl; lia.
  - constructor; trivial.
Qed.

Lemma on_number_canonical (v : Z) (st st' : pstate) :
  on_number v st = Some st' -> canonical (out st) -> canonical (out st').
Proof.
  unfold on_number. intros H Hc.
  destruct (is_dash (last st)), (cur st); try discriminate H;
    injection H as <-; simpl.
  - now apply set_last_max_canonical.
  - apply Forall_app. split; trivial. repeat constructor. simpl. lia.
  - apply Forall_app. split; trivial. repeat constructor. simpl. lia.
Qed.

Lemma scan_digits_length (v : Z) (s : string) :
  (String.length (snd (scan_digits v s)) <= String.length s)%nat.
Proof.
  revert v. induction s as [|c s IH]; intros v; simpl; [lia |].
  destruct (isdigit c); simpl; [| lia]. specialize (IH (sint64 (v * 10 + digit_val c))).
  lia.
Qed.

Lemma rl_result_canonical (rl0 : RangeList) (st : pstate) :
  canonical rl0 -> canonical (out st) -> canonical (rl_result rl0 st).
Proof. unfold rl_result. now destruct (out st). Qed.

Lemma rl_scan_canonical (rl0 : RangeList) (n : nat) :
  canonical rl0 ->
  forall s st, (String.length s <= n)%nat -> canonical (out st) ->
               canonical (snd (rl_scan rl0 s st)).
Proof.
  intros H0. induction n as [|n IH]; intros s st Hl Hc.
  - destruct s; [| simpl in Hl; lia]. simpl. now apply rl_result_canonical.
  - destruct s as [|c s]; [simpl; now apply rl_result_canonical |].
    simpl in Hl. destruct (isdigit c) eqn:D.
    + rewrite rl_scan_digit by assumption.
      destruct (on_number _ st) as [st' |] eqn:O.
      * apply IH; [| eapply on_number_canonical; eauto].
        cbn [scan_digits]. rewrite D.
        pose proof (scan_digits_length (sint64 (0 * 10 + digit_val c)) s). lia.
      * simpl. now apply rl_result_canonical.
    + cbn [rl_scan]. rewrite D.
      destruct (is_nul c); [simpl; now apply rl_result_canonical |].
      destruct (isspace c); [apply IH; trivial; lia |].
      destruct (Ascii.eqb c ","); [apply IH; trivial; lia |].
      destruct (Ascii.eqb c "-"); [apply IH; trivial; lia |].
      simpl. now apply rl_result_canonical.
Qed.

(** Whatever the text and whatever the return code, every element that
    rl_fromstring leaves in [*rl] has [min <= max], provided the list
    found there at the call had: an inverted pair is swapped. *)
Theorem rl_fromstring_canonical (rl0 : RangeList) (s : string)
  (H0 : canonical rl0) :
  canonical (snd (rl_fromstring rl0 s)).
Proof.
  unfold rl_fromstring.
  destruct (String.eqb (cstr s) ""); [constructor |].
  destruct (streq s "*"); [repeat constructor; simpl; lia |].
  apply (rl_scan_canonical rl0 (String.length s)); trivial. constructor.
Qed.

(** The text "7-3" gives the element [3, 7]. *)
Lemma rl_fromstring_canonical_witness :
  canonical (snd (rl_fromstring [] "7-3, 9")) /\
  rl_fromstring [] "7-3, 9" = (0, [mkRange 3 7; mkRange 9 9]).
Proof.
  split; [| reflexivity].
  apply (rl_fromstring_canonical [] "7-3, 9"). constructor.
Defined.

(** ** sl_read *)

Lemma sl_read_all_from_length (fp : string) (delimiter : ascii) :
  no_nul fp = true ->
  forall (v : list (option string)) (p : option string) (room : Z),
    List.length (sl_read_all_from v p room false fp delimiter)
    = count_char newline fp.
Proof.
  induction fp as [|c fp IH]; intros H v p room; [reflexivity |].
  simpl in H. apply andb_prop in H. destruct H as [Hc H].
  apply negb_true_iff in Hc.
  cbn [sl_read_all_from count_char].
  replace (if room <=? 0 then false else false) with false
    by (now destruct (room <=? 0)).
  rewrite Hc. destruct (Ascii.eqb c newline).
  - cbn [List.length]. now rewrite IH.
  - destruct (Ascii.eqb c delimiter); now rewrite IH.
Qed.

Lemma sl_read_from_none (fp : string) (delimiter : ascii) :
  no_nul fp = true ->
  forall (v : list (option string)) (p : option string) (room : Z),
    sl_read_from v p room false fp delimiter = None
    <-> count_char newline fp = O.
Proof.
  induction fp as [|c fp IH]; intros H v p room; [now split |].
  simpl in H. apply andb_prop in H. destruct H as [Hc H].
  apply negb_true_iff in Hc.
  cbn [sl_read_from count_char].
  replace (if room <=? 0 then false else false) with false
    by (now destruct (room <=? 0)).
  rewrite Hc. destruct (Ascii.eqb c newline); [split; discriminate |].
  destruct (Ascii.eqb c delimiter); now apply IH.
Qed.

Lemma sl_read_all_from_tail (tail : string) (delimiter : ascii) :
  count_char newline tail = O ->
  forall (v : list (option string)) (p : option string) (room : Z)
         (skip : bool),
    sl_read_all_from v p room skip tail delimiter = [].
Proof.
  induction tail as [|c tail IH]; intros H v p room skip; [reflexivity |].
  cbn [count_char] in H. cbn [sl_read_all_from].
  destruct (Ascii.eqb c newline); [discriminate H |].
  destruct (if room <=? 0 then false else skip); [now apply IH |].
  destruct (is_nul c); [now apply IH |].
  destruct (Ascii.eqb c delimiter); now apply IH.
Qed.

Lemma sl_read_all_from_app_tail (fp tail : string) (delimiter : ascii) :
  count_char newline tail = O ->
  forall (v : list (option string)) (p : option string) (room : Z)
         (skip : bool),
    sl_read_all_from v p room skip (fp ++ tail) delimiter
    = sl_read_all_from v p room skip fp delimiter.
Proof.
  intros Ht. induction fp as [|c fp IH]; intros v p room skip.
  - now apply sl_read_all_from_tail.
  - cbn [append sl_read_all_from].
    destruct (if room <=? 0 then false else skip); [apply IH |].
    destruct (is_nul c); [apply IH |].
    destruct (Ascii.eqb c newline); [now rewrite IH |].
    destruct (Ascii.eqb c delimiter); apply IH.
Qed.

Lemma sl_read_all_from_le (fp : string) (delimiter : ascii)
  (v : list (option string)) (p : option string) (room : Z) (skip : bool) :
  (List.length (sl_read_all_from v p room skip fp delimiter)
   <= count_char newline fp)%nat.
Proof.
  revert v p room skip.
  induction fp as [|c fp IH]; intros v p room skip; [apply Nat.le_refl |].
  cbn [sl_read_all_from count_char].
  destruct (if room <=? 0 then false else skip);
    [eapply Nat.le_trans; [apply IH | apply Nat.le_add_l] |].
  destruct (is_nul c);
    [eapply Nat.le_trans; [apply IH | apply Nat.le_add_l] |].
  destruct (Ascii.eqb c newline).
  - cbn [List.length]. apply le_n_S. apply IH.
  - destruct (Ascii.eqb c delimiter); apply IH.
Qed.

(** On an input without NUL bytes, process_input and the loaders handle
    as many records as the input has newline characters, and sl_read
    fails exactly on an input without one: text after the last newline is
    never made a record. *)
Theorem sl_read_counts_newlines (fp : string) (delimiter : ascii)
  (Hn : no_nul fp = true) :
  List.length (sl_read_all fp delimiter) = count_char newline fp /\
  (sl_read fp delimiter = None <-> count_char newline fp = O) /\
  (forall tail, count_char newline tail = O ->
     sl_read_all (fp ++ tail) delimiter = sl_read_all fp delimiter).
Proof.
  split; [now apply sl_read_all_from_length |].
  split; [now apply sl_read_from_none |].
  intros tail Ht. now apply sl_read_all_from_app_tail.
Qed.

(** Two lines and a text that no newline ends. *)
Lemma sl_read_counts_newlines_witness :
  List.length (sl_read_all (weight_u1 ++ sign_u1) "|") = 2%nat /\
  sl_read_all (weight_u1 ++ sign_u1 ++ "d|2025") "|"
  = sl_read_all (weight_u1 ++ sign_u1) "|".
Proof.
  destruct (sl_read_counts_newlines (weight_u1 ++ sign_u1) "|" eq_refl)
    as (L & _ & T).
  split; [exact L |].
  rewrite <- sapp_assoc. exact (T "d|2025" eq_refl).
Defined.

(** ** A NUL byte in the input *)







(** ** sl_print and sl_read *)

Lemma sl_value_nth (pre suf : list (option string)) (o : option string) :
  sl_value (mkStringList (pre ++ o :: suf)) (Z.of_nat (List.length pre))
  = entry_text o.
Proof.
  unfold sl_value, sl_n. simpl sl_v.
  rewrite length_app. simpl List.length.
  destruct (Z.ltb_spec (Z.of_nat (List.length pre)) 0); [lia |].
  destruct (Z.geb_spec (Z.of_nat (List.length pre))
              (Z.of_nat (List.length pre + S (List.length suf)))); [lia |].
  simpl. rewrite Nat2Z.id, nth_error_app2, Nat.sub_diag by lia.
  now destruct o as [t |].
Qed.

Lemma cstr_plain (delimiter : ascii) (t : string) :
  plain_text delimiter t = true -> cstr t = t.
Proof.
  induction t as [|c t IH]; intros H; [reflexivity |].
  simpl in H. apply andb_prop in H. destruct H as [H Ht].
  apply andb_prop in H. destruct H as [H _].
  apply andb_prop in H. destruct H as [Hz _].
  apply negb_true_iff in Hz. simpl. rewrite Hz. now rewrite IH.
Qed.

Lemma sl_print_from_entries (pre suf : list (option string)) (delimiter : ascii) :
  Forall (fun o => plain_text delimiter (entry_text o) = true) suf ->
  sl_print_from (mkStringList (pre ++ suf)) (Z.of_nat (List.length pre))
    (List.length suf) delimiter
  = print_entries suf delimiter.
Proof.
  intros Hs. revert pre. induction Hs as [|o suf Ho Hs IH]; intros pre;
    [reflexivity |].
  cbn [List.length sl_print_from print_entries].
  rewrite sl_value_nth, (cstr_plain delimiter) by exact Ho. f_equal. f_equal.
  specialize (IH (pre ++ [o])%list).
  rewrite <- app_assoc, length_app in IH. simpl in IH.
  rewrite Nat2Z.inj_add in IH. exact IH.
Qed.

Lemma sl_read_from_column (t : string) (delimiter : ascii)
  (v : list (option string)) (rest : string) :
  plain_text delimiter t = true ->
  forall (p : option string) (room : Z),
  exists room',
    sl_read_from v p room false (t ++ rest) delimiter
    = sl_read_from v (push_text p t) room' false rest delimiter.
Proof.
  induction t as [|c t IH]; intros H p room; [now exists room |].
  simpl in H. apply andb_prop in H. destruct H as [H Ht].
  apply andb_prop in H. destruct H as [H Hd].
  apply andb_prop in H. destruct H as [Hz Hn].
  apply negb_true_iff in Hz, Hn, Hd.
  cbn [append sl_read_from].
  replace (if room <=? 0 then false else false) with false
    by (now destruct (room <=? 0)).
  rewrite Hz, Hn, Hd.
  destruct (IH Ht (push_char p c)
              ((if room <=? 0 then BUFFER_SIZE - 1 else room) - 1))
    as (room' & E).
  exists room'. rewrite E. f_equal.
  unfold push_char, push_text.
  destruct t; simpl; [reflexivity |].
  rewrite sapp_assoc. reflexivity.
Qed.

Lemma sl_read_from_entries (suf : list (option string)) (delimiter : ascii)
  (rest : string) :
  Ascii.eqb delimiter newline = false ->
  is_nul delimiter = false ->
  Forall (fun o => plain_text delimiter (entry_text o) = true) suf ->
  forall (v : list (option string)) (room : Z),
    sl_read_from v None room false (print_entries suf delimiter ++ rest)
      delimiter
    = Some (mkStringList (v ++ map entry_read suf ++ [None]), rest).
Proof.
  intros Hd Hz Hs. induction Hs as [|o suf Ho Hs IH]; intros v room.
  - cbn [print_entries append sl_read_from map].
    replace (if room <=? 0 then false else false) with false
      by (now destruct (room <=? 0)).
    reflexivity.
  - cbn [print_entries]. rewrite sapp_assoc.
    destruct (sl_read_from_column (entry_text o) delimiter v
                (String delimiter (print_entries suf delimiter) ++ rest)
                Ho None room) as (room' & E).
    rewrite E. cbn [append sl_read_from].
    replace (if room' <=? 0 then false else false) with false
      by (now destruct (room' <=? 0)).
    rewrite Hz, Hd, Ascii.eqb_refl. rewrite IH. unfold sl_append.
    rewrite <- app_assoc. cbn [map app].
    replace (push_text None (entry_text o)) with (entry_read o);
      [reflexivity |].
    destruct o as [[|c t] |]; reflexivity.
Qed.

(** Reading back a line written by sl_print, when the delimiter is
    neither the newline nor the NUL and no entry holds a NUL, a newline or
    the delimiter: sl_read returns the entries in order, an
    empty one as NULL, followed by one more empty column for the delimiter
    that ends the line, and sl_value gives the same text at every index as
    before. *)
Theorem sl_read_sl_print (sl : StringList) (delimiter : ascii) (rest : string)
  (Hd : Ascii.eqb delimiter newline = false)
  (Hz : is_nul delimiter = false)
  (Hp : Forall (fun o => plain_text delimiter (entry_text o) = true) (sl_v sl)) :
  sl_read (sl_print sl delimiter ++ rest) delimiter
  = Some (mkStringList (map entry_read (sl_v sl) ++ [None]), rest) /\
  forall n, sl_value (mkStringList (map entry_read (sl_v sl) ++ [None])) n
            = sl_value sl n.
Proof.
  split.
  - unfold sl_read, sl_print. destruct sl as [es]. simpl sl_v in *.
    pose proof (sl_print_from_entries [] es delimiter Hp) as E. simpl in E.
    rewrite E. now rewrite sl_read_from_entries.
  - intros n. unfold sl_value, sl_n. simpl sl_v.
    rewrite length_app, length_map. simpl List.length.
    destruct (Z.ltb_spec n 0); [reflexivity |]. simpl orb.
    destruct (Z.geb_spec n (Z.of_nat (List.length (sl_v sl)))) as [G | G].
    + destruct (Z.geb_spec n (Z.of_nat (List.length (sl_v sl) + 1)));
        [reflexivity |].
      rewrite nth_error_app2 by (rewrite length_map; lia).
      rewrite length_map.
      replace (Z.to_nat n - List.length (sl_v sl))%nat with O by lia.
      reflexivity.
    + destruct (Z.geb_spec n (Z.of_nat (List.length (sl_v sl) + 1))); [lia |].
      rewrite nth_error_app1 by (rewrite length_map; lia).
      rewrite nth_error_map.
      destruct (nth_error (sl_v sl) (Z.to_nat n)) as [[[|c t] |] |]; reflexivity.
Qed.

(** Three columns, the second one empty. *)
Lemma sl_read_sl_print_witness :
  sl_read (sl_print (mkStringList [Some "a"; None; Some "bc"]) "|" ++ "x") "|"
  = Some (mkStringList [Some "a"; None; Some "bc"; None], "x").
Proof.
  apply (proj1 (sl_read_sl_print (mkStringList [Some "a"; None; Some "bc"])
                  "|" "x" eq_refl eq_refl
                  ltac:(repeat constructor))).
Defined.

(** ** evaluate_tree *)

Lemma change_max_rank (a b : changeStatus) :
  change_rank (change_max a b) = Z.max (change_rank a) (change_rank b).
Proof.
  unfold change_max. destruct (Z.gtb_spec (change_rank b) (change_rank a)); lia.
Qed.

Lemma change_rank_inj (a b : changeStatus) :
  change_rank a = change_rank b -> a = b.
Proof. destruct a, b; simpl; intros H; try reflexivity; discriminate H. Qed.

Lemma max_change_spec (l : list changeStatus) (c : changeStatus) :
  change_rank c <= change_rank (max_change l c) /\
  Forall (fun x => change_rank x <= change_rank (max_change l c)) l /\
  (max_change l c = c \/ In (max_change l c) l).
Proof.
  unfold max_change. revert c. induction l as [|x l IH]; intros c; simpl.
  - repeat split; [lia | constructor | now left].
  - destruct (IH (change_max c x)) as (A & B & C).
    rewrite change_max_rank in A. repeat split; [lia | |].
    + constructor; [lia | exact B].
    + destruct C as [C | C]; [| right; now right].
      rewrite C. unfold change_max.
      destruct (change_rank x >? change_rank c); [right; now left | now left].
Qed.

Lemma max_change_absorb (l : list changeStatus) (c : changeStatus) :
  Forall (fun x => change_rank x <= change_rank c) l -> max_change l c = c.
Proof.
  unfold max_change. induction 1 as [|x l Hx Hl IH]; simpl; [reflexivity |].
  unfold change_max at 2.
  destruct (Z.gtb_spec (change_rank x) (change_rank c)); [lia | exact IH].
Qed.

Lemma max_change_idem (l : list changeStatus) (c : changeStatus) :
  max_change l (max_change l c) = max_change l c.
Proof. apply max_change_absorb. apply max_change_spec. Qed.

Lemma evaluate_field_ext (a r : Z) (signer : option string)
  (cp1 cp2 : CoveredPlate) (fc : FieldChange) :
  same_plate_view cp1 cp2 ->
  evaluate_field a r signer cp1 fc = evaluate_field a r signer cp2 fc.
Proof.
  intros (F & R & S). unfold evaluate_field. now rewrite F, R, S.
Qed.

Lemma sint32_add_l (x y : Z) : sint32 (sint32 x + y) = sint32 (x + y).
Proof.
  unfold sint32. f_equal.
  replace ((x + 2 ^ 31) mod 2 ^ 32 - 2 ^ 31 + y + 2 ^ 31)
    with ((x + 2 ^ 31) mod 2 ^ 32 + y) by lia.
  rewrite Zplus_mod_idemp_l. f_equal. lia.
Qed.

Lemma sint32_idem (x : Z) : sint32 (sint32 x) = sint32 x.
Proof.
  replace (sint32 x) with (sint32 x + 0) at 1 by lia.
  rewrite sint32_add_l. f_equal. lia.
Qed.

Lemma evaluate_fields_spec (a r : Z) (signer : option string)
  (fcs : list FieldChange) (cp : CoveredPlate) :
  sint32 (cp_field_change_count cp) = cp_field_change_count cp ->
  evaluate_fields a r signer cp fcs =
  (mkCoveredPlate (cp_plate cp)
     (set_change (cp_status cp)
        (max_change (map fc_change (map (evaluate_field a r signer cp) fcs))
           (cp_change cp)))
     (cp_is_final cp)
     (sint32 (cp_field_change_count cp + Z.of_nat (List.length fcs)))
     (cp_changes cp),
   map (evaluate_field a r signer cp) fcs).
Proof.
  revert cp. induction fcs as [|fc fcs IH]; intros cp Hc.
  - destruct cp as [pl [sg rc ch] fin cnt chs]. simpl in *.
    now rewrite Z.add_0_r, Hc.
  - cbn [evaluate_fields].
    set (cp1 := cp_set_count cp (sint32 (cp_field_change_count cp + 1))).
    assert (V1 : same_plate_view cp1 cp) by (now unfold cp1).
    rewrite (evaluate_field_ext a r signer cp1 cp fc V1).
    set (fc' := evaluate_field a r signer cp fc).
    set (cp2 := if change_rank (s_changeStatus (fc_status fc'))
                   >? change_rank (s_changeStatus (cp_status cp1))
                then cp_set_status cp1
                       (set_change (cp_status cp1) (s_changeStatus (fc_status fc')))
                else cp1).
    assert (E2 : cp2 = mkCoveredPlate (cp_plate cp)
                         (set_change (cp_status cp)
                            (change_max (cp_change cp) (fc_change fc')))
                         (cp_is_final cp)
                         (sint32 (cp_field_change_count cp + 1)) (cp_changes cp)).
    { unfold cp2, cp1, change_max, cp_change, fc_change.
      destruct cp as [pl [sg rc ch] fin cnt chs]. simpl.
      now destruct (_ >? _). }
    rewrite IH by (rewrite E2; simpl; apply sint32_idem).
    assert (V2 : same_plate_view cp2 cp) by (rewrite E2; now unfold same_plate_view).
    rewrite (map_ext _ _ (fun x => evaluate_field_ext a r signer cp2 cp x V2)).
    rewrite E2. cbn [cp_plate cp_status cp_is_final cp_field_change_count
                       cp_changes cp_change map List.length].
    rewrite sint32_add_l.
    replace (cp_field_change_count cp + 1 + Z.of_nat (List.length fcs))
      with (cp_field_change_count cp + Z.of_nat (S (List.length fcs))) by lia.
    destruct (cp_status cp) as [sg rc ch]. reflexivity.
Qed.

Lemma evaluate_plate_spec (a r : Z) (sig : signatureStatus)
  (signer : option string) (cp : CoveredPlate) :
  evaluate_plate a r sig signer cp = plate_after a r sig signer cp.
Proof.
  unfold evaluate_plate, plate_after.
  rewrite evaluate_fields_spec by reflexivity.
  cbn [cp_set_changes cp_plate cp_status cp_is_final cp_field_change_count
         cp_changes cp_set_count cp_set_status].
  assert (V : same_plate_view
                (cp_set_count (cp_set_status cp (set_sig (cp_status cp) sig)) 0)
                (with_sig sig cp)) by (now unfold same_plate_view).
  rewrite (map_ext _ _ (fun x => evaluate_field_ext a r signer _ _ x V)).
  destruct cp as [pl [sg rc ch] fin cnt chs]. reflexivity.
Qed.

Lemma evaluate_field_eq (a r : Z) (signer : option string)
  (cp : CoveredPlate) (fc : FieldChange) :
  evaluate_field a r signer cp fc = field_after a r signer cp fc.
Proof.
  destruct fc as [fld [sg rc ch] desc ov nv who dt tm cm].
  unfold evaluate_field, field_after, by_signer, fc_change.
  cbn [fc_status s_changeStatus fc_who fc_field fc_desc fc_old_value
         fc_new_value fc_date fc_time fc_comment].
  destruct (negb (r =? 0) && (cp_is_final cp =? 0) && change_eqb ch CHANGE_DECLINED).
  - unfold fc_set_status, set_change, set_rec, set_sig.
    cbn [fc_status s_changeStatus s_recStatus s_signatureStatus fc_who
           fc_field fc_desc fc_old_value fc_new_value fc_date fc_time
           fc_comment].
    destruct who as [w |], signer as [sn |]; try reflexivity.
    now destruct (negb (a =? 0) && streq w sn).
  - unfold fc_set_status, set_change, set_rec, set_sig.
    cbn [fc_status s_changeStatus s_recStatus s_signatureStatus fc_who
           fc_field fc_desc fc_old_value fc_new_value fc_date fc_time
           fc_comment].
    destruct who as [w |], signer as [sn |]; try reflexivity.
    now destruct (negb (a =? 0) && streq w sn).
Qed.

Lemma by_signer_after (a r : Z) (signer : option string)
  (cp : CoveredPlate) (fc : FieldChange) :
  by_signer a signer (field_after a r signer cp fc) = by_signer a signer fc.
Proof. reflexivity. Qed.

Lemma evaluate_field_idem (a r : Z) (signer : option string)
  (cp : CoveredPlate) (fc : FieldChange) :
  evaluate_field a r signer cp (evaluate_field a r signer cp fc)
  = evaluate_field a r signer cp fc.
Proof.
  rewrite !evaluate_field_eq. unfold field_after at 1.
  rewrite by_signer_after. unfold field_after, fc_change.
  cbn [fc_status s_changeStatus fc_who fc_field fc_desc fc_old_value
         fc_new_value fc_date fc_time fc_comment].
  destruct (by_signer a signer fc); [reflexivity |].
  destruct (negb (r =? 0) && (cp_is_final cp =? 0)); [| reflexivity].
  cbn [andb]. now destruct (s_changeStatus (fc_status fc)).
Qed.

Lemma plate_after_idem (a r : Z) (sig : signatureStatus)
  (signer : option string) (cp : CoveredPlate) :
  plate_after a r sig signer (plate_after a r sig signer cp)
  = plate_after a r sig signer cp.
Proof.
  unfold plate_after at 1.
  cbn [plate_after cp_plate cp_status cp_is_final cp_changes cp_change
         s_recStatus s_changeStatus].
  unfold plate_after.
  set (ef := evaluate_field a r signer (with_sig sig cp)).
  assert (M : map (evaluate_field a r signer
                     (with_sig sig
                        (mkCoveredPlate (cp_plate cp)
                           (mkStatus sig (s_recStatus (cp_status cp))
                              (max_change (map fc_change (map ef (cp_changes cp)))
                                 (cp_change cp)))
                           (cp_is_final cp)
                           (sint32 (Z.of_nat (List.length (cp_changes cp))))
                           (map ef (cp_changes cp)))))
                 (map ef (cp_changes cp)) = map ef (cp_changes cp)).
  { rewrite map_map. apply map_ext. intros fc. unfold ef.
    rewrite (evaluate_field_ext a r signer _ (with_sig sig cp))
      by (now unfold same_plate_view).
    apply evaluate_field_idem. }
  cbn [cp_changes cp_plate cp_status cp_is_final cp_change s_recStatus
         s_changeStatus].
  rewrite M. unfold cp_change at 1. cbn [cp_status s_changeStatus].
  rewrite max_change_idem, length_map. reflexivity.
Qed.

Lemma evaluate_plates_spec (a r sig_plate : Z) (signer : option string)
  (cps : list CoveredPlate) (status : Status) :
  evaluate_plates a r sig_plate signer status cps =
  (mkStatus (s_signatureStatus status)
     (rec_last sig_plate cps (s_recStatus status))
     (max_change
        (map cp_change
           (map (plate_after a r (s_signatureStatus status) signer) cps))
        (s_changeStatus status)),
   map (plate_after a r (s_signatureStatus status) signer) cps).
Proof.
  revert status. induction cps as [|cp cps IH]; intros [sg rc ch].
  - reflexivity.
  - cbn [evaluate_plates]. rewrite evaluate_plate_spec.
    cbn [s_signatureStatus s_recStatus s_changeStatus].
    set (cp' := plate_after a r sg signer cp).
    set (st1 := if sig_plate =? cp_plate cp'
                then set_rec (mkStatus sg rc ch) (s_recStatus (cp_status cp'))
                else mkStatus sg rc ch).
    set (st2 := if change_rank (s_changeStatus (cp_status cp'))
                   >? change_rank (s_changeStatus st1)
                then set_change st1 (s_changeStatus (cp_status cp')) else st1).
    assert (E : st2 = mkStatus sg
                        (if sig_plate =? cp_plate cp
                         then s_recStatus (cp_status cp) else rc)
                        (change_max ch (cp_change cp'))).
    { unfold st2, st1, change_max, cp_change, cp', set_change, set_rec. simpl.
      destruct (sig_plate =? cp_plate cp); simpl;
        now destruct (change_rank _ >? change_rank ch). }
    rewrite IH, E. reflexivity.
Qed.

Lemma rec_last_idem (sig_plate : Z) (cps : list CoveredPlate) (x : recStatus) :
  rec_last sig_plate cps (rec_last sig_plate cps x) = rec_last sig_plate cps x.
Proof.
  unfold rec_last.
  assert (G : forall y,
             fold_left (fun acc cp => if sig_plate =? cp_plate cp
                                      then s_recStatus (cp_status cp) else acc)
               cps y = y \/
             forall z,
               fold_left (fun acc cp => if sig_plate =? cp_plate cp
                                        then s_recStatus (cp_status cp) else acc)
                 cps z =
               fold_left (fun acc cp => if sig_plate =? cp_plate cp
                                        then s_recStatus (cp_status cp) else acc)
                 cps y).
  { induction cps as [|cp cps IH]; intros y; simpl; [now left |].
    destruct (sig_plate =? cp_plate cp).
    - right. reflexivity.
    - apply IH. }
  destruct (G x) as [E | E]; [now rewrite !E | apply E].
Qed.

Lemma rec_last_after (a r sig_plate : Z) (sig : signatureStatus)
  (signer : option string) (cps : list CoveredPlate) (x : recStatus) :
  rec_last sig_plate (map (plate_after a r sig signer) cps) x
  = rec_last sig_plate cps x.
Proof.
  unfold rec_last. revert x. induction cps as [|cp cps IH]; intros x; simpl;
    [reflexivity | apply IH].
Qed.

Lemma evaluate_node_eq (a r : Z) (n : eSigNode) :
  evaluate_node a r n = node_after a r n.
Proof.
  unfold evaluate_node, node_after. rewrite evaluate_plates_spec.
  destruct n as [id visit config [sg rc ch] signer date time plates fields
                   flags txn].
  reflexivity.
Qed.

Lemma evaluate_node_idem (a r : Z) (n : eSigNode) :
  evaluate_node a r (evaluate_node a r n) = evaluate_node a r n.
Proof.
  rewrite !evaluate_node_eq. unfold node_after at 1.
  cbn [node_after esn_id esn_visit esn_config esn_status esn_signer esn_date
         esn_time esn_plates esn_sig_fields esn_flags esn_txn_id
         s_signatureStatus s_recStatus s_changeStatus].
  rewrite rec_last_after, rec_last_idem.
  assert (M : forall sg s cps,
             map (plate_after a r sg s) (map (plate_after a r sg s) cps)
             = map (plate_after a r sg s) cps).
  { intros sg s cps. rewrite map_map. apply map_ext. intros cp.
    apply plate_after_idem. }
  rewrite M. reflexivity.
Qed.

(** A second pass of evaluate_tree with the same two options changes
    nothing: every node, covered plate and field change is as the first
    pass left it. *)
Theorem evaluate_tree_idempotent (tree : list eSigNode)
  (allow_signer_changes resign_at_final : Z) :
  evaluate_tree (evaluate_tree tree allow_signer_changes resign_at_final)
    allow_signer_changes resign_at_final
  = evaluate_tree tree allow_signer_changes resign_at_final.
Proof.
  unfold evaluate_tree. rewrite map_map. apply map_ext. intros n.
  apply evaluate_node_idem.
Qed.

Lemma evaluate_field_pushed (a r : Z) (signer : option string)
  (cp : CoveredPlate) (fc : FieldChange) :
  s_signatureStatus (fc_status (evaluate_field a r signer cp fc))
  = s_signatureStatus (cp_status cp) /\
  s_recStatus (fc_status (evaluate_field a r signer cp fc))
  = s_recStatus (cp_status cp) /\
  fc_field (evaluate_field a r signer cp fc) = fc_field fc.
Proof. rewrite evaluate_field_eq. now repeat split. Qed.

Lemma Forall2_map_right {A B : Type} (P : A -> B -> Prop) (f : A -> B)
  (l : list A) :
  (forall x, P x (f x)) -> Forall2 P l (map f l).
Proof. intros H. induction l; simpl; constructor; auto. Qed.

(** After evaluate_tree every node has its change status computed from
    its covered plates and every plate from its field changes: a field
    change never ranks above its plate nor a plate above its node in the
    order NONE < ACCEPTED < DECLINED < DECLINED_ATFINAL, and the change
    status of the node is NONE or that of one of its plates.  The signature
    status of the node stands in every plate and field change, the record
    status of the plate in each of its field changes, and the field change
    count of a plate is the number of its field changes.  Nothing else of a
    node changes: keys, signer, signature fields, flags, transaction id and
    the plate numbers are as before. *)
Theorem evaluate_tree_status_order (tree : list eSigNode)
  (allow_signer_changes resign_at_final : Z) :
  Forall2
    (fun n n' =>
       (esn_id n', esn_visit n', esn_config n', esn_signer n', esn_date n',
        esn_time n', esn_sig_fields n', esn_flags n', esn_txn_id n')
       = (esn_id n, esn_visit n, esn_config n, esn_signer n, esn_date n,
          esn_time n, esn_sig_fields n, esn_flags n, esn_txn_id n) /\
       s_signatureStatus (esn_status n') = s_signatureStatus (esn_status n) /\
       map cp_plate (esn_plates n') = map cp_plate (esn_plates n) /\
       (s_changeStatus (esn_status n') = CHANGE_NONE \/
        exists cp, In cp (esn_plates n') /\
                   s_changeStatus (esn_status n') = cp_change cp) /\
       Forall
         (fun cp =>
            s_signatureStatus (cp_status cp) = s_signatureStatus (esn_status n') /\
            change_rank (cp_change cp)
              <= change_rank (s_changeStatus (esn_status n')) /\
            cp_field_change_count cp
              = sint32 (Z.of_nat (List.length (cp_changes cp))) /\
            Forall
              (fun fc =>
                 change_rank (fc_change fc) <= change_rank (cp_change cp) /\
                 s_signatureStatus (fc_status fc)
                   = s_signatureStatus (esn_status n') /\
                 s_recStatus (fc_status fc) = s_recStatus (cp_status cp))
              (cp_changes cp))
         (esn_plates n'))
    tree (evaluate_tree tree allow_signer_changes resign_at_final).
Proof.
  unfold evaluate_tree. apply Forall2_map_right. intros n.
  unfold evaluate_node. rewrite evaluate_plates_spec.
  cbn [esn_set_plates esn_set_status esn_status esn_plates esn_id esn_visit
         esn_config esn_signer esn_date esn_time esn_sig_fields esn_flags
         esn_txn_id set_change s_signatureStatus s_recStatus s_changeStatus].
  set (sg := s_signatureStatus (esn_status n)).
  set (pa := plate_after allow_signer_changes resign_at_final sg (esn_signer n)).
  destruct (max_change_spec (map cp_change (map pa (esn_plates n))) CHANGE_NONE)
    as (_ & Hall & Hin).
  split; [reflexivity | split; [reflexivity | split; [| split]]].
  - rewrite map_map. reflexivity.
  - destruct Hin as [E | I]; [now left | right].
    apply in_map_iff in I. destruct I as (cp & E & I). now exists cp.
  - rewrite Forall_map in Hall. rewrite Forall_map in Hall.
    rewrite Forall_map. rewrite Forall_forall in *. intros cp Hcp.
    split; [reflexivity | split; [now apply Hall | split]].
    + unfold pa, plate_after. simpl. now rewrite length_map.
    + unfold pa, plate_after. cbn [cp_changes cp_change cp_status
                                     s_changeStatus s_recStatus].
      set (ef := evaluate_field _ _ _ _).
      destruct (max_change_spec (map fc_change (map ef (cp_changes cp)))
                  (cp_change cp)) as (_ & Fall & _).
      rewrite Forall_map in Fall. rewrite Forall_map in Fall.
      rewrite Forall_map. rewrite Forall_forall in *. intros fc Hfc.
      split; [now apply Fall |].
      destruct (evaluate_field_pushed allow_signer_changes resign_at_final
                  (esn_signer n) (with_sig sg cp) fc) as (S & R & _).
      split; [exact S | exact R].
Qed.

Lemma evaluate_field_policy (a r : Z) (signer : option string)
  (cp : CoveredPlate) (fc : FieldChange) :
  (r <> 0 -> cp_is_final cp = 0 ->
   fc_change (evaluate_field a r signer cp fc) <> CHANGE_DECLINED) /\
  (forall who s,
     a <> 0 -> fc_who fc = Some who -> signer = Some s -> streq who s = true ->
     fc_change (evaluate_field a r signer cp fc) = CHANGE_ACCEPTED /\
     fc_comment (evaluate_field a r signer cp fc) = Some "Changed by Signer"%string) /\
  fc_who (evaluate_field a r signer cp fc) = fc_who fc.
Proof.
  rewrite evaluate_field_eq. unfold field_after, fc_change, by_signer.
  cbn [fc_status s_changeStatus fc_who fc_comment].
  split; [| split; [| reflexivity]].
  - intros Hr Hf. apply Z.eqb_neq in Hr. apply Z.eqb_eq in Hf. rewrite Hr, Hf.
    cbn [negb andb].
    destruct (match fc_who fc with
              | Some who =>
                  match signer with
                  | Some s => negb (a =? 0) && streq who s
                  | None => false
                  end
              | None => false
              end); [discriminate |].
    destruct (s_changeStatus (fc_status fc)); simpl; discriminate.
  - intros w s Ha Hw -> Hs. rewrite Hw. apply Z.eqb_neq in Ha.
    rewrite Ha, Hs. simpl. now split.
Qed.

(** The two options of evaluate_tree.  With resign-when-final, no field
    change on a covered plate that is not final is left DECLINED.  With
    allow-signer-changes, every field change last made by the signer of
    the node is ACCEPTED and commented "Changed by Signer". *)
Theorem evaluate_tree_policies (tree : list eSigNode)
  (allow_signer_changes resign_at_final : Z) :
  Forall
    (fun n' =>
       Forall
         (fun cp =>
            Forall
              (fun fc =>
                 (resign_at_final <> 0 -> cp_is_final cp = 0 ->
                  fc_change fc <> CHANGE_DECLINED) /\
                 (forall who s,
                    allow_signer_changes <> 0 -> fc_who fc = Some who ->
                    esn_signer n' = Some s -> streq who s = true ->
                    fc_change fc = CHANGE_ACCEPTED /\
                    fc_comment fc = Some "Changed by Signer"%string))
              (cp_changes cp))
         (esn_plates n'))
    (evaluate_tree tree allow_signer_changes resign_at_final).
Proof.
  unfold evaluate_tree. rewrite Forall_map. apply Forall_forall. intros n _.
  unfold evaluate_node. rewrite evaluate_plates_spec.
  cbn [esn_set_plates esn_set_status esn_plates esn_signer].
  rewrite Forall_map. apply Forall_forall. intros cp _.
  unfold plate_after. cbn [cp_changes cp_is_final].
  rewrite Forall_map. apply Forall_forall. intros fc _.
  destruct (evaluate_field_policy allow_signer_changes resign_at_final
              (esn_signer n)
              (with_sig (s_signatureStatus
                           (set_change (esn_status n) CHANGE_NONE)) cp) fc)
    as (P1 & P2 & P3).
  split.
  - intros Hr Hf. now apply P1.
  - intros who s Ha Hw Hs Hq. rewrite P3 in Hw. now apply (P2 who s).
Qed.

(** ** The state of a node, its colour and the DRF *)

(** write_drf lists a node exactly when esn_get_state calls it "SIGNATURE
    REMOVED", "SIG. REMOVED, ..." or "RE-SIGN REQD", which in SDV wording
    are the texts that begin "RE-VERIFICATION REQD" other than "... WHEN
    FINAL". *)
Theorem drf_matches_state (esn : eSigNode) (sdv_mode : Z) :
  (drf_selected esn = true <->
   In (esn_get_state esn 0)
     ["SIGNATURE REMOVED"; "SIG. REMOVED, ERROR RECORD";
      "SIG. REMOVED, LOST RECORD"; "SIG. REMOVED, DELETED RECORD";
      "RE-SIGN REQD"]%string) /\
  (sdv_mode <> 0 ->
   (drf_selected esn = true <->
    In (esn_get_state esn sdv_mode)
      ["RE-VERIFICATION REQD"; "RE-VERIFICATION REQD (ERROR REC)";
       "RE-VERIFICATION REQD (LOST REC)";
       "RE-VERIFICATION REQD (DELETED REC)"]%string)).
Proof.
  unfold drf_selected, esn_get_state. split.
  - destruct (s_signatureStatus (esn_status esn)),
      (s_recStatus (esn_status esn)), (s_changeStatus (esn_status esn));
      simpl; split; intros H; try reflexivity; try discriminate H;
      try (repeat (destruct H as [H | H]; try discriminate H); now elim H);
      auto 6.
  - intros Hs. apply Z.eqb_neq in Hs. rewrite Hs. simpl negb. cbv iota.
    destruct (s_signatureStatus (esn_status esn)),
      (s_recStatus (esn_status esn)), (s_changeStatus (esn_status esn));
      simpl; split; intros H; try reflexivity; try discriminate H;
      try (repeat (destruct H as [H | H]; try discriminate H); now elim H);
      auto 6.
Qed.

(** A status is shown light red in the workbook exactly when write_drf
    lists a node of that status and its record status is NORMAL; green,
    yellow and orange statuses are never listed. *)
Theorem red_cells_are_drf_lines (esn : eSigNode) :
  (get_color (esn_status esn) = CELL_COLOR_LTRED <->
   drf_selected esn = true /\ s_recStatus (esn_status esn) = RECORD_NORMAL) /\
  (In (get_color (esn_status esn))
     [CELL_COLOR_LTGREEN; CELL_COLOR_LTYELLOW; CELL_COLOR_LTORANGE] ->
   drf_selected esn = false).
Proof.
  unfold drf_selected, get_color.
  destruct (s_signatureStatus (esn_status esn)),
    (s_recStatus (esn_status esn)), (s_changeStatus (esn_status esn));
    simpl; (split; [split; [intros H; try discriminate H; now split
                           | intros (H1 & H2); try discriminate H1;
                             try discriminate H2; reflexivity]
                   | intros H; try reflexivity;
                     repeat (destruct H as [H | H]; try discriminate H);
                     now elim H]).
Qed.

(** ** The rows of a covered plate in the workbook *)

(** After evaluate_tree the height write_xls gives the merged plate cell
    is the number of rows it writes for the plate: one status line for a
    declined plate without field changes, one row for each field change of
    a signed node, as long as a plate has fewer than 2^31 - 1 changes. *)
Theorem plate_rows_match_detail (tree : list eSigNode)
  (allow_signer_changes resign_at_final : Z) :
  Forall
    (fun n' =>
       Forall
         (fun cp =>
            Z.of_nat (List.length (cp_changes cp)) < 2 ^ 31 - 1 ->
            plate_rows n' cp = Z.of_nat (List.length (plate_detail n' cp)))
         (esn_plates n'))
    (evaluate_tree tree allow_signer_changes resign_at_final).
Proof.
  unfold evaluate_tree. rewrite Forall_map. apply Forall_forall. intros n _.
  unfold evaluate_node. rewrite evaluate_plates_spec.
  cbn [esn_set_plates esn_set_status esn_plates].
  rewrite Forall_map. apply Forall_forall. intros cp _.
  unfold plate_rows, plate_detail, status_line, plate_after.
  cbn [cp_changes cp_field_change_count cp_status esn_status
         s_signatureStatus s_recStatus s_changeStatus cp_plate].
  rewrite !length_map. intros Hb. rewrite length_app.
  assert (S32 : forall z, 0 <= z < 2 ^ 31 -> sint32 z = z).
  { intros z Hz. unfold sint32. rewrite Z.mod_small; lia. }
  destruct (cp_changes cp) as [|fc fcs] eqn:E.
  - simpl map. cbv iota.
    destruct (negb (sig_eqb _ SIG_NONE)), (negb (rec_eqb _ RECORD_NORMAL) && _);
      reflexivity.
  - simpl map. cbv iota.
    rewrite S32 by lia.
    destruct (negb (sig_eqb _ SIG_NONE)); simpl List.length;
      rewrite ?length_map; lia.
Qed.

(** ** Exclusions *)

Lemma strip_date_clean (date : string) :
  count_char "/" (strip_date date) = O /\ count_char "013" (strip_date date) = O.
Proof.
  induction date as [|c d (A & B)]; simpl; [now split |].
  destruct (Ascii.eqb c "/") eqn:S; simpl; [now split |].
  destruct (Ascii.eqb c "013") eqn:R; simpl; [now split |].
  rewrite S, R. now split.
Qed.

Lemma cstr_idem (s : string) : cstr (cstr s) = cstr s.
Proof.
  induction s as [|c s IH]; simpl; [reflexivity |].
  destruct (is_nul c) eqn:N; simpl; [reflexivity |]. now rewrite N, IH.
Qed.

Lemma load_exclusion_row_valid (sl : StringList) (e : exclusion) :
  load_exclusion_row sl = Some e -> valid_exclusion e.
Proof.
  unfold load_exclusion_row, valid_exclusion.
  destruct (sl_n sl <? 4); [discriminate |].
  destruct (Z.eqb_spec (uint32 (atoi (sl_value sl 0))) 0) as [P | P];
    [discriminate |].
  destruct (Z.eqb_spec (atoi (sl_value sl 1)) 0) as [F | F]; [discriminate |].
  destruct (String.eqb_spec (cstr (sl_value sl 2)) "") as [U | U];
    [discriminate |].
  destruct (String.eqb (cstr (sl_value sl 3)) ""); [discriminate |].
  simpl.
  destruct (Z.eqb_spec
              (Z.of_nat (String.length (strip_date (cstr (sl_value sl 3))))) 8)
    as [L | L]; [| discriminate].
  destruct (starts_20 (strip_date (cstr (sl_value sl 3)))) eqn:T;
    [| discriminate].
  simpl. intros H. injection H as <-. simpl.
  destruct (strip_date_clean (cstr (sl_value sl 3))) as (A & B).
  rewrite cstr_idem. repeat split; trivial. lia.
Qed.

Lemma cstr_count_char (c : ascii) (s : string) :
  count_char c s = O -> count_char c (cstr s) = O.
Proof.
  induction s as [|x s IH]; simpl; [reflexivity |].
  destruct (is_nul x); [reflexivity |]. simpl.
  destruct (Ascii.eqb x c); [discriminate | exact IH].
Qed.

Lemma count_char_cstr_pos (c : ascii) (s : string) :
  count_char c (cstr s) <> O -> count_char c s <> O.
Proof. intros H E. apply H. now apply cstr_count_char. Qed.

(** The exclusion list.  load_exclusions keeps only rows with a plate and
    field other than 0, a user, and a date that after removal of slashes
    and carriage returns has eight characters and starts with "20"; a
    missing file gives -1 and leaves the list as it was.  is_excluded answers yes exactly
    when the old value of the audit record is empty and an entry has its
    plate, field, user and date; so a record whose date still holds a
    slash is never exempted by a loaded list. *)
Theorem exclusions_loaded_and_matched (file : option string)
  (excl : list exclusion) (sl : StringList) :
  Forall valid_exclusion (snd (load_exclusions [] file)) /\
  load_exclusions excl None = (-1, excl) /\
  (is_excluded excl sl = true <->
   cstr (sl_value sl AUDITREC_OLDVALUE) = ""%string /\
   exists e, In e excl /\ exclusion_matches e sl) /\
  (Forall valid_exclusion excl ->
   count_char "/" (cstr (sl_value sl AUDITREC_DATE)) <> O ->
   is_excluded excl sl = false).
Proof.
  assert (M : is_excluded excl sl = true <->
              cstr (sl_value sl AUDITREC_OLDVALUE) = ""%string /\
              exists e, In e excl /\ exclusion_matches e sl).
  { unfold is_excluded, exclusion_matches, streq. rewrite existsb_exists. split.
    - intros (e & He & H).
      repeat (apply andb_prop in H; destruct H as [H ?]).
      repeat match goal with
             | X : (_ =? _) = true |- _ => apply Z.eqb_eq in X
             | X : String.eqb _ _ = true |- _ => apply String.eqb_eq in X
             end.
      split; [assumption |]. exists e. now repeat split.
    - intros (Ho & e & He & P & F & U & D). exists e. split; [exact He |].
      rewrite P, F, U, D, Ho, !Z.eqb_refl, !String.eqb_refl. reflexivity. }
  split; [| split; [reflexivity | split; [exact M |]]].
  - destruct file as [fp |]; simpl; [| constructor].
    apply Forall_forall. intros e He. apply in_flat_map in He.
    destruct He as (row & _ & He).
    destruct (load_exclusion_row row) as [e' |] eqn:R; [| now elim He].
    destruct He as [<- | []]. now apply load_exclusion_row_valid in R.
  - intros Hv Hd. apply Bool.not_true_is_false. intros X.
    apply M in X. destruct X as (_ & e & He & _ & _ & _ & D).
    rewrite Forall_forall in Hv. destruct (Hv e He) as (_ & _ & _ & _ & _ & S & _).
    rewrite <- D in Hd. now apply count_char_cstr_pos in Hd.
Qed.

(** ** Centers and countries *)

Lemma find_center_from_spec (centers : list center) (id : Z)
  (errmon : option center) :
  find_center_from errmon centers id =
  match find (holds_patient id) centers with
  | Some c => c_number c
  | None =>
      match find is_monitor (rev centers) with
      | Some e => c_number e
      | None => match errmon with Some e => c_number e | None => 0 end
      end
  end.
Proof.
  revert errmon. induction centers as [|c cs IH]; intros errmon; simpl;
    [reflexivity |].
  unfold holds_patient at 1. destruct (rl_contains (c_pids c) id) eqn:E;
    [reflexivity |].
  rewrite IH. destruct (find (holds_patient id) cs) eqn:F; [reflexivity |].
  assert (A : find is_monitor (rev cs ++ [c])%list =
              match find is_monitor (rev cs) with
              | Some e => Some e
              | None => if is_monitor c then Some c else None
              end).
  { generalize (rev cs) as l. induction l as [|x l IHl]; simpl; [reflexivity |].
    now destruct (is_monitor x). }
  rewrite A. destruct (find is_monitor (rev cs)); [reflexivity |].
  unfold is_monitor. now destruct (negb (c_is_error_monitor c =? 0)).
Qed.

(** find_center answers with the first center of the list whose patient
    ranges hold the patient; when none does, with the last center of the
    list flagged as error monitor; and with 0 when there is none. *)
Theorem find_center_first_or_monitor (centers : list center) (id : Z) :
  find_center centers id =
  match find (holds_patient (sint64 id)) centers with
  | Some c => c_number c
  | None =>
      match find is_monitor (rev centers) with
      | Some e => c_number e
      | None => 0
      end
  end.
Proof. unfold find_center. apply find_center_from_spec. Qed.

(** find_country and find_region read the same entry: the first country
    whose center list holds the center, and both say "Unknown" when no
    country does. *)
Theorem country_and_region_agree (countries : list country) (centerid : Z) :
  (find_country countries centerid, find_region countries centerid) =
  match find (holds_center centerid) countries with
  | Some k => (co_name k, co_region k)
  | None => ("Unknown"%string, "Unknown"%string)
  end.
Proof.
  induction countries as [|k ks IH]; simpl; [reflexivity |].
  unfold holds_center at 1.
  now destruct (rl_contains (co_centers k) centerid).
Qed.

(** load_countries makes one country of every record sl_read returns,
    also of one whose center list is rejected by rl_fromstring: never more
    countries than the file has newlines, exactly as many when the file
    holds no NUL byte; the center ranges it stores all have
    [min <= max]. *)
Theorem load_countries_rows (fp : string) :
  fst (load_countries (Some fp)) = 0 /\
  List.length (snd (load_countries (Some fp)))
  = List.length (sl_read_all fp "|") /\
  (List.length (snd (load_countries (Some fp))) <= count_char newline fp)%nat /\
  (no_nul fp = true ->
   List.length (snd (load_countries (Some fp))) = count_char newline fp) /\
  Forall (fun k => canonical (co_centers k)) (snd (load_countries (Some fp))).
Proof.
  simpl. split; [reflexivity |]. rewrite length_map.
  split; [reflexivity |]. split; [apply sl_read_all_from_le |]. split.
  - intros H. now apply sl_read_all_from_length.
  - rewrite Forall_map. apply Forall_forall. intros sl _.
    unfold load_country_row. cbn [co_centers]. unfold rl_fromstring.
    destruct (String.eqb (cstr (sl_value sl 2)) ""); [constructor |].
    destruct (streq (sl_value sl 2) "*"); [repeat constructor; simpl; lia |].
    apply (rl_scan_canonical [] (String.length (sl_value sl 2))); constructor.
Qed.

(** ** The DRF after evaluate_tree *)

Lemma max_change_declined (l : list changeStatus) :
  max_change l CHANGE_NONE = CHANGE_DECLINED <->
  In CHANGE_DECLINED l /\ ~ In CHANGE_DECLINED_ATFINAL l.
Proof.
  destruct (max_change_spec l CHANGE_NONE) as (A & B & C).
  rewrite Forall_forall in B. split.
  - intros E. rewrite E in *. split.
    + destruct C as [C | C]; [discriminate C | exact C].
    + intros H. apply B in H. simpl in H. lia.
  - intros (D & N). apply B in D. simpl in D.
    destruct C as [C | C].
    + rewrite C in D. simpl in D. lia.
    + destruct (max_change l CHANGE_NONE); simpl in D; try lia;
        [reflexivity | now elim N].
Qed.

(** After evaluate_tree a node is listed in the DRF exactly when its
    signature is INVALIDATED, or it is COMPLETE on a NORMAL record, some
    covered plate is DECLINED and no covered plate is DECLINED_ATFINAL:
    one plate whose changes are deferred until the record is final keeps
    the node off the list, whatever the other plates hold. *)
Theorem drf_after_evaluate (tree : list eSigNode)
  (allow_signer_changes resign_at_final : Z) :
  Forall
    (fun n' =>
       drf_selected n' = true <->
       s_signatureStatus (esn_status n') = SIG_INVALIDATED \/
       (s_signatureStatus (esn_status n') = SIG_COMPLETE /\
        s_recStatus (esn_status n') = RECORD_NORMAL /\
        (exists cp, In cp (esn_plates n') /\ cp_change cp = CHANGE_DECLINED) /\
        (forall cp, In cp (esn_plates n') ->
           cp_change cp <> CHANGE_DECLINED_ATFINAL)))
    (evaluate_tree tree allow_signer_changes resign_at_final).
Proof.
  unfold evaluate_tree. rewrite Forall_map. apply Forall_forall. intros n _.
  unfold evaluate_node. rewrite evaluate_plates_spec.
  cbn [esn_set_plates esn_set_status esn_plates esn_status
         s_signatureStatus s_recStatus s_changeStatus set_change].
  set (cps := map (plate_after _ _ _ _) (esn_plates n)).
  pose proof (max_change_declined (map cp_change cps)) as M.
  assert (M' : max_change (map cp_change cps) CHANGE_NONE = CHANGE_DECLINED <->
               (exists cp, In cp cps /\ cp_change cp = CHANGE_DECLINED) /\
               (forall cp, In cp cps -> cp_change cp <> CHANGE_DECLINED_ATFINAL)).
  { rewrite M. split.
    - intros (D & N). apply in_map_iff in D. destruct D as (cp & E & I).
      split; [now exists cp |].
      intros cp' I' E'. apply N. apply in_map_iff. now exists cp'.
    - intros ((cp & I & E) & N). split; [apply in_map_iff; now exists cp |].
      intros H. apply in_map_iff in H. destruct H as (cp' & E' & I').
      now apply (N cp'). }
  unfold drf_selected.
  cbn [esn_status s_signatureStatus s_recStatus s_changeStatus].
  destruct (s_signatureStatus (esn_status n)) eqn:S; simpl.
  - split; [discriminate |]. intros [H | (H & _)]; discriminate H.
  - destruct (rec_last _ _ _) eqn:R; simpl;
      try (split; [discriminate | intros [H | (_ & H & _)]; discriminate H]).
    split.
    + intros H. right. split; [reflexivity |]. split; [reflexivity |].
      apply M'. now destruct (max_change _ _).
    + intros [H | (_ & _ & H)]; [discriminate H |].
      apply M' in H. now rewrite H.
  - split; [now left | reflexivity].
Qed.

(** ** The order of the trees *)

Section OrderedTree.

Context {A : Type} (cmp : A -> A -> comparison).
Hypothesis cmp_gt : forall x y, cmp x y = Gt -> cmp y x = Lt.
Hypothesis cmp_trans : forall x y z, cmp x y = Lt -> cmp y z = Lt -> cmp x z = Lt.
Hypothesis cmp_eq_lt : forall x y z, cmp x y = Eq -> cmp y z = Lt -> cmp x z = Lt.

Lemma RB_INSERT_sorted (t : list A) (x : A) :
  StronglySorted (fun a b => cmp a b = Lt) t ->
  StronglySorted (fun a b => cmp a b = Lt) (snd (RB_INSERT cmp t x)).
Proof.
  induction t as [|y t IH]; intros H; simpl.
  - repeat constructor.
  - apply StronglySorted_inv in H. destruct H as (S & F).
    destruct (cmp x y) eqn:C; simpl.
    + now constructor.
    + constructor; [now constructor |]. constructor; [exact C |].
      eapply Forall_impl; [| exact F]. intros z Hz. simpl in Hz.
      now apply (cmp_trans x y z).
    + pose proof (RB_INSERT_Forall cmp (fun b => cmp y b = Lt) t x F
                    (cmp_gt _ _ C)) as F'.
      specialize (IH S).
      destruct (RB_INSERT cmp t x) as [r t'']. simpl in *. now constructor.
Qed.

Lemma rb_store_sorted (t : list A) (x : A) :
  StronglySorted (fun a b => cmp a b = Lt) t ->
  StronglySorted (fun a b => cmp a b = Lt) (rb_store cmp t x).
Proof.
  induction t as [|y t IH]; intros H; simpl; [constructor |].
  apply StronglySorted_inv in H. destruct H as (S & F).
  destruct (cmp x y) eqn:C.
  - constructor; [exact S |]. eapply Forall_impl; [| exact F].
    intros z Hz. simpl in Hz. now apply (cmp_eq_lt x y z).
  - now constructor.
  - constructor; [now apply IH |].
    apply (rb_store_Forall cmp (fun b => cmp y b = Lt)); trivial.
    now apply cmp_gt.
Qed.

End OrderedTree.

Lemma StronglySorted_map {A B : Type} (R : A -> A -> Prop) (R' : B -> B -> Prop)
  (f : A -> B) (l : list A) :
  (forall a b, R a b -> R' (f a) (f b)) ->
  StronglySorted R l -> StronglySorted R' (map f l).
Proof.
  intros H. induction 1 as [|a l S IH F]; simpl; constructor; trivial.
  rewrite Forall_map. eapply Forall_impl; [| exact F]. intros b. apply H.
Qed.

Lemma compare_then_gt (a b : Z) (k1 k2 : comparison) :
  compare_then (a ?= b) k1 = Gt -> (k1 = Gt -> k2 = Lt) ->
  compare_then (b ?= a) k2 = Lt.
Proof.
  destruct (Z.compare_spec a b) as [E1 | L1 | G1],
    (Z.compare_spec b a) as [E2 | L2 | G2]; simpl; intros H K;
    try lia; try discriminate H; auto.
Qed.

Lemma compare_then_trans (a b c : Z) (k1 k2 k3 : comparison) :
  compare_then (a ?= b) k1 = Lt -> compare_then (b ?= c) k2 = Lt ->
  (k1 = Lt -> k2 = Lt -> k3 = Lt) -> compare_then (a ?= c) k3 = Lt.
Proof.
  destruct (Z.compare_spec a b) as [E1 | L1 | G1],
    (Z.compare_spec b c) as [E2 | L2 | G2],
    (Z.compare_spec a c) as [E3 | L3 | G3];
    simpl; intros H1 H2 K; try lia; try discriminate H1; try discriminate H2;
    auto.
Qed.

Lemma compare_then_eq_lt (a b c : Z) (k1 k2 k3 : comparison) :
  compare_then (a ?= b) k1 = Eq -> compare_then (b ?= c) k2 = Lt ->
  (k1 = Eq -> k2 = Lt -> k3 = Lt) -> compare_then (a ?= c) k3 = Lt.
Proof.
  destruct (Z.compare_spec a b) as [E1 | L1 | G1],
    (Z.compare_spec b c) as [E2 | L2 | G2],
    (Z.compare_spec a c) as [E3 | L3 | G3];
    simpl; intros H1 H2 K; try lia; try discriminate H1; try discriminate H2;
    auto.
Qed.

Lemma Zcompare_gt (a b : Z) : (a ?= b) = Gt -> (b ?= a) = Lt.
Proof. rewrite Z.compare_gt_iff, Z.compare_lt_iff. lia. Qed.

Lemma Zcompare_trans (a b c : Z) :
  (a ?= b) = Lt -> (b ?= c) = Lt -> (a ?= c) = Lt.
Proof. rewrite !Z.compare_lt_iff. lia. Qed.

Lemma Zcompare_eq_lt (a b c : Z) :
  (a ?= b) = Eq -> (b ?= c) = Lt -> (a ?= c) = Lt.
Proof. rewrite Z.compare_eq_iff, !Z.compare_lt_iff. lia. Qed.

Lemma esn_compare_gt (x y : eSigNode) :
  esn_compare x y = Gt -> esn_compare y x = Lt.
Proof.
  unfold esn_compare. intros H.
  repeat (eapply compare_then_gt; [exact H | clear H; intros H]).
  now apply Zcompare_gt.
Qed.

Lemma esn_compare_trans (x y z : eSigNode) :
  esn_compare x y = Lt -> esn_compare y z = Lt -> esn_compare x z = Lt.
Proof.
  unfold esn_compare. intros H1 H2.
  repeat (eapply compare_then_trans;
          [exact H1 | exact H2 | clear H1 H2; intros H1 H2]).
  now apply (Zcompare_trans _ _ _ H1).
Qed.

Lemma esn_compare_eq_lt (x y z : eSigNode) :
  esn_compare x y = Eq -> esn_compare y z = Lt -> esn_compare x z = Lt.
Proof.
  unfold esn_compare. intros H1 H2.
  repeat (eapply compare_then_eq_lt;
          [exact H1 | exact H2 | clear H1 H2; intros H1 H2]).
  now apply (Zcompare_eq_lt _ _ _ H1).
Qed.

Lemma dispatch_sorted (exclusions : list exclusion) (esc : eSigConfig)
  (sl : StringList) (id visit plate field rec_status txn_id : Z)
  (tree : list eSigNode) (db : sqlite3) :
  StronglySorted key_lt tree ->
  StronglySorted key_lt
    (fst (dispatch exclusions esc sl id visit plate field rec_status txn_id
            tree db)).
Proof.
  intros H. rewrite dispatch_engine_turn.
  pose proof (RB_INSERT_sorted esn_compare esn_compare_gt esn_compare_trans
                tree (esn_alloc id visit esc) H) as H1.
  destruct (RB_INSERT esn_compare tree (esn_alloc id visit esc)) as [e tree1].
  simpl in H1.
  apply (rb_store_sorted esn_compare esn_compare_gt esn_compare_eq_lt); trivial.
Qed.

Section RunInvariant.

Variable T : list eSigNode -> Prop.
Hypothesis T_dispatch :
  forall exclusions esc sl id visit plate field rec_status txn_id tree db,
    T tree ->
    T (fst (dispatch exclusions esc sl id visit plate field rec_status txn_id
              tree db)).

Lemma config_loop_inv (exclusions : list exclusion) (escs : list eSigConfig)
  (sl : StringList) (id visit plate field rec_status txn_id : Z)
  (tree : list eSigNode) (db : sqlite3) :
  T tree ->
  T (fst (config_loop exclusions escs sl id visit plate field rec_status txn_id
            tree db)).
Proof.
  revert tree db. induction escs as [|esc escs IH]; intros tree db Ht; simpl;
    [exact Ht |].
  destruct (config_applies esc plate visit field); [| now apply IH].
  destruct (dispatch _ _ _ _ _ _ _ _ _ _ _) as [tree' db'] eqn:D.
  apply IH. change tree' with (fst (tree', db')). rewrite <- D.
  now apply T_dispatch.
Qed.

Lemma process_record_inv (escs : list eSigConfig) (exclusions : list exclusion)
  (st : input_state) (sl : StringList) :
  T (in_tree st) -> T (in_tree (process_record escs exclusions st sl)).
Proof.
  intros Ht. unfold process_record. destruct (skipped sl); [exact Ht |].
  destruct (group_txn _ _ _) as [t l].
  destruct (config_loop _ _ _ _ _ _ _ _ _ _ _) as [tree db] eqn:L.
  simpl. change tree with (fst (tree, db)). rewrite <- L.
  now apply config_loop_inv.
Qed.

Lemma process_records_inv (escs : list eSigConfig) (exclusions : list exclusion)
  (sls : list StringList) (st : input_state) :
  T (in_tree st) -> T (in_tree (process_records escs exclusions st sls)).
Proof.
  unfold process_records. revert st.
  induction sls as [|sl sls IH]; intros st Ht; simpl; [exact Ht |].
  apply IH. now apply process_record_inv.
Qed.

End RunInvariant.

Section NodeInvariant.

Variable Q : eSigNode -> Prop.
Hypothesis Q_alloc : forall id visit esc, Q (esn_alloc id visit esc).
Hypothesis Q_sigfields :
  forall id visit esc, Q (esn_alloc_sigfields (esn_alloc id visit esc)).
Hypothesis Q_turn :
  forall exclusions esc sl plate field rec_status txn_id n,
    Q n -> Q (engine_turn exclusions esc sl plate field rec_status txn_id n).

Lemma dispatch_nodes (exclusions : list exclusion) (esc : eSigConfig)
  (sl : StringList) (id visit plate field rec_status txn_id : Z)
  (tree : list eSigNode) (db : sqlite3) :
  Forall Q tree ->
  Forall Q
    (fst (dispatch exclusions esc sl id visit plate field rec_status txn_id
            tree db)).
Proof.
  intros Ht. rewrite dispatch_engine_turn.
  pose proof (RB_INSERT_Forall esn_compare Q tree (esn_alloc id visit esc) Ht
                (Q_alloc id visit esc)) as H1.
  pose proof (RB_INSERT_fst_In esn_compare tree (esn_alloc id visit esc)) as H2.
  destruct (RB_INSERT esn_compare tree (esn_alloc id visit esc)) as [e tree1].
  simpl in H1, H2. apply rb_store_Forall; trivial. apply Q_turn.
  destruct e as [e |]; [| apply Q_sigfields].
  rewrite Forall_forall in Ht. apply Ht. now apply H2.
Qed.

Lemma process_input_nodes (escs : list eSigConfig) (exclusions : list exclusion)
  (db : sqlite3) (stdin : string) :
  Forall Q (in_tree (process_input escs exclusions [] db stdin)).
Proof.
  unfold process_input. apply (process_records_inv (Forall Q)).
  - intros. now apply dispatch_nodes.
  - constructor.
Qed.

End NodeInvariant.

Lemma esn_sign_plates (n : eSigNode) (sl : StringList) (field txn_id : Z) :
  esn_plates (esn_sign n sl field txn_id) = esn_plates n /\
  s_recStatus (esn_status (esn_sign n sl field txn_id))
  = s_recStatus (esn_status n).
Proof.
  unfold esn_sign. destruct (sign_loop _ _ _ _ _) as [a k].
  cbn [esn_config esn_set_sig_fields]. now destruct (negb _).
Qed.

Lemma esn_unsign_plates (n : eSigNode) (field : Z) :
  esn_plates (esn_unsign n field) = esn_plates n.
Proof.
  unfold esn_unsign. cbn [esn_status esn_set_sig_fields].
  now destruct (sig_eqb _ _).
Qed.

Lemma datachange_field_sorted (exclusions : list exclusion) (cp : CoveredPlate)
  (sl : StringList) (field : Z) :
  StronglySorted field_lt (cp_changes cp) ->
  StronglySorted field_lt (cp_changes (datachange_field exclusions cp sl field)).
Proof.
  intros H. unfold datachange_field.
  pose proof (RB_INSERT_sorted fc_compare
                (fun x y => Zcompare_gt (fc_field x) (fc_field y))
                (fun x y z => Zcompare_trans (fc_field x) (fc_field y) (fc_field z))
                (cp_changes cp) (fc_alloc field) H) as H1.
  destruct (RB_INSERT fc_compare (cp_changes cp) (fc_alloc field)) as [fc0 changes].
  simpl in H1. cbn [cp_changes cp_set_changes].
  apply (rb_store_sorted fc_compare
           (fun x y => Zcompare_gt (fc_field x) (fc_field y))
           (fun x y z => Zcompare_eq_lt (fc_field x) (fc_field y) (fc_field z)));
    trivial.
Qed.

Lemma datachange_sorted (exclusions : list exclusion) (n : eSigNode)
  (sl : StringList) (plate field txn_id : Z) :
  node_sorted n ->
  node_sorted (esn_datachange exclusions n sl plate field txn_id).
Proof.
  unfold node_sorted, esn_datachange. intros (S & F).
  pose proof (RB_INSERT_sorted cp_compare
                (fun x y => Zcompare_gt (cp_plate x) (cp_plate y))
                (fun x y z => Zcompare_trans (cp_plate x) (cp_plate y) (cp_plate z))
                (esn_plates n) (cp_alloc plate) S) as S1.
  pose proof (RB_INSERT_Forall cp_compare _ (esn_plates n) (cp_alloc plate) F
                (SSorted_nil _)) as F1.
  pose proof (RB_INSERT_fst_In cp_compare (esn_plates n) (cp_alloc plate)) as H2.
  destruct (RB_INSERT cp_compare (esn_plates n) (cp_alloc plate)) as [cp0 plates].
  simpl in S1, F1, H2. cbn [esn_plates esn_set_plates]. split.
  - apply (rb_store_sorted cp_compare
             (fun x y => Zcompare_gt (cp_plate x) (cp_plate y))
             (fun x y z => Zcompare_eq_lt (cp_plate x) (cp_plate y) (cp_plate z)));
      trivial.
  - apply rb_store_Forall; trivial.
    set (cp := match cp0 with Some c => c | None => cp_alloc plate end).
    assert (B : StronglySorted field_lt (cp_changes cp)).
    { subst cp. destruct cp0 as [c |]; [| constructor].
      rewrite Forall_forall in F. apply F. now apply H2. }
    assert (R : StronglySorted field_lt
                  (cp_changes (datachange_record n cp
                                 (atoi (sl_value sl AUDITREC_STATUS))
                                 (atoi (sl_value sl AUDITREC_LEVEL))))).
    { destruct (datachange_record_changes n cp
                  (atoi (sl_value sl AUDITREC_STATUS))
                  (atoi (sl_value sl AUDITREC_LEVEL))) as [-> | ->];
        [exact B | constructor]. }
    destruct (txn_id =? esn_txn_id n); [exact R |].
    destruct (field <? 7); [exact R |].
    now apply datachange_field_sorted.
Qed.

Lemma engine_turn_sorted (exclusions : list exclusion) (esc : eSigConfig)
  (sl : StringList) (plate field rec_status txn_id : Z) (n : eSigNode) :
  node_sorted n ->
  node_sorted (engine_turn exclusions esc sl plate field rec_status txn_id n).
Proof.
  intros H. unfold engine_turn.
  set (n1 := if (plate =? esc_sig_plate esc) && negb (rec_status =? 0)
             then esn_sig_rec_seen n else n).
  assert (H1 : node_sorted n1) by (subst n1; now destruct (_ && _)).
  destruct (_ && rl_contains _ _); [| now apply datachange_sorted].
  destruct (negb (String.eqb (cstr (sl_value sl AUDITREC_NEWVALUE)) "")).
  - unfold esn_free_signed_values.
    destruct (esn_sign_plates n1 sl field txn_id) as (P & _).
    destruct (negb (esn_txn_id _ =? txn_id)).
    + unfold node_sorted. now rewrite P.
    + unfold node_sorted. cbn [esn_plates esn_set_plates]. rewrite P.
      destruct H1 as (S & F). split.
      * apply (StronglySorted_map plate_lt); trivial.
      * rewrite Forall_map. apply Forall_forall. intros cp _. constructor.
  - unfold node_sorted. now rewrite esn_unsign_plates.
Qed.

Lemma evaluate_node_sorted (a r : Z) (n : eSigNode) :
  node_sorted n -> node_sorted (evaluate_node a r n).
Proof.
  unfold node_sorted, evaluate_node. rewrite evaluate_plates_spec.
  cbn [esn_set_plates esn_set_status esn_plates]. intros (S & F). split.
  - apply (StronglySorted_map plate_lt); trivial.
  - rewrite Forall_map. eapply Forall_impl; [| exact F]. intros cp Hc.
    unfold plate_after. cbn [cp_changes].
    apply (StronglySorted_map field_lt); trivial.
    intros x y. unfold field_lt, fc_compare.
    destruct (evaluate_field_pushed a r (esn_signer n)
                (with_sig (s_signatureStatus
                             (set_change (esn_status n) CHANGE_NONE)) cp) x)
      as (_ & _ & ->).
    destruct (evaluate_field_pushed a r (esn_signer n)
                (with_sig (s_signatureStatus
                             (set_change (esn_status n) CHANGE_NONE)) cp) y)
      as (_ & _ & ->).
    trivial.
Qed.

(** The three trees keep their order.  The nodes that process_input
    builds from the empty tree ascend strictly under esn_compare, so no
    two have the same patient, visit, signature plate and first signature
    field; under each node the covered plates ascend strictly by plate
    number and under each plate the field changes ascend strictly by field
    number.  evaluate_tree keeps all three orders. *)
Theorem trees_stay_ordered (escs : list eSigConfig)
  (exclusions : list exclusion) (db : sqlite3) (stdin : string)
  (allow_signer_changes resign_at_final : Z) :
  (StronglySorted key_lt (in_tree (process_input escs exclusions [] db stdin)) /\
   Forall node_sorted (in_tree (process_input escs exclusions [] db stdin))) /\
  (StronglySorted key_lt
     (evaluate_tree (in_tree (process_input escs exclusions [] db stdin))
        allow_signer_changes resign_at_final) /\
   Forall node_sorted
     (evaluate_tree (in_tree (process_input escs exclusions [] db stdin))
        allow_signer_changes resign_at_final)).
Proof.
  assert (S : StronglySorted key_lt
                (in_tree (process_input escs exclusions [] db stdin))).
  { unfold process_input. apply (process_records_inv (StronglySorted key_lt)).
    - intros. now apply dispatch_sorted.
    - constructor. }
  assert (F : Forall node_sorted
                (in_tree (process_input escs exclusions [] db stdin))).
  { apply process_input_nodes.
    - intros. split; constructor.
    - intros. split; constructor.
    - intros. now apply engine_turn_sorted. }
  split; [now split |]. unfold evaluate_tree. split.
  - apply (StronglySorted_map key_lt); trivial.
    intros x y. rewrite !evaluate_node_eq. trivial.
  - rewrite Forall_map. eapply Forall_impl; [| exact F].
    intros n. apply evaluate_node_sorted.
Qed.

(** ** esn_datachange *)

Lemma find_field_none (t : list FieldChange) (f : Z) :
  Forall (fun z => f < fc_field z) t ->
  find (fun fc => fc_field fc =? f) t = None.
Proof.
  induction 1 as [|z t Hz _ IH]; simpl; [reflexivity |].
  destruct (Z.eqb_spec (fc_field z) f); [lia | exact IH].
Qed.

Lemma fc_store_find (t : list FieldChange) (x : FieldChange)
  (upd : option FieldChange -> FieldChange) :
  StronglySorted field_lt t ->
  (forall o, fc_field (upd o) = fc_field x) ->
  fst (RB_INSERT fc_compare t x) = find (fun fc => fc_field fc =? fc_field x) t /\
  find (fun fc => fc_field fc =? fc_field x)
    (rb_store fc_compare (snd (RB_INSERT fc_compare t x))
       (upd (fst (RB_INSERT fc_compare t x))))
  = Some (upd (fst (RB_INSERT fc_compare t x))) /\
  (forall g, g <> fc_field x ->
     find (fun fc => fc_field fc =? g)
       (rb_store fc_compare (snd (RB_INSERT fc_compare t x))
          (upd (fst (RB_INSERT fc_compare t x))))
     = find (fun fc => fc_field fc =? g) t).
Proof.
  intros S U.
  assert (N : forall o g, g <> fc_field x -> (fc_field (upd o) =? g) = false).
  { intros o g Hg. rewrite U. apply Z.eqb_neq. congruence. }
  assert (Y : forall o, (fc_field (upd o) =? fc_field x) = true).
  { intros o. rewrite U. apply Z.eqb_refl. }
  induction t as [|y t IH].
  - cbn [RB_INSERT fst snd rb_store].
    assert (K : fc_compare (upd None) x = Eq)
      by (unfold fc_compare; rewrite U; apply Z.compare_refl).
    rewrite K. cbn [find]. rewrite Y. repeat split.
    intros g Hg. now rewrite N.
  - apply StronglySorted_inv in S. destruct S as (S & F).
    specialize (IH S). destruct IH as (I1 & I2 & I3).
    cbn [RB_INSERT]. change (fc_compare x y) with (fc_field x ?= fc_field y).
    destruct (fc_field x ?= fc_field y) eqn:C.
    + apply Z.compare_eq in C. cbn [fst snd rb_store].
      assert (K : fc_compare (upd (Some y)) y = Eq)
        by (unfold fc_compare; rewrite U, C; apply Z.compare_refl).
      rewrite K. cbn [find]. rewrite Y.
      assert (Yy : (fc_field y =? fc_field x) = true)
        by (rewrite C; apply Z.eqb_refl).
      rewrite Yy. repeat split. intros g Hg. rewrite N by exact Hg.
      destruct (Z.eqb_spec (fc_field y) g); [congruence | reflexivity].
    + rewrite Z.compare_lt_iff in C. cbn [fst snd rb_store].
      assert (K : fc_compare (upd None) x = Eq)
        by (unfold fc_compare; rewrite U; apply Z.compare_refl).
      rewrite K. cbn [find]. rewrite Y.
      destruct (Z.eqb_spec (fc_field y) (fc_field x)); [lia |].
      split; [| split; [reflexivity |]].
      * symmetry. apply find_field_none. eapply Forall_impl; [| exact F].
        intros z Hz. unfold field_lt, fc_compare in Hz.
        rewrite Z.compare_lt_iff in Hz. lia.
      * intros g Hg. now rewrite N.
    + destruct (RB_INSERT fc_compare t x) as [r t''] eqn:R.
      cbn [fst snd] in *. cbn [rb_store].
      assert (K : fc_compare (upd r) y = Gt)
        by (unfold fc_compare; rewrite U; exact C).
      rewrite K. cbn [find]. rewrite Z.compare_gt_iff in C.
      destruct (Z.eqb_spec (fc_field y) (fc_field x)); [lia |].
      split; [exact I1 | split; [exact I2 |]].
      intros g Hg. destruct (fc_field y =? g); [reflexivity | now apply I3].
Qed.

(** The field-level part of esn_datachange, on a covered plate whose
    field changes are in ascending order.  Afterwards the plate holds a
    change for the field with the new value and user of this record.  If
    the field had a change already, its old value is kept and the change
    is DECLINED without comment, excluded or not; if it had none, the old
    value is that of this record and the change is ACCEPTED as
    "Administratively exempted" exactly when is_excluded says so.  The
    changes of the other fields stay as they are. *)
Theorem datachange_field_first_old_last_new (exclusions : list exclusion)
  (cp : CoveredPlate) (sl : StringList) (field : Z)
  (Hs : StronglySorted field_lt (cp_changes cp)) :
  (exists fc,
     change_of field (datachange_field exclusions cp sl field) = Some fc /\
     fc_field fc = field /\
     fc_new_value fc
     = Some (decode_value sl AUDITREC_NEWVALUE AUDITREC_NEWDECODE) /\
     fc_who fc = Some (sl_value sl AUDITREC_USER) /\
     match change_of field cp with
     | Some fc0 =>
         fc_old_value fc = fc_old_value fc0 /\
         fc_change fc = CHANGE_DECLINED /\ fc_comment fc = None
     | None =>
         fc_old_value fc
         = Some (decode_value sl AUDITREC_OLDVALUE AUDITREC_OLDDECODE) /\
         (fc_change fc, fc_comment fc)
         = if is_excluded exclusions sl
           then (CHANGE_ACCEPTED, Some "Administratively exempted"%string)
           else (CHANGE_DECLINED, None)
     end) /\
  (forall g, g <> field ->
     change_of g (datachange_field exclusions cp sl field) = change_of g cp).
Proof.
  set (upd := fun fc0 : option FieldChange =>
    let fc := match fc0 with
              | Some f => f
              | None =>
                  fc_set_old_value (fc_alloc field)
                    (Some (decode_value sl AUDITREC_OLDVALUE AUDITREC_OLDDECODE))
              end in
    let fc := fc_update_values fc (sl_value sl AUDITREC_USER)
                (sl_value sl AUDITREC_DATE) (sl_value sl AUDITREC_TIME)
                (sl_value sl AUDITREC_FIELDDESC)
                (decode_value sl AUDITREC_NEWVALUE AUDITREC_NEWDECODE) in
    let is_new := match fc0 with None => true | Some _ => false end in
    if is_new && is_excluded exclusions sl then
      fc_set_status (fc_set_comment fc (Some "Administratively exempted"%string))
        (set_change (fc_status fc) CHANGE_ACCEPTED)
    else
      fc_set_status (fc_set_comment fc None)
        (set_change (fc_status fc) CHANGE_DECLINED)).
  assert (E : cp_changes (datachange_field exclusions cp sl field) =
              rb_store fc_compare
                (snd (RB_INSERT fc_compare (cp_changes cp) (fc_alloc field)))
                (upd (fst (RB_INSERT fc_compare (cp_changes cp) (fc_alloc field))))).
  { unfold datachange_field.
    now destruct (RB_INSERT fc_compare (cp_changes cp) (fc_alloc field)). }
  assert (F0 : forall fc0, change_of field cp = Some fc0 -> fc_field fc0 = field).
  { unfold change_of. intros fc0 H. apply find_some in H.
    now apply Z.eqb_eq. }
  assert (U : forall o,
            fst (RB_INSERT fc_compare (cp_changes cp) (fc_alloc field)) = o ->
            change_of field cp = o ->
            fc_field (upd o) = field).
  { intros [f |] _ Ho; unfold upd; simpl.
    - destruct (is_excluded exclusions sl); simpl; now apply F0.
    - now destruct (is_excluded exclusions sl). }
  destruct (fc_store_find (cp_changes cp) (fc_alloc field)
              (fun o => if match o with
                           | Some f => fc_field f =? field
                           | None => true
                           end
                        then upd o else fc_alloc field) Hs) as (I1 & I2 & I3).
  { intros [f |]; simpl; [| unfold upd; simpl;
                            now destruct (is_excluded exclusions sl)].
    destruct (Z.eqb_spec (fc_field f) field) as [Ef | Ef]; [| reflexivity].
    unfold upd. simpl. now destruct (is_excluded exclusions sl). }
  simpl fc_field in I1, I2, I3. fold (change_of field cp) in I1.
  assert (G : (if match fst (RB_INSERT fc_compare (cp_changes cp) (fc_alloc field)) with
                  | Some f => fc_field f =? field
                  | None => true
                  end
               then upd (fst (RB_INSERT fc_compare (cp_changes cp) (fc_alloc field)))
               else fc_alloc field)
              = upd (fst (RB_INSERT fc_compare (cp_changes cp) (fc_alloc field)))).
  { rewrite I1. destruct (change_of field cp) as [f |] eqn:Cf; [| reflexivity].
    rewrite (F0 f eq_refl), Z.eqb_refl. reflexivity. }
  rewrite G in I2, I3. split.
  - exists (upd (change_of field cp)). unfold change_of at 1. rewrite E.
    rewrite I1 in I2 |- *. fold (change_of field cp) in I2 |- *.
    split; [exact I2 |]. split; [now apply (U _ I1) |].
    unfold upd, fc_change.
    destruct (change_of field cp) as [f |]; simpl.
    + repeat split.
    + destruct (is_excluded exclusions sl); simpl; repeat split.
  - intros g Hg. unfold change_of. rewrite E. now apply I3.
Qed.

(** The first change of field 12 on a new covered plate. *)
Lemma datachange_field_first_old_last_new_witness :
  StronglySorted field_lt (cp_changes (cp_alloc 11)) /\
  exists fc,
    change_of 12 (datachange_field [] (cp_alloc 11) (record_of weight_u1) 12)
    = Some fc /\ fc_field fc = 12.
Proof.
  split; [constructor |].
  destruct (datachange_field_first_old_last_new [] (cp_alloc 11)
              (record_of weight_u1) 12 (SSorted_nil _))
    as ((fc & H1 & H2 & _) & _).
  exists fc. now split.
Defined.

Lemma datachange_record_plate (n : eSigNode) (cp : CoveredPlate)
  (rec_status rec_level : Z) :
  cp_plate (datachange_record n cp rec_status rec_level) = cp_plate cp.
Proof.
  unfold datachange_record.
  destruct (negb (sig_eqb _ SIG_NONE)), ((rec_status =? 0) || (rec_status =? 1)),
    ((rec_status =? 3) && (rec_level =? 7)), (rec_status =? 7), (rec_status =? 0);
    reflexivity.
Qed.

(** A data change made in the transaction that completed the signature,
    or to a field below 7, records nothing: every covered plate is left
    with the field changes it had, or with none. *)
Theorem datachange_untracked (exclusions : list exclusion) (n : eSigNode)
  (sl : StringList) (plate field txn_id : Z)
  (H : txn_id = esn_txn_id n \/ field < 7) :
  Forall (untouched n)
    (esn_plates (esn_datachange exclusions n sl plate field txn_id)).
Proof.
  unfold esn_datachange.
  assert (A : Forall (untouched n) (esn_plates n)).
  { apply Forall_forall. intros cp Hc. right. now exists cp. }
  pose proof (RB_INSERT_Forall cp_compare (untouched n) (esn_plates n)
                (cp_alloc plate) A (or_introl eq_refl)) as H1.
  pose proof (RB_INSERT_fst_In cp_compare (esn_plates n) (cp_alloc plate)) as H2.
  destruct (RB_INSERT cp_compare (esn_plates n) (cp_alloc plate)) as [cp0 plates].
  simpl in H1, H2. cbn [esn_plates esn_set_plates].
  apply rb_store_Forall; trivial.
  set (cp := match cp0 with Some c => c | None => cp_alloc plate end).
  assert (B : untouched n cp).
  { subst cp. destruct cp0 as [c |]; [| now left].
    right. exists c. split; [now apply H2 | now split]. }
  assert (R : untouched n (datachange_record n cp
                             (atoi (sl_value sl AUDITREC_STATUS))
                             (atoi (sl_value sl AUDITREC_LEVEL)))).
  { unfold untouched. rewrite datachange_record_plate.
    destruct (datachange_record_changes n cp
                (atoi (sl_value sl AUDITREC_STATUS))
                (atoi (sl_value sl AUDITREC_LEVEL))) as [-> | ->];
      [exact B | now left]. }
  destruct (Z.eqb_spec txn_id (esn_txn_id n)); [exact R |].
  destruct (Z.ltb_spec field 7); [exact R |].
  destruct H; [contradiction | lia].
Qed.

(** A change of field 5 under a new node. *)
Lemma datachange_untracked_witness :
  Forall (untouched node_A)
    (esn_plates (esn_datachange [] node_A (record_of weight_u1) 11 5 1)).
Proof.
  apply (datachange_untracked [] node_A (record_of weight_u1) 11 5 1).
  right. lia.
Defined.

(** ** The transaction id of a node *)

Lemma engine_turn_txn (exclusions : list exclusion) (esc : eSigConfig)
  (sl : StringList) (plate field rec_status txn_id : Z) (n : eSigNode) :
  txn_of_complete n ->
  txn_of_complete
    (engine_turn exclusions esc sl plate field rec_status txn_id n).
Proof.
  intros H. unfold engine_turn.
  set (n1 := if (plate =? esc_sig_plate esc) && negb (rec_status =? 0)
             then esn_sig_rec_seen n else n).
  assert (H1 : txn_of_complete n1) by (subst n1; now destruct (_ && _)).
  destruct (_ && rl_contains _ _).
  - destruct (negb (String.eqb (cstr (sl_value sl AUDITREC_NEWVALUE)) "")).
    + assert (S : txn_of_complete (esn_sign n1 sl field txn_id)).
      { unfold esn_sign. destruct (sign_loop _ _ _ _ _) as [a k].
        cbn [esn_config esn_set_sig_fields].
        destruct (negb (k =? esc_n_sig_fields (esn_config n1)));
          [exact H1 |]. intros _. reflexivity. }
      unfold esn_free_signed_values.
      now destruct (negb (esn_txn_id (esn_sign n1 sl field txn_id) =? txn_id)).
    + intros T. now elim T.
  - unfold esn_datachange. now destruct (RB_INSERT _ _ _).
Qed.

(** In the tree that process_input builds, a node keeps a transaction id
    other than 0 only while its signature is COMPLETE; so the test of
    esn_datachange and of process_input on the signing transaction never
    holds for an unsigned or invalidated node once the first record has
    been numbered. *)
Theorem signing_txn_only_while_complete (escs : list eSigConfig)
  (exclusions : list exclusion) (db : sqlite3) (stdin : string) :
  Forall txn_of_complete (in_tree (process_input escs exclusions [] db stdin)).
Proof.
  apply process_input_nodes.
  - intros id visit esc T. now elim T.
  - intros id visit esc T. now elim T.
  - intros. now apply engine_turn_txn.
Qed.

(** ** The records of a signature block *)

Lemma plate_config_plates (defns : list (Z * RangeList)) (serial : Z)
  (acc : list eSigConfig) :
  map esc_plate (fst (plate_config serial defns acc))
  = (rev (map (fun d => uint32 (fst d)) defns) ++ map esc_plate acc)%list /\
  map esc_ignore_fields (fst (plate_config serial defns acc))
  = (rev (map snd defns) ++ map esc_ignore_fields acc)%list.
Proof.
  revert serial acc. induction defns as [|[number ign] defns IH];
    intros serial acc; [now split |].
  cbn [plate_config plate_defn esc_alloc esc_plate esc_ignore_fields esc_visits esc_sig_plate
         esc_n_sig_fields esc_sig_fields esc_name esc_serial].
  destruct (IH (sint32 (serial + 1))
    (mkConfig (uint32 number) ign [] 0 0 [] None (sint32 (serial + 1)) :: acc))
    as (A & B).
  rewrite A, B. cbn [map rev fst snd esc_plate esc_ignore_fields].
  now rewrite <- !app_assoc.
Qed.

Lemma plate_config_serials (defns : list (Z * RangeList)) (serial : Z)
  (acc : list eSigConfig) :
  0 <= serial -> serial + Z.of_nat (List.length defns) < 2 ^ 31 ->
  map esc_serial (fst (plate_config serial defns acc))
  = (rev (map (fun k => serial + 1 + Z.of_nat k) (seq 0 (List.length defns)))
     ++ map esc_serial acc)%list /\
  snd (plate_config serial defns acc) = serial + Z.of_nat (List.length defns).
Proof.
  revert serial acc. induction defns as [|[number ign] defns IH];
    intros serial acc H0 H1.
  - simpl. split; [reflexivity | lia].
  - cbn [List.length] in H1.
    cbn [plate_config plate_defn esc_alloc esc_plate esc_ignore_fields esc_visits esc_sig_plate
         esc_n_sig_fields esc_sig_fields esc_name esc_serial].
    assert (E : sint32 (serial + 1) = serial + 1).
    { unfold sint32. rewrite Z.mod_small; lia. }
    rewrite E.
    destruct (IH (serial + 1)
                (mkConfig (uint32 number) ign [] 0 0 [] None (serial + 1) :: acc))
      as (A & B); [lia | lia |].
    rewrite A, B. cbn [map esc_serial List.length seq rev].
    rewrite <- seq_shift, map_map, <- app_assoc. split; [| lia].
    f_equal; [| simpl; f_equal; lia].
    f_equal. apply map_ext. intros k. lia.
Qed.

(** One signature block of the configuration file gives one record for
    each of its plate lines, the last line first.  Every record carries
    the signature plate, visits, signature fields, their count and the
    name of the header.  The header takes the serial number after the one
    in use and the plate lines the numbers after it, so that no record
    has the serial number of its header and no two records share one. *)
Theorem signature_records (serial : Z) (name : string) (number : Z)
  (visit_range range : RangeList) (defns : list (Z * RangeList))
  (H0 : 0 <= serial)
  (H1 : serial + 1 + Z.of_nat (List.length defns) < 2 ^ 31) :
  map esc_plate (fst (signature serial name number visit_range range defns))
  = rev (map (fun d => uint32 (fst d)) defns) /\
  map esc_ignore_fields
    (fst (signature serial name number visit_range range defns))
  = rev (map snd defns) /\
  map esc_serial (fst (signature serial name number visit_range range defns))
  = rev (map (fun k => serial + 2 + Z.of_nat k) (seq 0 (List.length defns))) /\
  snd (signature serial name number visit_range range defns)
  = serial + 1 + Z.of_nat (List.length defns) /\
  Forall
    (fun e =>
       esc_sig_plate e = uint32 number /\ esc_visits e = visit_range /\
       esc_sig_fields e = range /\
       esc_n_sig_fields e = sint32 (rl_width range) /\
       esc_name e = Some name)
    (fst (signature serial name number visit_range range defns)).
Proof.
  unfold signature, sig_config.
  cbn [esc_alloc esc_plate esc_ignore_fields esc_visits esc_sig_plate
         esc_n_sig_fields esc_sig_fields esc_name esc_serial].
  assert (E : sint32 (serial + 1) = serial + 1).
  { unfold sint32. rewrite Z.mod_small; lia. }
  rewrite E.
  destruct (plate_config_plates defns (serial + 1) []) as (P & I).
  destruct (plate_config_serials defns (serial + 1) []) as (S & N); [lia | lia |].
  destruct (plate_config (serial + 1) defns []) as [es serial'].
  cbn [fst snd] in *. rewrite !map_map.
  cbn [signature_copy esc_plate esc_ignore_fields esc_serial].
  rewrite app_nil_r in P, I, S.
  split; [exact P |]. split; [exact I |]. split.
  - change (map (fun x => esc_serial x) es) with (map esc_serial es).
    rewrite S. f_equal. apply map_ext. intros k. lia.
  - split; [lia |]. rewrite Forall_map. apply Forall_forall. intros e _.
    cbn [signature_copy esc_sig_plate esc_visits esc_sig_fields
           esc_n_sig_fields esc_name]. now rewrite !rl_dup_id.
Qed.

(** The block [signature "A" plate 10 visit * fields 8 { plate 10;
    plate 11; }] read first: the record of plate 11 has serial 3 and comes
    before that of plate 10, which has serial 2. *)
Lemma signature_records_witness :
  map esc_plate config_A = [11; 10] /\ map esc_serial config_A = [3; 2].
Proof.
  destruct (signature_records 0 "A" 10 visit_range_star
              (range_element_single 8) [(10, []); (11, [])])
    as (P & _ & S & _); [lia | simpl; lia |].
  split; [exact P | exact S].
Defined.

